(** * The Vercel output packager ([build-vercel.js])

    A shallow embedding of the Node script that repackages the static web
    build [dist] into the Build Output layout under [.vercel/output], and,
    further down, of the state handling of the tutorial's mood tracker.

    Modelling conventions.
    - The file system seen by the script is a finite tree of regular files
      and directories rooted at the working directory.  A directory keeps
      its entries as an association list in listing order (the order in
      which [fs.readdirSync] reports them); new entries are appended.
      Symbolic links, permissions and special files are not part of the
      model.
    - Names are byte strings.  Node decodes the names it lists as UTF-8
      and lists them in ascending order; the facts that depend on what
      is listed are stated for the trees of [Listing], on which the
      listing of the model is the one Node reports.
    - File contents are byte strings.  [index.html] is read and written back
      as text on its UTF-8 bytes: every character of the pattern is ASCII
      and a byte of a multi-byte sequence is never a double quote, so on
      well-formed UTF-8 matching bytes and matching code units agree.
      Bytes that are not well-formed UTF-8 do not come back from the text
      as they were, see [Utf8].
    - A Node call that raises (there is no [try]/[catch] in the script) ends
      the run; the outcome [Throw] keeps the file system as it was left.
    - [copyRecursive] recurses on the tree it finds at [src]; the embedding
      bounds the depth of that recursion by a fuel, and the facts below show
      that a fuel above the depth of [dist] is always enough.
    - A tree is well formed when no directory lists a name twice, as on any
      real file system; the exact description of a run assumes it of [dist].
    - [console.log] lines are not modelled. *)

From Stdlib Require Import List String Ascii Bool Arith Lia ZArith.
From Stdlib Require Import DecimalString OrdersEx.
Import ListNotations.
Set Warnings "-register-all".
Open Scope string_scope.
Open Scope nat_scope.
Open Scope list_scope.

(** ** File-system trees *)

Module Fs.

Inductive node : Type :=
| File (data : string)
| Dir (entries : list (string * node)).

Definition dirents := list (string * node).
Definition path := list string.

Fixpoint assoc (k : string) (es : dirents) : option node :=
  match es with
  | [] => None
  | (k', n) :: es' => if String.eqb k k' then Some n else assoc k es'
  end.

(** Replace the entry named [k] in place, or append it. *)
Fixpoint set_entry (k : string) (n : node) (es : dirents) : dirents :=
  match es with
  | [] => [(k, n)]
  | (k', m) :: es' =>
      if String.eqb k k' then (k, n) :: es' else (k', m) :: set_entry k n es'
  end.

Fixpoint del_entry (k : string) (es : dirents) : dirents :=
  match es with
  | [] => []
  | (k', m) :: es' =>
      if String.eqb k k' then del_entry k es' else (k', m) :: del_entry k es'
  end.

Definition names (es : dirents) : list string := map fst es.

(** Path resolution from a node. *)
Fixpoint walk (p : path) (n : node) : option node :=
  match p with
  | [] => Some n
  | x :: p' =>
      match n with
      | File _ => None
      | Dir es =>
          match assoc x es with
          | Some m => walk p' m
          | None => None
          end
      end
  end.

(** Install [new] at path [p]; the parent directory has to exist. *)
Fixpoint update (p : path) (new : node) (n : node) : node :=
  match p with
  | [] => new
  | x :: p' =>
      match n with
      | File _ => n
      | Dir es =>
          match assoc x es with
          | Some m => Dir (set_entry x (update p' new m) es)
          | None =>
              match p' with
              | [] => Dir (set_entry x new es)
              | _ :: _ => n
              end
          end
      end
  end.

(** Unlink the entry at path [p], with everything below it. *)
Fixpoint unlink (p : path) (n : node) : node :=
  match p with
  | [] => n
  | x :: p' =>
      match n with
      | File _ => n
      | Dir es =>
          match p' with
          | [] => Dir (del_entry x es)
          | _ :: _ =>
              match assoc x es with
              | Some m => Dir (set_entry x (unlink p' m) es)
              | None => n
              end
          end
      end
  end.

(** Create the chain of directories [p] below [n], as [mkdir -p] does;
    [None] when a component exists and is a regular file. *)
Fixpoint mkdirp (p : path) (n : node) : option node :=
  match p with
  | [] => match n with Dir _ => Some n | File _ => None end
  | x :: p' =>
      match n with
      | File _ => None
      | Dir es =>
          let sub := match assoc x es with Some m => m | None => Dir [] end in
          match mkdirp p' sub with
          | Some sub' => Some (Dir (set_entry x sub' es))
          | None => None
          end
      end
  end.

(** Two paths are apart when they part ways at some component: neither
    leads into the other. *)
Fixpoint apart (p q : path) : bool :=
  match p, q with
  | x :: p', y :: q' => if String.eqb x y then apart p' q' else true
  | _, _ => false
  end.

Fixpoint height (n : node) : nat :=
  match n with
  | File _ => 0
  | Dir es => fold_right (fun e acc => Nat.max (S (height (snd e))) acc) 0 es
  end.

Fixpoint nodupb (l : list string) : bool :=
  match l with
  | [] => true
  | x :: l' => negb (existsb (String.eqb x) l') && nodupb l'
  end.

(** A well-formed tree never lists a name twice in one directory. *)
Fixpoint wf (n : node) : bool :=
  match n with
  | File _ => true
  | Dir es => nodupb (map fst es) && forallb (fun e => wf (snd e)) es
  end.

End Fs.

(** ** Text read from bytes

    [fs.readFileSync(p, 'utf8')] decodes the bytes of a file as UTF-8 and
    [fs.writeFileSync] encodes the text again.  Text is kept here as the
    bytes it is encoded to: a well-formed sequence stands for itself, and
    what the decoder cannot read (a byte that starts no sequence, or a
    sequence that breaks off) stands as the three bytes of U+FFFD, the
    byte at which a sequence breaks off being read again. *)

Module Utf8.

Definition code (c : ascii) : nat := nat_of_ascii c.

Definition within (lo hi : nat) (c : ascii) : bool :=
  (lo <=? code c) && (code c <=? hi).

(** A continuation byte, [10xxxxxx]. *)
Definition cont : ascii -> bool := within 128 191.

(** The second byte after the lead byte [b1] of a sequence of three or
    four: shortest encodings only, no surrogates, nothing above
    U+10FFFF. *)
Definition second (b1 : ascii) : ascii -> bool :=
  within (if code b1 =? 224 then 160 else if code b1 =? 240 then 144 else 128)
         (if code b1 =? 237 then 159 else if code b1 =? 244 then 143 else 191).

(** Well-formed UTF-8 (Unicode, table 3-7). *)
Fixpoint well_formed (s : string) : bool :=
  match s with
  | EmptyString => true
  | String b1 s1 =>
      if code b1 <=? 127 then well_formed s1
      else if within 194 223 b1 then
        match s1 with
        | String b2 s2 => cont b2 && well_formed s2
        | EmptyString => false
        end
      else if within 224 239 b1 then
        match s1 with
        | String b2 (String b3 s3) => second b1 b2 && cont b3 && well_formed s3
        | _ => false
        end
      else if within 240 244 b1 then
        match s1 with
        | String b2 (String b3 (String b4 s4)) =>
            second b1 b2 && cont b3 && cont b4 && well_formed s4
        | _ => false
        end
      else false
  end.

(** U+FFFD in front of [s]. *)
Definition replaced (s : string) : string :=
  String "239" (String "191" (String "189" s)).

(** The text decoded from [s], as the bytes it is encoded to. *)
Fixpoint text (s : string) : string :=
  match s with
  | EmptyString => EmptyString
  | String b1 s1 =>
      if code b1 <=? 127 then String b1 (text s1)
      else if within 194 223 b1 then
        match s1 with
        | String b2 s2 =>
            if cont b2 then String b1 (String b2 (text s2))
            else replaced (text s1)
        | EmptyString => replaced EmptyString
        end
      else if within 224 239 b1 then
        match s1 with
        | String b2 s2 =>
            if second b1 b2 then
              match s2 with
              | String b3 s3 =>
                  if cont b3 then String b1 (String b2 (String b3 (text s3)))
                  else replaced (text s2)
              | EmptyString => replaced EmptyString
              end
            else replaced (text s1)
        | EmptyString => replaced EmptyString
        end
      else if within 240 244 b1 then
        match s1 with
        | String b2 s2 =>
            if second b1 b2 then
              match s2 with
              | String b3 s3 =>
                  if cont b3 then
                    match s3 with
                    | String b4 s4 =>
                        if cont b4
                        then String b1 (String b2 (String b3 (String b4 (text s4))))
                        else replaced (text s3)
                    | EmptyString => replaced EmptyString
                    end
                  else replaced (text s2)
              | EmptyString => replaced EmptyString
              end
            else replaced (text s1)
        | EmptyString => replaced EmptyString
        end
      else replaced (text s1)
  end.

End Utf8.

(** ** Outcomes of a run and the Node [fs] calls the script uses *)

Module Node.
Import Fs.

Inductive outcome (A : Type) : Type :=
| Ok (a : A) (s : node)
| Throw (s : node)
| OutOfFuel.
Arguments Ok {A} a s.
Arguments Throw {A} s.
Arguments OutOfFuel {A}.

Definition M (A : Type) : Type := node -> outcome A.

Definition ret {A} (a : A) : M A := fun s => Ok a s.

Definition bind {A B} (m : M A) (k : A -> M B) : M B :=
  fun s =>
    match m s with
    | Ok a s' => k a s'
    | Throw s' => Throw s'
    | OutOfFuel => OutOfFuel
    end.

Notation "x <- m ;; k" := (bind m (fun x => k))
  (at level 61, m at next level, right associativity).
Notation "m ;; k" := (bind m (fun _ => k))
  (at level 61, right associativity).

Definition when (b : bool) (m : M unit) : M unit :=
  if b then m else ret tt.

Fixpoint forEach {A} (l : list A) (f : A -> M unit) : M unit :=
  match l with
  | [] => ret tt
  | x :: l' => f x ;; forEach l' f
  end.

Definition join (p q : path) : path := p ++ q.

Record Stats : Type := { isDirectory : bool }.

Definition existsSync (p : path) : M bool :=
  fun s => Ok (match walk p s with Some _ => true | None => false end) s.

(** [fs.rmSync(p, { recursive: true })]; without [force] a missing [p]
    raises. *)
Definition rmSync (p : path) : M unit :=
  fun s =>
    match walk p s with
    | Some _ => Ok tt (unlink p s)
    | None => Throw s
    end.

(** [fs.mkdirSync(p, { recursive: true })]. *)
Definition mkdirSync (p : path) : M unit :=
  fun s =>
    match mkdirp p s with
    | Some s' => Ok tt s'
    | None => Throw s
    end.

Definition statSync (p : path) : M Stats :=
  fun s =>
    match walk p s with
    | Some (Dir _) => Ok {| isDirectory := true |} s
    | Some (File _) => Ok {| isDirectory := false |} s
    | None => Throw s
    end.

Definition readdirSync (p : path) : M (list string) :=
  fun s =>
    match walk p s with
    | Some (Dir es) => Ok (names es) s
    | _ => Throw s
    end.

(** [fs.readFileSync(p, 'utf8')]: the content as text. *)
Definition readFileSync (p : path) : M string :=
  fun s =>
    match walk p s with
    | Some (File data) => Ok (Utf8.text data) s
    | _ => Throw s
    end.

(** Writing needs an existing parent directory and a target that is not
    a directory; the file is created or overwritten. *)
Definition writeFileSync (p : path) (data : string) : M unit :=
  fun s =>
    match walk (removelast p) s, walk p s with
    | Some (Dir _), Some (File _) | Some (Dir _), None =>
        Ok tt (update p (File data) s)
    | _, _ => Throw s
    end.

(** [fs.copyFileSync(src, dest)].  The bytes of a regular file are
    written to [dest] as [writeFileSync] writes them.  A directory as
    source is opened all the same, and so is the destination: the copy
    then fails, and the destination is removed again, be it the file just
    created or one that was there before. *)
Definition copyFileSync (src dest : path) : M unit :=
  fun s =>
    match walk src s with
    | Some (File data) => writeFileSync dest data s
    | Some (Dir _) =>
        match walk (removelast dest) s, walk dest s with
        | Some (Dir _), Some (File _) => Throw (unlink dest s)
        | _, _ => Throw s
        end
    | None => Throw s
    end.

End Node.

(** ** Strings as JavaScript uses them *)

Module Js.

(** The double quote character. *)
Definition dq : ascii := "034"%char.

(** [quoted s] is [s] between two double quotes. *)
Definition quoted (s : string) : string :=
  String dq (s ++ String dq EmptyString)%string.

Definition startsWith (s p : string) : bool := String.prefix p s.

Definition endsWith (s p : string) : bool :=
  Nat.leb (String.length p) (String.length s) &&
  String.eqb (substring (String.length s - String.length p) (String.length p) s) p.

(** [Array.prototype.find]. *)
Definition find {A} (f : A -> bool) (l : list A) : option A := List.find f l.

(** Truthiness of the result of [find] on strings, as tested by
    [if (jsFile)]: [undefined] and the empty string are falsy. *)
Definition truthy (o : option string) : bool :=
  match o with
  | Some s => negb (String.eqb s "")
  | None => false
  end.

End Js.

(** ** Regular expressions: the fragment the script's literal needs

    Single-character atoms, and the greedy star of one, matched by
    backtracking in the order ECMAScript prescribes. *)

Module Regex.

Inductive atom : Type :=
| Chr (c : ascii)        (* the character c *)
| NotChr (c : ascii).    (* the class [^c] *)

Inductive item : Type :=
| One (a : atom)
| Star (a : atom).       (* a*, greedy *)

Definition regex := list item.

Definition accepts (a : atom) (c : ascii) : bool :=
  match a with
  | Chr c' => Ascii.eqb c c'
  | NotChr c' => negb (Ascii.eqb c c')
  end.

(** The greedy star of [a] followed by the continuation [k]: take one
    more character when [a] accepts it, and only when everything after
    that fails, go on with [k] from here. *)
Fixpoint star (a : atom) (k : string -> option string) (t : string)
  : option string :=
  match t with
  | String c t' =>
      if accepts a c then
        match star a k t' with
        | Some rest => Some rest
        | None => k t
        end
      else k t
  | EmptyString => k t
  end.

(** [match_at r s] is what is left of [s] after the first successful
    match of [r] at its start, in backtracking order. *)
Fixpoint match_at (r : regex) (s : string) {struct r} : option string :=
  match r with
  | [] => Some s
  | One a :: r' =>
      match s with
      | String c s' => if accepts a c then match_at r' s' else None
      | EmptyString => None
      end
  | Star a :: r' => star a (match_at r') s
  end.

(** The leftmost match: the text before it and the text after it. *)
Fixpoint search (r : regex) (s : string) : option (string * string) :=
  match match_at r s with
  | Some rest => Some (EmptyString, rest)
  | None =>
      match s with
      | String c s' =>
          match search r s' with
          | Some (pre, rest) => Some (String c pre, rest)
          | None => None
          end
      | EmptyString => None
      end
  end.

(** [String.prototype.replace] with a regular expression without the [g]
    flag and a replacement text that holds no [$]. *)
Definition replace (r : regex) (by_ : string) (s : string) : string :=
  match search r s with
  | Some (pre, rest) => (pre ++ by_ ++ rest)%string
  | None => s
  end.

Definition lit (s : string) : regex :=
  map (fun c => One (Chr c)) (list_ascii_of_string s).

(** *** The language of an expression *)

Fixpoint all_chars (f : ascii -> bool) (s : string) : bool :=
  match s with
  | EmptyString => true
  | String c s' => f c && all_chars f s'
  end.

(** [matches r m]: the whole of [m] is a word of [r]. *)
Inductive matches : regex -> string -> Prop :=
| matches_nil : matches [] EmptyString
| matches_one a r c m :
    accepts a c = true -> matches r m -> matches (One a :: r) (String c m)
| matches_star a r x m :
    all_chars (accepts a) x = true -> matches r m ->
    matches (Star a :: r) (x ++ m)%string.

End Regex.

(** ** JSON documents, [JSON.stringify] with an indent, and [JSON.parse]

    Numbers are integers (the manifest holds no other), object members keep
    their insertion order. *)

Module Json.
Import Js.

Inductive json : Type :=
| JNull
| JBool (b : bool)
| JNum (z : Z)
| JStr (s : string)
| JArr (items : list json)
| JObj (members : list (string * json)).

Definition hex_digit (n : nat) : ascii :=
  if n <? 10 then ascii_of_nat (48 + n) else ascii_of_nat (87 + n).

(** One character of a string, as QuoteJSONString renders it. *)
Definition quote_char (c : ascii) : string :=
  let n := nat_of_ascii c in
  let bs := String "\"%char EmptyString in
  if n =? 8 then bs ++ "b"
  else if n =? 9 then bs ++ "t"
  else if n =? 10 then bs ++ "n"
  else if n =? 12 then bs ++ "f"
  else if n =? 13 then bs ++ "r"
  else if n =? 34 then bs ++ String dq EmptyString
  else if n =? 92 then bs ++ bs
  else if n <? 32 then
    bs ++ "u00" ++ String (hex_digit (n / 16)) (String (hex_digit (n mod 16)) EmptyString)
  else String c EmptyString.

Fixpoint quote_body (s : string) : string :=
  match s with
  | EmptyString => EmptyString
  | String c s' => quote_char c ++ quote_body s'
  end.

Definition quote (s : string) : string :=
  String dq (quote_body s ++ String dq EmptyString).

Definition newline : string := String "010"%char EmptyString.

(** [serialize gap indent v]: SerializeJSONProperty with a non-empty
    [gap]; [indent] is the indentation of the enclosing line. *)
Fixpoint serialize (gap indent : string) (v : json) : string :=
  match v with
  | JNull => "null"
  | JBool true => "true"
  | JBool false => "false"
  | JNum z => NilZero.string_of_int (Z.to_int z)
  | JStr s => quote s
  | JArr items =>
      match items with
      | [] => "[]"
      | _ :: _ =>
          let inner := indent ++ gap in
          "[" ++ newline ++ inner ++
          String.concat ("," ++ newline ++ inner)
            (map (serialize gap inner) items) ++
          newline ++ indent ++ "]"
      end
  | JObj members =>
      match members with
      | [] => "{}"
      | _ :: _ =>
          let inner := indent ++ gap in
          "{" ++ newline ++ inner ++
          String.concat ("," ++ newline ++ inner)
            (map (fun kv => quote (fst kv) ++ ": " ++ serialize gap inner (snd kv))
                 members) ++
          newline ++ indent ++ "}"
      end
  end%string.

Fixpoint spaces (n : nat) : string :=
  match n with
  | 0 => EmptyString
  | S n' => String " "%char (spaces n')
  end.

(** [JSON.stringify(v, null, n)] for [1 <= n <= 10]. *)
Definition stringify (v : json) (n : nat) : string :=
  serialize (spaces n) EmptyString v.

(** *** Reading a document back *)

Definition is_ws (c : ascii) : bool :=
  let n := nat_of_ascii c in
  (n =? 32) || (n =? 9) || (n =? 10) || (n =? 13).

Fixpoint skip_ws (s : string) : string :=
  match s with
  | String c s' => if is_ws c then skip_ws s' else s
  | EmptyString => s
  end.

Definition digit_of (c : ascii) : option Z :=
  let n := nat_of_ascii c in
  if (48 <=? n) && (n <=? 57) then Some (Z.of_nat (n - 48)) else None.

Fixpoint parse_digits (acc : Z) (s : string) : Z * string :=
  match s with
  | String c s' =>
      match digit_of c with
      | Some d => parse_digits (10 * acc + d) s'
      | None => (acc, s)
      end
  | EmptyString => (acc, s)
  end.

(** An integer without a leading zero, not followed by a fraction or an
    exponent. *)
Definition parse_nat (s : string) : option (Z * string) :=
  match s with
  | String c s' =>
      match digit_of c with
      | Some d =>
          let '(z, rest) := if (d =? 0)%Z then (0%Z, s') else parse_digits d s' in
          match rest with
          | String c' _ =>
              if (Ascii.eqb c' "."%char || Ascii.eqb c' "e"%char || Ascii.eqb c' "E"%char
                  || match digit_of c' with Some _ => true | None => false end)
              then None else Some (z, rest)
          | EmptyString => Some (z, rest)
          end
      | None => None
      end
  | EmptyString => None
  end.

Definition unhex (c : ascii) : option nat :=
  let n := nat_of_ascii c in
  if (48 <=? n) && (n <=? 57) then Some (n - 48)
  else if (97 <=? n) && (n <=? 102) then Some (n - 87)
  else if (65 <=? n) && (n <=? 70) then Some (n - 55)
  else None.

(** The characters of a string literal after its opening quote; [\u]
    escapes are read in the ASCII range only. *)
Fixpoint parse_chars (s : string) : option (string * string) :=
  match s with
  | EmptyString => None
  | String c s' =>
      if Ascii.eqb c dq then Some (EmptyString, s')
      else if Ascii.eqb c "\"%char then
        match s' with
        | String e s'' =>
            let continue (ch : ascii) (rest : string) :=
              match parse_chars rest with
              | Some (body, tl) => Some (String ch body, tl)
              | None => None
              end in
            if Ascii.eqb e dq then continue dq s''
            else if Ascii.eqb e "\"%char then continue "\"%char s''
            else if Ascii.eqb e "/"%char then continue "/"%char s''
            else if Ascii.eqb e "b"%char then continue "008"%char s''
            else if Ascii.eqb e "f"%char then continue "012"%char s''
            else if Ascii.eqb e "n"%char then continue "010"%char s''
            else if Ascii.eqb e "r"%char then continue "013"%char s''
            else if Ascii.eqb e "t"%char then continue "009"%char s''
            else if Ascii.eqb e "u"%char then
              match s'' with
              | String h1 (String h2 (String h3 (String h4 s3))) =>
                  match unhex h1, unhex h2, unhex h3, unhex h4 with
                  | Some 0, Some 0, Some a, Some b =>
                      if a <? 8 then continue (ascii_of_nat (16 * a + b)) s3 else None
                  | _, _, _, _ => None
                  end
              | _ => None
              end
            else None
        | EmptyString => None
        end
      else if nat_of_ascii c <? 32 then None
      else
        match parse_chars s' with
        | Some (body, tl) => Some (String c body, tl)
        | None => None
        end
  end.

(** A later member with the same key replaces the value of the earlier
    one and keeps its place. *)
Fixpoint set_member (k : string) (v : json) (ms : list (string * json)) :=
  match ms with
  | [] => [(k, v)]
  | (k', v') :: ms' =>
      if String.eqb k k' then (k, v) :: ms' else (k', v') :: set_member k v ms'
  end.

Definition expect (c : ascii) (s : string) : option string :=
  match s with
  | String c' s' => if Ascii.eqb c c' then Some s' else None
  | EmptyString => None
  end.

Fixpoint parse_value (fuel : nat) (s : string) : option (json * string) :=
  match fuel with
  | 0 => None
  | S fuel' =>
      match skip_ws s with
      | EmptyString => None
      | String c rest =>
          if Ascii.eqb c "{"%char then
            match skip_ws rest with
            | String "}"%char rest' => Some (JObj [], rest')
            | _ => parse_members fuel' rest []
            end
          else if Ascii.eqb c "["%char then
            match skip_ws rest with
            | String "]"%char rest' => Some (JArr [], rest')
            | _ => parse_items fuel' rest []
            end
          else if Ascii.eqb c dq then
            match parse_chars rest with
            | Some (str, rest') => Some (JStr str, rest')
            | None => None
            end
          else if Ascii.eqb c "-"%char then
            match parse_nat rest with
            | Some (z, rest') => Some (JNum (- z), rest')
            | None => None
            end
          else if String.prefix "true" (String c rest) then
            Some (JBool true, substring 4 (String.length rest) (String c rest))
          else if String.prefix "false" (String c rest) then
            Some (JBool false, substring 5 (String.length rest) (String c rest))
          else if String.prefix "null" (String c rest) then
            Some (JNull, substring 4 (String.length rest) (String c rest))
          else
            match parse_nat (String c rest) with
            | Some (z, rest') => Some (JNum z, rest')
            | None => None
            end
      end
  end

with parse_items (fuel : nat) (s : string) (acc : list json)
  : option (json * string) :=
  match fuel with
  | 0 => None
  | S fuel' =>
      match parse_value fuel' s with
      | Some (v, rest) =>
          match skip_ws rest with
          | String c rest' =>
              if Ascii.eqb c ","%char then parse_items fuel' rest' (acc ++ [v])
              else if Ascii.eqb c "]"%char then Some (JArr (acc ++ [v]), rest')
              else None
          | EmptyString => None
          end
      | None => None
      end
  end

with parse_members (fuel : nat) (s : string) (acc : list (string * json))
  : option (json * string) :=
  match fuel with
  | 0 => None
  | S fuel' =>
      match expect dq (skip_ws s) with
      | Some s1 =>
          match parse_chars s1 with
          | Some (k, s2) =>
              match expect ":"%char (skip_ws s2) with
              | Some s3 =>
                  match parse_value fuel' s3 with
                  | Some (v, rest) =>
                      match skip_ws rest with
                      | String c rest' =>
                          if Ascii.eqb c ","%char
                          then parse_members fuel' rest' (set_member k v acc)
                          else if Ascii.eqb c "}"%char
                          then Some (JObj (set_member k v acc), rest')
                          else None
                      | EmptyString => None
                      end
                  | None => None
                  end
              | None => None
              end
          | None => None
          end
      | None => None
      end
  end.

(** [JSON.parse]: one value, surrounded by white space only. *)
Definition parse (s : string) : option json :=
  match parse_value (S (String.length s)) s with
  | Some (v, rest) =>
      match skip_ws rest with
      | EmptyString => Some v
      | String _ _ => None
      end
  | None => None
  end.

End Json.

(** ** The script [build-vercel.js] *)

Module Packager.
Import Fs Node Js.

Definition outputDir : path := [".vercel"; "output"].
Definition staticDir : path := join outputDir ["static"].

(** [copyRecursive(src, dest)] (lines 74-88).  The recursion follows the
    tree found at [src]; [fuel] bounds its depth. *)
Fixpoint copyRecursive (fuel : nat) (src dest : path) : M unit :=
  match fuel with
  | 0 => fun _ => OutOfFuel
  | S fuel' =>
      present <- existsSync src ;;
      if negb present then ret tt
      else
        stats <- statSync src ;;
        if isDirectory stats then
          there <- existsSync dest ;;
          when (negb there) (mkdirSync dest) ;;
          items <- readdirSync src ;;
          forEach items (fun item =>
            copyRecursive fuel' (join src [item]) (join dest [item]))
        else copyFileSync src dest
  end.

(** Lines 10-17: remove the old output, create the directories. *)
Definition reset : M unit :=
  old <- existsSync outputDir ;;
  when old (rmSync outputDir) ;;
  mkdirSync staticDir ;;
  mkdirSync (join outputDir ["config"]).

(** Lines 19-21: copy [dist] to [static]. *)
Definition mirror (fuel : nat) : M unit :=
  copyRecursive fuel ["dist"] staticDir.

Definition jsDir : path := join ["dist"] ["_expo"; "static"; "js"; "web"].

Definition isAppEntry (f : string) : bool :=
  startsWith f "AppEntry" && endsWith f ".js".

(** Lines 23-34: find the AppEntry file and copy it to [bundle.js]. *)
Definition promote : M unit :=
  found <- existsSync jsDir ;;
  when found (
    files <- readdirSync jsDir ;;
    let jsFile := find isAppEntry files in
    when (truthy jsFile) (
      match jsFile with
      | Some f => copyFileSync (join jsDir [f]) (join staticDir ["bundle.js"])
      | None => ret tt
      end)).

(** The literal [/src="[^"]*AppEntry[^"]*\.js"/] of line 41. *)
Definition appEntrySrc : Regex.regex :=
  Regex.lit "src=" ++ [Regex.One (Regex.Chr dq); Regex.Star (Regex.NotChr dq)] ++
  Regex.lit "AppEntry" ++ [Regex.Star (Regex.NotChr dq)] ++
  Regex.lit ".js" ++ [Regex.One (Regex.Chr dq)].

(** The replacement text [src="/bundle.js"]. *)
Definition bundleSrc : string := ("src=" ++ quoted "/bundle.js")%string.

Definition rewriteHtml (html : string) : string :=
  Regex.replace appEntrySrc bundleSrc html.

Definition indexPath : path := join staticDir ["index.html"].

(** Lines 36-44: point [index.html] at [/bundle.js]. *)
Definition rewrite : M unit :=
  present <- existsSync indexPath ;;
  when present (
    html <- readFileSync indexPath ;;
    writeFileSync indexPath (rewriteHtml html)).

Import Json.

Definition cacheRoute (src : string) : json :=
  JObj [("src", JStr src);
        ("headers", JObj [("Cache-Control", JStr "public, max-age=31536000, immutable")]);
        ("continue", JBool true)].

(** The object literal of lines 47-68. *)
Definition config : json :=
  JObj [("version", JNum 3);
        ("routes", JArr [
           cacheRoute "^/static/(.*)$";
           cacheRoute "^/assets/(.*)$";
           JObj [("handle", JStr "filesystem")];
           JObj [("src", JStr "/(.*)"); ("dest", JStr "/index.html")]])].

(** Line 70. *)
Definition emit : M unit :=
  writeFileSync (join outputDir ["config.json"]) (stringify config 2).

(** The whole script, top to bottom. *)
Definition build (fuel : nat) : M unit :=
  reset ;;
  mirror fuel ;;
  promote ;;
  rewrite ;;
  emit.

End Packager.

(** ** The rewrite of [index.html], as the specification words it *)

Module HtmlSpec.
Import Js.

Definition no_quote (s : string) : bool :=
  Regex.all_chars (fun c => negb (Ascii.eqb c dq)) s.

(** [m] is an attribute [src="...AppEntry...js"]: inside the quotes, any
    characters, the literal [AppEntry], any characters, and [.js] last. *)
Definition is_app_src (m : string) : Prop :=
  exists x y,
    no_quote x = true /\ no_quote y = true /\
    m = ("src=" ++ quoted (x ++ "AppEntry" ++ y ++ ".js"))%string.

Definition occurs_at (html pre m post : string) : Prop :=
  html = (pre ++ m ++ post)%string /\ is_app_src m.

(** No occurrence starts to the left of this one. *)
Definition first_occurrence (html pre m post : string) : Prop :=
  occurs_at html pre m post /\
  forall pre' m' post',
    occurs_at html pre' m' post' -> String.length pre <= String.length pre'.

Definition no_occurrence (html : string) : Prop :=
  forall pre m post, ~ occurs_at html pre m post.

End HtmlSpec.

(** ** The bundle to promote and the manifest, as the specification
    words them *)

Module BundleSpec.

(** A name that starts with the literal prefix [AppEntry] and ends with
    the extension [.js]. *)
Definition app_entry_name (f : string) : Prop :=
  (exists rest, f = ("AppEntry" ++ rest)%string) /\
  (exists stem, f = (stem ++ ".js")%string).

(** [f] is the first such name of the listing [l]. *)
Definition first_app_entry (l : list string) (f : string) : Prop :=
  exists before after,
    l = before ++ f :: after /\ app_entry_name f /\
    forall g, In g before -> ~ app_entry_name g.

End BundleSpec.

Module ManifestSpec.
Import Js Json.

Definition cacheControl : string := "public, max-age=31536000, immutable".

(** The document of section 6. *)
Definition manifest : json :=
  JObj [("version", JNum 3);
        ("routes", JArr [
           JObj [("src", JStr "^/static/(.*)$");
                 ("headers", JObj [("Cache-Control", JStr cacheControl)]);
                 ("continue", JBool true)];
           JObj [("src", JStr "^/assets/(.*)$");
                 ("headers", JObj [("Cache-Control", JStr cacheControl)]);
                 ("continue", JBool true)];
           JObj [("handle", JStr "filesystem")];
           JObj [("src", JStr "/(.*)"); ("dest", JStr "/index.html")]])].

Definition member (indent : nat) (k v : string) : string :=
  (spaces indent ++ quoted k ++ ": " ++ v)%string.

(** The same document laid out with two spaces per level. *)
Definition manifest_lines : list string :=
  ["{";
   member 2 "version" "3,";
   member 2 "routes" "[";
   "    {";
   member 6 "src" (quoted "^/static/(.*)$" ++ ",");
   member 6 "headers" "{";
   member 8 "Cache-Control" (quoted cacheControl);
   "      },";
   member 6 "continue" "true";
   "    },";
   "    {";
   member 6 "src" (quoted "^/assets/(.*)$" ++ ",");
   member 6 "headers" "{";
   member 8 "Cache-Control" (quoted cacheControl);
   "      },";
   member 6 "continue" "true";
   "    },";
   "    {";
   member 6 "handle" (quoted "filesystem");
   "    },";
   "    {";
   member 6 "src" (quoted "/(.*)" ++ ",");
   member 6 "dest" (quoted "/index.html");
   "    }";
   "  ]";
   "}"]%string.

Definition manifest_text : string := String.concat newline manifest_lines.

End ManifestSpec.

(** ** The run in closed form

    What the script leaves behind is determined by the tree under [dist]:
    the functions below compute the content of [static] step by step, and
    remember the last content reached when a step raises. *)

Module Plan.
Import Fs Node Js Packager.

(** [o] installed as [.vercel/output], the last entry of [.vercel]. *)
Definition install (o : node) (cwd : node) : node :=
  match cwd with
  | Dir top =>
      let v := match assoc ".vercel" top with Some (Dir v) => v | _ => [] end in
      Dir (set_entry ".vercel" (Dir (del_entry "output" v ++ [("output", o)])) top)
  | File _ => cwd
  end.

(** The working directory is a directory and [.vercel], when it exists,
    is one too. *)
Definition vercel_ok (cwd : node) : bool :=
  match cwd with
  | Dir top =>
      match assoc ".vercel" top with
      | Some (File _) => false
      | _ => true
      end
  | File _ => false
  end.

Definition wf_src (cwd : node) : bool :=
  match walk ["dist"] cwd with
  | Some n => wf n
  | None => true
  end.

Definition src_height (cwd : node) : nat :=
  match walk ["dist"] cwd with
  | Some n => height n
  | None => 0
  end.

Inductive planned : Type :=
| Done (st : dirents)
| Crashed (st : dirents).

Definition andThen (r : planned) (k : dirents -> planned) : planned :=
  match r with
  | Done st => k st
  | Crashed st => Crashed st
  end.

Definition mirrored (cwd : node) : planned :=
  match walk ["dist"] cwd with
  | None => Done []
  | Some (Dir d) => Done d
  | Some (File _) => Crashed []
  end.

Definition promoted (cwd : node) (st : dirents) : planned :=
  match walk jsDir cwd with
  | None => Done st
  | Some (File _) => Crashed st
  | Some (Dir es) =>
      match find isAppEntry (names es) with
      | None => Done st
      | Some f =>
          match assoc f es, assoc "bundle.js" st with
          | Some (File _), Some (Dir _) => Crashed st
          | Some (File data), _ => Done (set_entry "bundle.js" (File data) st)
          | Some (Dir _), Some (File _) => Crashed (del_entry "bundle.js" st)
          | _, _ => Crashed st
          end
      end
  end.

Definition rewritten (st : dirents) : planned :=
  match assoc "index.html" st with
  | None => Done st
  | Some (File html) =>
      Done (set_entry "index.html" (File (rewriteHtml (Utf8.text html))) st)
  | Some (Dir _) => Crashed st
  end.

Definition plan (cwd : node) : planned :=
  andThen (andThen (mirrored cwd) (promoted cwd)) rewritten.

(** The output tree before the manifest is written, and after. *)
Definition skeleton (st : dirents) : node :=
  Dir [("static", Dir st); ("config", Dir [])].

Definition packaged (st : dirents) : node :=
  Dir [("static", Dir st); ("config", Dir []);
       ("config.json", File (Json.stringify config 2))].

Definition is_file (o : option node) : bool :=
  match o with Some (File _) => true | _ => false end.

Definition is_dir (o : option node) : bool :=
  match o with Some (Dir _) => true | _ => false end.

(** The name [find] returns on the listing of the nested directory. *)
Definition selected (cwd : node) : option string :=
  match walk jsDir cwd with
  | Some (Dir es) => find isAppEntry (names es)
  | _ => None
  end.

(** The inputs on which no call of the script raises: [.vercel] is not a
    regular file, [dist] and the nested directory are not regular files,
    the selected entry is a regular file and is not copied onto a
    directory, and [index.html] is not a directory. *)
Definition ready (cwd : node) : bool :=
  vercel_ok cwd &&
  negb (is_file (walk ["dist"] cwd)) &&
  negb (is_file (walk jsDir cwd)) &&
  match selected cwd with
  | Some f =>
      is_file (walk (join jsDir [f]) cwd) &&
      negb (is_dir (walk ["dist"; "bundle.js"] cwd))
  | None => true
  end &&
  negb (is_dir (walk ["dist"; "index.html"] cwd)).

(** The paths that do not lie under [.vercel/output]: those that start
    with another name, and those that continue from [.vercel] with a
    name other than [output]. *)
Definition outside (x : string) (p : path) : Prop :=
  x <> ".vercel" \/ exists y q, p = y :: q /\ y <> "output".

Definition same_outside (s s' : node) : Prop :=
  forall x p, outside x p -> walk (x :: p) s' = walk (x :: p) s.

(** A computation that, however it ends, has touched nothing outside. *)
Definition keeps {A} (m : M A) : Prop :=
  forall s,
    match m s with
    | Ok _ s' | Throw s' => same_outside s s'
    | OutOfFuel => True
    end.

(** A computation that, however it ends, has changed no path apart
    from [dest]: all it writes is [dest], what lies under it, and the
    directories that lead to it. *)
Definition writes_under {A} (dest : path) (m : M A) : Prop :=
  forall s,
    match m s with
    | Ok _ s' | Throw s' => forall q, apart q dest = true -> walk q s' = walk q s
    | OutOfFuel => True
    end.

Definition expected (fuel : nat) (cwd : node) : outcome unit :=
  if vercel_ok cwd then
    if src_height cwd <? fuel then
      match plan cwd with
      | Done st => Ok tt (install (packaged st) cwd)
      | Crashed st => Throw (install (skeleton st) cwd)
      end
    else OutOfFuel
  else Throw cwd.

End Plan.

(** ** Sample working directories *)

Module Samples.
Import Fs Js.

Definition scriptTag : string :=
  ("<script src=" ++ quoted "/_expo/static/js/web/AppEntry-abc123.js" ++ ">")%string.

Definition bundleTag : string :=
  ("<script src=" ++ quoted "/bundle.js" ++ ">")%string.

Definition web (es : dirents) : node :=
  Dir [("static", Dir [("js", Dir [("web", Dir es)])])].

(** A build with an entry page, a root-level [bundle.js] of its own and
    the bundle at the nested path, next to the output of an earlier run. *)
Definition project : node :=
  Dir [("dist",
        Dir [("index.html", File scriptTag);
             ("bundle.js", File "old");
             ("assets", Dir [("logo.svg", File "<svg/>")]);
             ("_expo", web [("notes.txt", File "n");
                            ("AppEntry-abc123.js", File "console.log(1)")])]);
       (".vercel",
        Dir [("output", Dir [("static", Dir [("stale.js", File "stale")]);
                             ("old.json", File "{}")]);
             ("project.json", File "{}")])].

(** A build without the nested directory. *)
Definition plain : node :=
  Dir [("dist", Dir [("index.html", File "<html></html>");
                     ("bundle.js", File "own")])].

(** No build at all. *)
Definition empty : node := Dir [("README.md", File "hello")].

End Samples.

(** ** Two properties as first worded, before correction *)

Module Stated.
Import Fs Node Js Packager BundleSpec.

(** Every file of [dist] is found with the same bytes at the same path
    under [static] once the run is over. *)
Definition mirrored_after_run (fuel : nat) (cwd : node) : Prop :=
  forall s' P data,
    build fuel cwd = Ok tt s' ->
    walk ("dist" :: P) cwd = Some (File data) ->
    walk (join staticDir P) s' = Some (File data).

(** No name of the nested directory qualifies, or there is no such
    directory. *)
Definition nothing_to_promote (cwd : node) : Prop :=
  walk jsDir cwd = None \/
  exists es, walk jsDir cwd = Some (Dir es) /\
             forall g, In g (names es) -> ~ app_entry_name g.

(** When nothing is promoted the run completes and leaves no
    [bundle.js] at the root of [static]. *)
Definition no_bundle_after_skip (fuel : nat) (cwd : node) : Prop :=
  nothing_to_promote cwd ->
  exists s',
    build fuel cwd = Ok tt s' /\
    walk (join staticDir ["bundle.js"]) s' = None.

End Stated.

(** ** Working directories on which a call raises, and a few more *)

Module MoreSamples.
Import Fs Js Samples.

(** [index.html] is a directory; an earlier run left a manifest. *)
Definition broken : node :=
  Dir [("dist", Dir [("index.html", Dir []); ("app.css", File "body{}")]);
       (".vercel", Dir [("output", Dir [("config.json", File "{}")])])].

(** [.vercel] is a regular file. *)
Definition blocked : node :=
  Dir [(".vercel", File "link"); ("dist", Dir [("index.html", File "<html/>")])].

(** [dist] is a regular file. *)
Definition flat : node := Dir [("dist", File "not a directory")].

(** An entry page that names the bundle, and no bundle. *)
Definition unbundled : node :=
  Dir [("dist", Dir [("index.html", File scriptTag)])].

(** The build of [project] in a directory that holds nothing else. *)
Definition fresh : node :=
  match project with
  | Dir (d :: _) => Dir [d]
  | _ => project
  end.

(** A tree next to the place it is copied to. *)
Definition shelf : node :=
  Dir [("work",
        Dir [("in", Dir [("a.txt", File "a");
                         ("sub", Dir [("b.txt", File "b"); ("empty", Dir [])])]);
             ("keep.txt", File "k")])].

(** A destination that already holds files of its own. *)
Definition crowded : node :=
  Dir [("in", Dir [("a.txt", File "new"); ("sub", Dir [("b.txt", File "b")])]);
       ("out", Dir [("a.txt", File "old"); ("mine.txt", File "m");
                    ("sub", Dir [("c.txt", File "c")])])].

End MoreSamples.

(** ** The mood tracker of the tutorial ([App.tsx], in [toolkit.md])

    The component keeps three pieces of state.  A handler is a function
    from the state it was rendered with to the state its [set...] calls
    ask for, together with the alerts it raises.  The clock is an input:
    [Date.now()] as an integer and the text that [format(new Date(), ...)]
    returns.  Rendering is not modelled. *)

Module App.

Module MoodEntry.
Record t : Type :=
  { id : string; mood : string; emoji : string;
    note : string; date : string; color : string }.
End MoodEntry.

Module MoodOption.
Record t : Type := { label : string; emoji : string; color : string }.
End MoodOption.

Record state : Type :=
  { selectedMood : string; note : string; moodLog : list MoodEntry.t }.

(** A button of an alert; [onPress] is the state change it asks for. *)
Record button : Type :=
  { text : string; style : string; onPress : option (state -> state) }.

(** [Alert.alert(title, message, buttons)]; no list when the third
    argument is left out. *)
Record alert : Type :=
  { title : string; message : string; buttons : list button }.

(** The initial state of the three [useState] calls. *)
Definition initial (today : string) : state :=
  {| selectedMood := "";
     note := "";
     moodLog :=
       [ {| MoodEntry.id := "1";
            MoodEntry.mood := "Excellent";
            MoodEntry.emoji := "🤩";
            MoodEntry.note := "Had a great day at the park!";
            MoodEntry.date := today;
            MoodEntry.color := "#8B5CF6" |} ] |}.

Definition moodOptions : list MoodOption.t :=
  [ {| MoodOption.label := "Terrible"; MoodOption.emoji := "😢"; MoodOption.color := "#EF4444" |};
    {| MoodOption.label := "Meh"; MoodOption.emoji := "😐"; MoodOption.color := "#F59E0B" |};
    {| MoodOption.label := "Okay"; MoodOption.emoji := "🙂"; MoodOption.color := "#10B981" |};
    {| MoodOption.label := "Good"; MoodOption.emoji := "😊"; MoodOption.color := "#3B82F6" |};
    {| MoodOption.label := "Excellent"; MoodOption.emoji := "🤩"; MoodOption.color := "#8B5CF6" |} ].

Definition setSelectedMood (label : string) (st : state) : state :=
  {| selectedMood := label; note := note st; moodLog := moodLog st |}.

Definition setNote (text : string) (st : state) : state :=
  {| selectedMood := selectedMood st; note := text; moodLog := moodLog st |}.

Definition setMoodLog (log : list MoodEntry.t) (st : state) : state :=
  {| selectedMood := selectedMood st; note := note st; moodLog := log |}.

(** [Date.now().toString()]. *)
Definition toString (now : Z) : string := NilZero.string_of_int (Z.to_int now).

(** [logMood] (lines 207-238): the state asked for and the alerts. *)
Definition logMood (now : Z) (today : string) (st : state) : state * list alert :=
  if String.eqb (selectedMood st) "" then
    (st, [ {| title := "No Mood Selected";
              message := "Please select a mood first!";
              buttons := [] |} ])
  else
    match Js.find (fun option => String.eqb (MoodOption.label option) (selectedMood st))
                  moodOptions with
    | Some selectedOption =>
        let newEntry :=
          {| MoodEntry.id := toString now;
             MoodEntry.mood := selectedMood st;
             MoodEntry.emoji := MoodOption.emoji selectedOption;
             MoodEntry.note := note st;
             MoodEntry.date := today;
             MoodEntry.color := MoodOption.color selectedOption |} in
        (setNote "" (setSelectedMood "" (setMoodLog (newEntry :: moodLog st) st)),
         [ {| title := "Mood Logged!";
              message := ("You logged: " ++ MoodOption.emoji selectedOption ++ " "
                          ++ selectedMood st)%string;
              buttons := [] |} ])
    | None => (st, [])
    end.

(** [clearLog] (lines 241-254): the alert it raises. *)
Definition clearLog : alert :=
  {| title := "Clear All Logs";
     message := "Are you sure you want to delete all mood logs?";
     buttons :=
       [ {| text := "Cancel"; style := "cancel"; onPress := None |};
         {| text := "Clear"; style := "destructive"; onPress := Some (setMoodLog []) |} ] |}.

Record Stats : Type := { total : nat; positive : nat }.

(** [moodStats] (lines 257-266), the [reduce] over the log. *)
Definition moodStats (log : list MoodEntry.t) : Stats :=
  fold_left
    (fun stats entry =>
       let stats := {| total := S (total stats); positive := positive stats |} in
       if String.eqb (MoodEntry.mood entry) "Excellent"
          || String.eqb (MoodEntry.mood entry) "Good"
       then {| total := total stats; positive := S (positive stats) |}
       else stats)
    log {| total := 0; positive := 0 |}.

(** The states the handlers can lead to from the initial one. *)
Inductive reachable (today0 : string) : state -> Prop :=
| reach_initial : reachable today0 (initial today0)
| reach_select st label :
    reachable today0 st -> reachable today0 (setSelectedMood label st)
| reach_note st text :
    reachable today0 st -> reachable today0 (setNote text st)
| reach_log st now today :
    reachable today0 st -> reachable today0 (fst (logMood now today st))
| reach_press st b f :
    reachable today0 st -> In b (buttons clearLog) -> onPress b = Some f ->
    reachable today0 (f st).

Definition labels : list string := map MoodOption.label moodOptions.

Definition isPositive (entry : MoodEntry.t) : bool :=
  String.eqb (MoodEntry.mood entry) "Excellent" || String.eqb (MoodEntry.mood entry) "Good".

(** An entry that carries the emoji and the colour the table gives for
    its mood. *)
Definition fromTable (entry : MoodEntry.t) : Prop :=
  exists option,
    In option moodOptions /\
    MoodEntry.mood entry = MoodOption.label option /\
    MoodEntry.emoji entry = MoodOption.emoji option /\
    MoodEntry.color entry = MoodOption.color option.

End App.

(** ** Names as Node hands them to the script

    [fs.readdirSync] reports the names of a directory as strings: the
    bytes of each name are decoded as UTF-8, and the names come in
    ascending byte order.  A name that is not well-formed UTF-8 is
    changed by the decoding and no longer leads to its entry.  The tree
    model hands names through as they are stored and in stored order, so
    it describes what the script lists on the trees defined here. *)

Module Listing.
Import Fs.

(** Neither the NUL byte nor the slash. *)
Definition name_byte (c : ascii) : bool :=
  negb (Utf8.code c =? 0) && negb (Utf8.code c =? 47).

(** The name of a directory entry that reaches the script as it is
    stored. *)
Definition name_ok (x : string) : bool :=
  Utf8.well_formed x && Regex.all_chars name_byte x &&
  negb (String.eqb x "") && negb (String.eqb x ".") && negb (String.eqb x "..").

(** Ascending byte order, each name once. *)
Fixpoint ascending (l : list string) : bool :=
  match l with
  | x :: ((y :: _) as l') => String.ltb x y && ascending l'
  | _ => true
  end.

(** A tree that [fs.readdirSync] reports, directory by directory, just as
    it is stored. *)
Fixpoint listed (n : node) : bool :=
  match n with
  | File _ => true
  | Dir es =>
      forallb name_ok (map fst es) && ascending (map fst es) &&
      forallb (fun e => listed (snd e)) es
  end.

(** The tree at [dist], when there is one, is such a tree. *)
Definition listed_src (cwd : node) : bool :=
  match walk ["dist"] cwd with
  | Some n => listed n
  | None => true
  end.

End Listing.

(** ** Sample working directories, listed in ascending order *)

Module Sites.
Import Fs Js Samples.

(** The build of [Samples.project], as [fs.readdirSync] lists it. *)
Definition site : node :=
  Dir [("dist",
        Dir [("_expo", web [("AppEntry-abc123.js", File "console.log(1)");
                            ("notes.txt", File "n")]);
             ("assets", Dir [("logo.svg", File "<svg/>")]);
             ("bundle.js", File "old");
             ("index.html", File scriptTag)]);
       (".vercel",
        Dir [("output", Dir [("static", Dir [("stale.js", File "stale")]);
                             ("old.json", File "{}")]);
             ("project.json", File "{}")])].

(** A tag with an attribute [data-src] that names a script of its own. *)
Definition linkTag : string :=
  ("<link data-src=" ++ quoted "/AppEntry.js" ++ ">")%string.

(** An entry page in which that tag comes before the script tag. *)
Definition decoy : node :=
  Dir [("dist", Dir [("index.html", File (linkTag ++ scriptTag)%string)])].

(** The first qualifying name of the nested directory is a directory, a
    qualifying regular file comes after it, and [dist] has a root-level
    [bundle.js]. *)
Definition nested : node :=
  Dir [("dist",
        Dir [("_expo", web [("AppEntry-abc.js", Dir []);
                            ("AppEntry-maps.js", File "console.log(1)")]);
             ("bundle.js", File "old")])].

End Sites.

(** ** The example of the entry page, as first worded *)

Module StatedHtml.
Import Fs Node Js Packager Samples.

Definition contains (s t : string) : Prop :=
  exists pre post, s = (pre ++ t ++ post)%string.

(** [t] starts at some position of [s]. *)
Fixpoint occurs (t s : string) : bool :=
  String.prefix t s ||
  match s with
  | String _ s' => occurs t s'
  | EmptyString => false
  end.

(** An entry page that contains the script tag of the example comes out
    of the run containing the tag that refers to [/bundle.js]. *)
Definition tag_rewritten (fuel : nat) (cwd : node) : Prop :=
  forall s' html,
    build fuel cwd = Ok tt s' ->
    walk ["dist"; "index.html"] cwd = Some (File html) ->
    contains html scriptTag ->
    exists out,
      walk indexPath s' = Some (File out) /\ contains out bundleTag.

End StatedHtml.

(** ** Facts about file-system trees *)

Module FsFacts.
Import Fs.

Ltac eqb_cases k k' :=
  let E := fresh "E" in
  destruct (String.eqb_spec k k') as [E | E]; [try subst | idtac].

Lemma assoc_set_entry_same k n es : assoc k (set_entry k n es) = Some n.
Proof.
  induction es as [| [k' m] es IH]; simpl.
  - now rewrite String.eqb_refl.
  - eqb_cases k k'; simpl.
    + now rewrite String.eqb_refl.
    + apply String.eqb_neq in E. now rewrite E.
Qed.

Lemma assoc_set_entry_other k k' n es :
  k' <> k -> assoc k' (set_entry k n es) = assoc k' es.
Proof.
  intros Hne. induction es as [| [k0 m] es IH]; simpl.
  - apply String.eqb_neq in Hne. now rewrite Hne.
  - eqb_cases k k0; simpl.
    + apply String.eqb_neq in Hne. now rewrite Hne.
    + now rewrite IH.
Qed.

Lemma set_entry_absent k n es :
  assoc k es = None -> set_entry k n es = es ++ [(k, n)].
Proof.
  induction es as [| [k' m] es IH]; simpl; intros H; [reflexivity |].
  eqb_cases k k'; [discriminate |]. now rewrite IH.
Qed.

Lemma set_entry_twice k n m es :
  set_entry k n (set_entry k m es) = set_entry k n es.
Proof.
  induction es as [| [k' c] es IH]; simpl.
  - now rewrite String.eqb_refl.
  - eqb_cases k k'; simpl.
    + now rewrite String.eqb_refl.
    + apply String.eqb_neq in E. now rewrite E, IH.
Qed.

Lemma set_entry_last k n m es :
  assoc k es = None -> set_entry k n (es ++ [(k, m)]) = es ++ [(k, n)].
Proof.
  induction es as [| [k' c] es IH]; simpl; intros H.
  - now rewrite String.eqb_refl.
  - eqb_cases k k'; [discriminate |]. now rewrite IH.
Qed.

Lemma assoc_last k n es : assoc k es = None -> assoc k (es ++ [(k, n)]) = Some n.
Proof.
  induction es as [| [k' c] es IH]; simpl; intros H.
  - now rewrite String.eqb_refl.
  - eqb_cases k k'; [discriminate |]. now apply IH.
Qed.

Lemma assoc_app_other k k' n es :
  k' <> k -> assoc k' (es ++ [(k, n)]) = assoc k' es.
Proof.
  intros Hne. induction es as [| [k0 c] es IH]; simpl.
  - apply String.eqb_neq in Hne. now rewrite Hne.
  - now rewrite IH.
Qed.

Lemma assoc_del_entry_same k es : assoc k (del_entry k es) = None.
Proof.
  induction es as [| [k' c] es IH]; simpl; [reflexivity |].
  eqb_cases k k'; [assumption |]. simpl.
  apply String.eqb_neq in E. now rewrite E.
Qed.

Lemma assoc_del_entry_other k k' es :
  k' <> k -> assoc k' (del_entry k es) = assoc k' es.
Proof.
  intros Hne. induction es as [| [k0 c] es IH]; simpl; [reflexivity |].
  eqb_cases k k0; simpl.
  - apply String.eqb_neq in Hne. now rewrite Hne.
  - now rewrite IH.
Qed.

Lemma del_entry_absent k es : assoc k es = None -> del_entry k es = es.
Proof.
  induction es as [| [k' c] es IH]; simpl; intros H; [reflexivity |].
  eqb_cases k k'; [discriminate |]. now rewrite IH.
Qed.

Lemma del_entry_last k n es :
  assoc k es = None -> del_entry k (es ++ [(k, n)]) = es.
Proof.
  induction es as [| [k' c] es IH]; simpl; intros H.
  - now rewrite String.eqb_refl.
  - eqb_cases k k'; [discriminate |]. now rewrite IH.
Qed.

Lemma assoc_none_names k es : assoc k es = None <-> ~ In k (names es).
Proof.
  induction es as [| [k' c] es IH]; simpl.
  - tauto.
  - eqb_cases k k'.
    + split; [discriminate | intros H; exfalso; apply H; now left].
    + rewrite IH. split; [intros H [A | A]; [congruence | contradiction] | tauto].
Qed.

Lemma assoc_some_in k es n : assoc k es = Some n -> In (k, n) es.
Proof.
  induction es as [| [k' c] es IH]; simpl; [discriminate |].
  eqb_cases k k'; intros H.
  - injection H as ->. now left.
  - right. now apply IH.
Qed.

Lemma walk_app p q n :
  walk (p ++ q) n = match walk p n with Some m => walk q m | None => None end.
Proof.
  revert n. induction p as [| x p IH]; intros n; simpl; [reflexivity |].
  destruct n as [d | es]; [reflexivity |].
  destruct (assoc x es); [apply IH | reflexivity].
Qed.

Lemma update_app p q new n m :
  walk p n = Some m -> update (p ++ q) new n = update p (update q new m) n.
Proof.
  revert n. induction p as [| x p IH]; intros n; simpl.
  - now intros [= ->].
  - destruct n as [d | es]; [discriminate |].
    destruct (assoc x es) as [c |]; [| discriminate].
    intros H. now rewrite (IH c H).
Qed.

Lemma walk_update_same p new n m :
  walk p n = Some m -> walk p (update p new n) = Some new.
Proof.
  revert n. induction p as [| x p IH]; intros n; simpl; [reflexivity |].
  destruct n as [d | es]; [discriminate |].
  destruct (assoc x es) as [c |] eqn:A; [| discriminate].
  intros H. simpl. rewrite assoc_set_entry_same. eauto.
Qed.

Lemma walk_update_head x y p q new es :
  x <> y -> walk (x :: p) (update (y :: q) new (Dir es)) = walk (x :: p) (Dir es).
Proof.
  intros Hne. simpl.
  destruct (assoc y es) as [c |] eqn:A.
  - simpl. now rewrite assoc_set_entry_other.
  - destruct q; simpl; [now rewrite assoc_set_entry_other | reflexivity].
Qed.

Lemma height_child x es c : assoc x es = Some c -> height c < height (Dir es).
Proof.
  induction es as [| [k' m] es IH]; cbn [assoc height fold_right snd];
    [discriminate |].
  eqb_cases x k'; intros H.
  - injection H as ->. lia.
  - specialize (IH H). cbn [height] in IH. lia.
Qed.

Lemma nodupb_NoDup l : nodupb l = true -> NoDup l.
Proof.
  induction l as [| x l IH]; simpl; intros H; [constructor |].
  apply andb_prop in H as [H1 H2]. constructor; [| now apply IH].
  intros Hin. apply negb_true_iff in H1.
  assert (existsb (String.eqb x) l = true); [| congruence].
  apply existsb_exists. exists x. split; [assumption | apply String.eqb_refl].
Qed.

Lemma wf_child x es c : wf (Dir es) = true -> assoc x es = Some c -> wf c = true.
Proof.
  simpl. intros H A. apply andb_prop in H as [_ H].
  rewrite forallb_forall in H. apply (H (x, c)). now apply assoc_some_in.
Qed.

Lemma wf_walk p n m : wf n = true -> walk p n = Some m -> wf m = true.
Proof.
  revert n. induction p as [| x p IH]; intros n W; simpl.
  - now intros [= <-].
  - destruct n as [d | es]; [discriminate |].
    destruct (assoc x es) as [c |] eqn:A; [| discriminate].
    apply IH. eapply wf_child; eauto.
Qed.

End FsFacts.

(** ** The recursive copy *)

Module CopyFacts.
Import Fs Node Js Packager FsFacts.

Lemma walk_update_frame a b p q new s :
  a <> b -> walk (a :: p) (update (b :: q) new s) = walk (a :: p) s.
Proof.
  intros Hne. destruct s as [d | es]; [reflexivity |].
  now apply walk_update_head.
Qed.

Lemma update_twice p a b s : update p a (update p b s) = update p a s.
Proof.
  revert s. induction p as [| x p IH]; intros s; simpl; [reflexivity |].
  destruct s as [d | es]; [reflexivity |].
  destruct (assoc x es) as [c |] eqn:A; simpl.
  - now rewrite assoc_set_entry_same, set_entry_twice, IH.
  - destruct p as [| y p]; simpl.
    + now rewrite assoc_set_entry_same, set_entry_twice.
    + now rewrite A.
Qed.

Lemma set_entry_same k n es : assoc k es = Some n -> set_entry k n es = es.
Proof.
  induction es as [| [k' c] es IH]; simpl; [discriminate |].
  eqb_cases k k'; intros H.
  - now injection H as ->.
  - now rewrite IH.
Qed.

Lemma update_same p s m : walk p s = Some m -> update p m s = s.
Proof.
  revert s. induction p as [| x p IH]; intros s; simpl.
  - now intros [= ->].
  - destruct s as [d | es]; [discriminate |].
    destruct (assoc x es) as [c |] eqn:A; [| discriminate].
    intros H. rewrite (IH c H). now rewrite set_entry_same.
Qed.

Lemma mkdirp_fresh p s pes :
  p <> [] -> walk (removelast p) s = Some (Dir pes) -> walk p s = None ->
  mkdirp p s = Some (update p (Dir []) s).
Proof.
  revert s. induction p as [| x p IH]; intros s Hp Hpar Hnone; [congruence |].
  destruct p as [| y p].
  - simpl in Hpar. injection Hpar as ->. simpl in *.
    destruct (assoc x pes); [discriminate | reflexivity].
  - change (removelast (x :: y :: p)) with (x :: removelast (y :: p)) in Hpar.
    remember (y :: p) as p' eqn:Ep'.
    cbn [walk] in Hpar, Hnone. destruct s as [d | es]; [discriminate |].
    cbn [mkdirp update].
    destruct (assoc x es) as [c |] eqn:A; [| discriminate].
    rewrite (IH c); [reflexivity | subst p'; discriminate | assumption | assumption].
Qed.

Lemma walk_update_new p n s pes :
  p <> [] -> walk (removelast p) s = Some (Dir pes) ->
  walk p (update p n s) = Some n.
Proof.
  revert s. induction p as [| x p IH]; intros s Hp Hpar; [congruence |].
  destruct p as [| y p].
  - simpl in Hpar. injection Hpar as ->. simpl.
    destruct (assoc x pes); simpl; now rewrite assoc_set_entry_same.
  - change (removelast (x :: y :: p)) with (x :: removelast (y :: p)) in Hpar.
    remember (y :: p) as p' eqn:Ep'.
    cbn [walk] in Hpar. destruct s as [d | es]; [discriminate |].
    cbn [update].
    destruct (assoc x es) as [c |] eqn:A; [| discriminate].
    cbn [walk]. rewrite assoc_set_entry_same.
    apply IH; [subst p'; discriminate | assumption].
Qed.

Lemma update_single x new es : update [x] new (Dir es) = Dir (set_entry x new es).
Proof. simpl. now destruct (assoc x es). Qed.

Lemma assoc_middle x c es1 es2 :
  ~ In x (names es1) -> assoc x (es1 ++ (x, c) :: es2) = Some c.
Proof.
  induction es1 as [| [k m] es1 IH]; simpl; intros H.
  - now rewrite String.eqb_refl.
  - eqb_cases x k; [exfalso; apply H; now left |].
    apply IH. tauto.
Qed.

Lemma height_dir_ltb es f :
  (height (Dir es) <? S f) = forallb (fun e => height (snd e) <? f) es.
Proof.
  cbn [height]. induction es as [| e es IH]; cbn [fold_right forallb].
  - reflexivity.
  - rewrite <- IH. clear IH.
    set (m := fold_right _ _ _).
    destruct (Nat.ltb_spec (height (snd e)) f), (Nat.ltb_spec m (S f)),
      (Nat.ltb_spec (Nat.max (S (height (snd e))) m) (S f)); simpl; try reflexivity; lia.
Qed.

Lemma apart_nonempty p q : apart p q = true -> p <> [] /\ q <> [].
Proof. destruct p, q; simpl; intros H; try discriminate H. now split. Qed.

Lemma apart_app p q r t : apart p q = true -> apart (p ++ r) (q ++ t) = true.
Proof.
  revert q. induction p as [| x p IH]; intros [| y q]; simpl; intros H;
    try discriminate H.
  destruct (String.eqb x y); [now apply IH | reflexivity].
Qed.

Lemma apart_app_l p q r : apart p q = true -> apart (p ++ r) q = true.
Proof. intros H. rewrite <- (app_nil_r q). now apply apart_app. Qed.

Lemma apart_sym p q : apart p q = apart q p.
Proof.
  revert q. induction p as [| x p IH]; intros [| y q]; simpl; try reflexivity.
  rewrite (String.eqb_sym y x). destruct (String.eqb x y); [apply IH | reflexivity].
Qed.

(** A write at [q] is not seen from a path that is apart from [q]. *)
Lemma walk_update_apart p q new s :
  apart p q = true -> walk p (update q new s) = walk p s.
Proof.
  revert q s. induction p as [| x p IH]; intros [| y q] s H; simpl in H;
    try discriminate H.
  destruct s as [d | es]; [reflexivity |].
  eqb_cases x y.
  - cbn [update]. destruct (assoc y es) as [m |] eqn:A.
    + cbn [walk]. rewrite assoc_set_entry_same, A. now apply IH.
    + destruct q as [| z q]; [| reflexivity].
      destruct p; discriminate H.
  - now apply walk_update_head.
Qed.

(** Nor is the removal of [q]. *)
Lemma walk_unlink_apart p q s :
  apart p q = true -> walk p (unlink q s) = walk p s.
Proof.
  revert q s. induction p as [| x p IH]; intros [| y q] s H; simpl in H;
    try discriminate H.
  destruct s as [d | es]; [reflexivity |].
  assert (U : forall z q', unlink (y :: z :: q') (Dir es) =
                match assoc y es with
                | Some m => Dir (set_entry y (unlink (z :: q') m) es)
                | None => Dir es
                end) by reflexivity.
  eqb_cases x y.
  - destruct q as [| z q]; [destruct p; discriminate H |].
    rewrite U. destruct (assoc y es) as [m |] eqn:A; [| reflexivity].
    cbn [walk]. rewrite assoc_set_entry_same, A. now apply IH.
  - destruct q as [| z q].
    + cbn [unlink walk]. now rewrite assoc_del_entry_other.
    + rewrite U. destruct (assoc y es) as [m |] eqn:A; [| reflexivity].
      cbn [walk]. now rewrite assoc_set_entry_other.
Qed.

(** Copying a well-formed tree [n] from [src] to a place [dest] apart
    from it, which is either absent (in an existing directory) or an
    empty directory, installs exactly [n] at [dest]; the only way to fail
    is a recursion deeper than the fuel. *)
Lemma copyRecursive_tree fuel :
  forall n src dest s pes,
    apart src dest = true ->
    wf n = true ->
    walk src s = Some n ->
    walk (removelast dest) s = Some (Dir pes) ->
    (walk dest s = None \/
     (walk dest s = Some (Dir []) /\ exists es, n = Dir es)) ->
    copyRecursive fuel src dest s =
      if height n <? fuel then Ok tt (update dest n s) else OutOfFuel.
Proof.
  induction fuel as [| f IH]; intros n src dest s pes Hab W Hsrc Hpar Hdst;
    pose proof (apart_nonempty src dest Hab) as [_ Hne].
  - reflexivity.
  - cbn [copyRecursive]. unfold bind at 1. unfold existsSync at 1. rewrite Hsrc.
    cbn [negb]. unfold bind at 1. unfold statSync at 1. rewrite Hsrc.
    destruct n as [data | es].
    + (* a regular file *)
      cbn [isDirectory]. unfold copyFileSync. rewrite Hsrc.
      unfold writeFileSync. rewrite Hpar.
      destruct Hdst as [Hd | [_ [es E]]]; [| discriminate].
      rewrite Hd. reflexivity.
    + (* a directory *)
      cbn [isDirectory]. rewrite height_dir_ltb.
      assert (Hbase : exists s1,
                 walk dest s1 = Some (Dir []) /\
                 s1 = update dest (Dir []) s /\
                 (there <- existsSync dest ;;
                  when (negb there) (mkdirSync dest) ;;
                  items <- readdirSync src ;;
                  forEach items (fun item =>
                    copyRecursive f (join src [item]) (join dest [item]))) s =
                 forEach (names es) (fun item =>
                    copyRecursive f (join src [item]) (join dest [item])) s1).
      { destruct Hdst as [Hd | [Hd _]].
        - exists (update dest (Dir []) s). split; [| split; [reflexivity |]].
          + apply (walk_update_new _ _ _ pes); assumption.
          + unfold bind at 1. unfold existsSync at 1. rewrite Hd. cbn [negb when].
            unfold bind at 1. unfold mkdirSync at 1.
            rewrite (mkdirp_fresh _ _ pes) by assumption.
            unfold bind at 1. unfold readdirSync at 1.
            rewrite walk_update_apart, Hsrc by assumption. reflexivity.
        - exists s. split; [assumption | split; [symmetry; now apply update_same |]].
          unfold bind at 1. unfold existsSync at 1. rewrite Hd. cbn [negb when].
          unfold bind at 1. unfold ret at 1.
          unfold bind at 1. unfold readdirSync at 1. rewrite Hsrc. reflexivity. }
      destruct Hbase as (s1 & Hd1 & Es1 & ->).
      assert (Hsrc1 : forall x, walk (src ++ [x]) s1 = assoc x es).
      { intros x. rewrite Es1, walk_update_apart by now apply apart_app_l.
        rewrite walk_app, Hsrc. simpl. now destruct (assoc x es). }
      assert (LOOP : forall es2 es1, es = es1 ++ es2 ->
                forEach (names es2) (fun item =>
                  copyRecursive f (join src [item]) (join dest [item]))
                  (update dest (Dir es1) s1) =
                if forallb (fun e => height (snd e) <? f) es2
                then Ok tt (update dest (Dir es) s1) else OutOfFuel).
      { induction es2 as [| [x c] es2 IH2]; intros es1 Ees.
        - simpl. rewrite app_nil_r in Ees. now subst es1.
        - change (names ((x, c) :: es2)) with (x :: names es2).
          cbn [forEach forallb snd]. unfold bind at 1.
          assert (ND : ~ In x (names es1)).
          { simpl in W. apply andb_prop in W as [W _]. apply nodupb_NoDup in W.
            rewrite Ees, map_app in W. simpl in W.
            apply NoDup_remove_2 in W. intros Hin. apply W.
            apply in_or_app. now left. }
          assert (Hc : assoc x es = Some c) by (rewrite Ees; now apply assoc_middle).
          assert (Hst : walk dest (update dest (Dir es1) s1) = Some (Dir es1))
            by (eapply walk_update_same; eauto).
          unfold join at 1 2.
          rewrite (IH c (src ++ [x]) (dest ++ [x]) _ es1 (apart_app src dest [x] [x] Hab)).
          + destruct (height c <? f); [| reflexivity].
            rewrite (update_app _ _ _ _ _ Hst), update_single.
            rewrite set_entry_absent by now apply assoc_none_names.
            rewrite update_twice.
            rewrite (IH2 (es1 ++ [(x, c)])); [reflexivity |].
            now rewrite <- app_assoc.
          + eapply wf_child; eauto.
          + rewrite walk_update_apart by now apply apart_app_l.
            now rewrite Hsrc1.
          + now rewrite removelast_last.
          + left. rewrite walk_app, Hst. simpl.
            now rewrite (proj2 (assoc_none_names x es1) ND). }
      specialize (LOOP es [] eq_refl).
      rewrite (update_same _ _ _ Hd1) in LOOP. rewrite LOOP.
      destruct (forallb _ es); [| reflexivity].
      now rewrite Es1, update_twice.
Qed.


(** Copying a well-formed tree [n] from [src] to a place [dest] that lies
    under another top-level name, and is either absent (in an existing
    directory) or an empty directory, installs exactly [n] at [dest]; the
    only way to fail is a recursion deeper than the fuel. *)
Lemma copyRecursive_spec fuel :
  forall n a src b dest s pes,
    a <> b ->
    wf n = true ->
    walk (a :: src) s = Some n ->
    walk (removelast (b :: dest)) s = Some (Dir pes) ->
    (walk (b :: dest) s = None \/
     (walk (b :: dest) s = Some (Dir []) /\ exists es, n = Dir es)) ->
    copyRecursive fuel (a :: src) (b :: dest) s =
      if height n <? fuel then Ok tt (update (b :: dest) n s) else OutOfFuel.
Proof.
  intros n a src b dest s pes Hab. apply copyRecursive_tree.
  simpl. apply String.eqb_neq in Hab. now rewrite Hab.
Qed.

End CopyFacts.

(** ** Every write stays under [.vercel/output] *)

Module FrameFacts.
Import Fs Node Js Packager Plan FsFacts CopyFacts.

Lemma same_outside_refl s : same_outside s s.
Proof. now intros x p _. Qed.

Lemma same_outside_trans s1 s2 s3 :
  same_outside s1 s2 -> same_outside s2 s3 -> same_outside s1 s3.
Proof. intros H12 H23 x p O. now rewrite (H23 x p O), (H12 x p O). Qed.

Lemma keeps_ret A (a : A) : keeps (ret a).
Proof. intros s. apply same_outside_refl. Qed.

Lemma keeps_bind A B (m : M A) (k : A -> M B) :
  keeps m -> (forall a, keeps (k a)) -> keeps (bind m k).
Proof.
  intros Hm Hk s. unfold bind. specialize (Hm s).
  destruct (m s) as [a s1 | s1 |]; [| exact Hm | exact I].
  specialize (Hk a s1).
  destruct (k a s1) as [b s2 | s2 |]; [| | exact I];
    eapply same_outside_trans; eauto.
Qed.

Lemma keeps_when b (m : M unit) : keeps m -> keeps (when b m).
Proof. intros H. destruct b; [exact H | apply keeps_ret]. Qed.

Lemma keeps_forEach A (l : list A) (f : A -> M unit) :
  (forall x, keeps (f x)) -> keeps (forEach l f).
Proof.
  intros H. induction l as [| x l IH]; simpl; [apply keeps_ret |].
  apply keeps_bind; [apply H | intros _; exact IH].
Qed.

Lemma keeps_existsSync p : keeps (existsSync p).
Proof. intros s. apply same_outside_refl. Qed.

Lemma keeps_statSync p : keeps (statSync p).
Proof.
  intros s. unfold statSync.
  destruct (walk p s) as [[d | es] |]; apply same_outside_refl.
Qed.

Lemma keeps_readdirSync p : keeps (readdirSync p).
Proof.
  intros s. unfold readdirSync.
  destruct (walk p s) as [[d | es] |]; apply same_outside_refl.
Qed.

Lemma keeps_readFileSync p : keeps (readFileSync p).
Proof.
  intros s. unfold readFileSync.
  destruct (walk p s) as [[d | es] |]; apply same_outside_refl.
Qed.

Lemma update_outside q n s : same_outside s (update (".vercel" :: "output" :: q) n s).
Proof.
  intros x p [Hx | (y & p' & -> & Hy)].
  - now apply walk_update_frame.
  - destruct s as [d | es]; [reflexivity |].
    eqb_cases x ".vercel"; [| now apply walk_update_head].
    cbn [update]. destruct (assoc ".vercel" es) as [m |] eqn:A; [| reflexivity].
    cbn [walk]. rewrite assoc_set_entry_same, A.
    now apply (walk_update_frame y "output" p' q n m).
Qed.

Lemma unlink_outside s : same_outside s (unlink [".vercel"; "output"] s).
Proof.
  intros x p O. destruct s as [d | es]; [reflexivity |].
  cbn [unlink]. destruct (assoc ".vercel" es) as [m |] eqn:A; [| reflexivity].
  cbn [walk]. eqb_cases x ".vercel".
  - rewrite assoc_set_entry_same, A.
    destruct O as [Hx | (y & p' & -> & Hy)]; [congruence |].
    destruct m as [d | v]; [reflexivity |].
    cbn [walk]. now rewrite assoc_del_entry_other.
  - now rewrite assoc_set_entry_other.
Qed.

Lemma mkdirp_outside q s s' :
  mkdirp (".vercel" :: "output" :: q) s = Some s' -> same_outside s s'.
Proof.
  intros H x p O. destruct s as [d | es]; [discriminate H |].
  cbn [mkdirp] in H.
  destruct (match assoc ".vercel" es with Some m => m | None => Dir [] end)
    as [d | v] eqn:Sub; [discriminate H |].
  cbv iota beta zeta in H.
  destruct (mkdirp q _) as [o' |]; [| discriminate H].
  injection H as <-. cbn [walk]. eqb_cases x ".vercel".
  - rewrite assoc_set_entry_same.
    destruct O as [Hx | (y & p' & -> & Hy)]; [congruence |].
    cbn [walk]. rewrite assoc_set_entry_other by assumption.
    destruct (assoc ".vercel" es) as [m |]; [now subst m | now injection Sub as <-].
  - now rewrite assoc_set_entry_other.
Qed.

Lemma keeps_rmSync : keeps (rmSync outputDir).
Proof.
  intros s. unfold rmSync, outputDir.
  destruct (walk _ s); [apply unlink_outside | apply same_outside_refl].
Qed.

Lemma keeps_mkdirSync q : keeps (mkdirSync (join outputDir q)).
Proof.
  intros s. unfold mkdirSync, outputDir, join. cbn [app].
  destruct (mkdirp _ s) as [s' |] eqn:H;
    [now apply (mkdirp_outside q) | apply same_outside_refl].
Qed.

Lemma keeps_writeFileSync q data : keeps (writeFileSync (join outputDir q) data).
Proof.
  intros s. unfold writeFileSync, outputDir, join. cbn [app].
  destruct (walk (removelast _) s) as [[d | es] |]; try apply same_outside_refl.
  destruct (walk _ s) as [[d | es'] |];
    [apply update_outside | apply same_outside_refl | apply update_outside].
Qed.

Lemma outside_apart x p q :
  outside x p -> apart (x :: p) (join outputDir q) = true.
Proof.
  unfold outputDir, join. cbn [app].
  intros [Hx | (y & p' & -> & Hy)].
  - cbn [apart]. apply String.eqb_neq in Hx. now rewrite Hx.
  - change (apart (x :: y :: p') (".vercel" :: "output" :: q))
      with (if String.eqb x ".vercel"
            then (if String.eqb y "output" then apart p' q else true)
            else true).
    apply String.eqb_neq in Hy. rewrite Hy. now destruct (String.eqb x ".vercel").
Qed.

Lemma keeps_copyFileSync src q : keeps (copyFileSync src (join outputDir q)).
Proof.
  intros s. unfold copyFileSync.
  destruct (walk src s) as [[data | es] |]; [| | apply same_outside_refl].
  - apply keeps_writeFileSync.
  - destruct (walk (removelast _) s) as [[d | pes] |]; try apply same_outside_refl.
    destruct (walk (join outputDir q) s) as [[d | es'] |];
      try apply same_outside_refl.
    intros x p O. apply walk_unlink_apart. now apply outside_apart.
Qed.

Lemma keeps_copyRecursive fuel :
  forall src q, keeps (copyRecursive fuel src (join outputDir q)).
Proof.
  induction fuel as [| f IH]; intros src q; [now intros s |].
  cbn [copyRecursive].
  apply keeps_bind; [apply keeps_existsSync | intros present].
  destruct (negb present); [apply keeps_ret |].
  apply keeps_bind; [apply keeps_statSync | intros stats].
  destruct (isDirectory stats); [| apply keeps_copyFileSync].
  apply keeps_bind; [apply keeps_existsSync | intros there].
  apply keeps_bind; [apply keeps_when, keeps_mkdirSync | intros _].
  apply keeps_bind; [apply keeps_readdirSync | intros items].
  apply keeps_forEach. intros item.
  replace (join (join outputDir q) [item]) with (join outputDir (q ++ [item]))
    by (unfold join; now rewrite app_assoc).
  apply IH.
Qed.

(** Nothing the script does reaches outside [.vercel/output]. *)
Lemma keeps_build fuel : keeps (build fuel).
Proof.
  unfold build, reset, mirror, promote, rewrite, emit, staticDir, indexPath.
  repeat first
    [ apply keeps_bind; [| intros ?]
    | apply keeps_when
    | apply keeps_existsSync
    | apply keeps_readdirSync
    | apply keeps_readFileSync
    | apply keeps_rmSync
    | apply keeps_mkdirSync
    | apply keeps_copyRecursive
    | apply keeps_writeFileSync
    | apply keeps_ret
    | apply (keeps_writeFileSync ["static"; "index.html"])
    | match goal with
      | |- keeps (match ?o with Some _ => _ | None => _ end) => destruct o
      end
    | apply (keeps_copyFileSync _ ["static"; "bundle.js"]) ].
Qed.

End FrameFacts.

(** ** The script, step by step *)

Module BuildFacts.
Import Fs Node Js Packager Plan FsFacts CopyFacts.

Lemma walk_install_out o top p :
  walk (".vercel" :: "output" :: p) (install o (Dir top)) = walk p o.
Proof.
  unfold install. cbn [walk]. rewrite assoc_set_entry_same.
  rewrite assoc_last by apply assoc_del_entry_same. reflexivity.
Qed.

Lemma walk_install_other o top x p :
  x <> ".vercel" -> walk (x :: p) (install o (Dir top)) = walk (x :: p) (Dir top).
Proof.
  intros Hne. unfold install. cbn [walk]. now rewrite assoc_set_entry_other.
Qed.

Lemma update_install o top p n :
  update (".vercel" :: "output" :: p) n (install o (Dir top)) =
  install (update p n o) (Dir top).
Proof.
  unfold install. cbn [update]. rewrite assoc_set_entry_same.
  rewrite assoc_last by apply assoc_del_entry_same.
  rewrite set_entry_last by apply assoc_del_entry_same.
  now rewrite set_entry_twice.
Qed.

Lemma install_install o o' top :
  install o' (install o (Dir top)) = install o' (Dir top).
Proof.
  unfold install. rewrite assoc_set_entry_same.
  rewrite del_entry_last by apply assoc_del_entry_same.
  now rewrite set_entry_twice.
Qed.

Lemma reset_spec top :
  vercel_ok (Dir top) = true ->
  reset (Dir top) = Ok tt (install (skeleton []) (Dir top)).
Proof.
  unfold vercel_ok, reset, install, skeleton. intros Hok.
  unfold bind at 1. unfold existsSync at 1. cbn [walk outputDir].
  destruct (assoc ".vercel" top) as [[d | v] |] eqn:A; [discriminate | |].
  - assert (R : forall v', assoc "output" v' = None ->
              (mkdirSync staticDir ;; mkdirSync (join outputDir ["config"]))
                (Dir (set_entry ".vercel" (Dir v') top)) =
              Ok tt (Dir (set_entry ".vercel"
                (Dir (v' ++ [("output", Dir [("static", Dir []); ("config", Dir [])])])) top))).
    { intros v' Hv'. unfold bind, mkdirSync, staticDir, outputDir, join.
      cbn [app mkdirp]. rewrite assoc_set_entry_same.
      cbn [mkdirp]. rewrite Hv'. cbn [mkdirp assoc set_entry].
      rewrite set_entry_twice, (set_entry_absent "output" _ v' Hv').
      rewrite assoc_set_entry_same. cbn [mkdirp].
      rewrite (assoc_last "output" _ v' Hv'). cbn [mkdirp assoc set_entry String.eqb Ascii.eqb Bool.eqb].
      rewrite set_entry_twice, (set_entry_last "output" _ _ v' Hv'). reflexivity. }
    destruct (assoc "output" v) as [c |] eqn:B.
    + cbn [when]. unfold bind at 1. unfold rmSync at 1, outputDir.
      cbn [walk]. rewrite A, B.
      cbn [unlink]. rewrite A. cbn [unlink].
      apply R, assoc_del_entry_same.
    + cbn [when]. unfold bind at 1. unfold ret at 1.
      rewrite <- (set_entry_same ".vercel" (Dir v) top A) at 1.
      rewrite (del_entry_absent _ _ B). now apply R.
  - cbn [when]. unfold bind, ret, mkdirSync, staticDir, outputDir, join.
    cbn [app mkdirp]. rewrite A. cbn [mkdirp assoc set_entry].
    rewrite assoc_set_entry_same. cbn. rewrite set_entry_twice. reflexivity.
Qed.

Lemma reset_fails cwd : vercel_ok cwd = false -> reset cwd = Throw cwd.
Proof.
  unfold vercel_ok, reset. intros H.
  destruct cwd as [d | top]; [reflexivity |].
  destruct (assoc ".vercel" top) as [[d | v] |] eqn:A; try discriminate.
  unfold bind, existsSync, mkdirSync, staticDir, outputDir, join.
  cbn [walk app]. rewrite A. cbn [when]. unfold ret.
  cbn [mkdirp]. rewrite A. reflexivity.
Qed.

Lemma walk_static o st top p :
  o = skeleton st \/ o = packaged st ->
  walk (join staticDir p) (install o (Dir top)) = walk p (Dir st).
Proof.
  intros [-> | ->]; unfold staticDir, outputDir, join; cbn [app];
    now rewrite walk_install_out.
Qed.

Lemma update_static st top x n :
  update (join staticDir [x]) n (install (skeleton st) (Dir top)) =
  install (skeleton (set_entry x n st)) (Dir top).
Proof.
  unfold staticDir, outputDir, join; cbn [app]. rewrite update_install.
  unfold skeleton. cbn. now destruct (assoc x st).
Qed.

Lemma unlink_static st top x :
  unlink (join staticDir [x]) (install (skeleton st) (Dir top)) =
  install (skeleton (del_entry x st)) (Dir top).
Proof.
  unfold staticDir, outputDir, join, install; cbn [app unlink].
  rewrite assoc_set_entry_same. cbn [unlink].
  rewrite assoc_last by apply assoc_del_entry_same.
  rewrite set_entry_last by apply assoc_del_entry_same.
  now rewrite set_entry_twice.
Qed.

Lemma mirror_spec fuel top :
  wf_src (Dir top) = true ->
  mirror fuel (install (skeleton []) (Dir top)) =
  if src_height (Dir top) <? fuel then
    match mirrored (Dir top) with
    | Done st => Ok tt (install (skeleton st) (Dir top))
    | Crashed st => Throw (install (skeleton st) (Dir top))
    end
  else OutOfFuel.
Proof.
  unfold wf_src, src_height, mirrored, mirror. intros W.
  assert (Hsrc : walk ["dist"] (install (skeleton []) (Dir top)) = walk ["dist"] (Dir top))
    by (apply walk_install_other; discriminate).
  destruct (walk ["dist"] (Dir top)) as [[data | d] |] eqn:D.
  - destruct fuel as [| f]; [reflexivity |].
    cbn [copyRecursive height Nat.ltb Nat.leb].
    unfold bind at 1. unfold existsSync at 1. rewrite Hsrc. cbn [negb].
    unfold bind at 1. unfold statSync at 1. rewrite Hsrc. cbn [isDirectory].
    unfold copyFileSync. rewrite Hsrc.
    unfold writeFileSync, staticDir, outputDir, join. cbn [app removelast].
    now rewrite !walk_install_out.
  - unfold staticDir, outputDir, join. cbn [app].
    rewrite (copyRecursive_spec fuel (Dir d) "dist" [] ".vercel" ["output"; "static"]
               _ [("static", Dir []); ("config", Dir [])]).
    + destruct (height (Dir d) <? fuel); [| reflexivity].
      now rewrite update_install.
    + discriminate.
    + assumption.
    + assumption.
    + cbn [removelast]. now rewrite walk_install_out.
    + right. split; [now rewrite walk_install_out | now exists d].
  - destruct fuel as [| f]; [reflexivity |].
    cbn [copyRecursive Nat.ltb Nat.leb].
    unfold bind, existsSync. rewrite Hsrc. reflexivity.
Qed.

Lemma isAppEntry_nonempty f : isAppEntry f = true -> String.eqb f "" = false.
Proof. destruct f; [discriminate | reflexivity]. Qed.

Lemma promote_spec st top :
  promote (install (skeleton st) (Dir top)) =
  match promoted (Dir top) st with
  | Done st' => Ok tt (install (skeleton st') (Dir top))
  | Crashed st' => Throw (install (skeleton st') (Dir top))
  end.
Proof.
  unfold promote, promoted.
  assert (Hjs : forall q, walk (join jsDir q) (install (skeleton st) (Dir top)) =
                          walk (join jsDir q) (Dir top))
    by (intros q; apply walk_install_other; discriminate).
  pose proof (Hjs []) as Hjs0. unfold join in Hjs0. rewrite app_nil_r in Hjs0.
  unfold bind at 1. unfold existsSync at 1. rewrite Hjs0.
  destruct (walk jsDir (Dir top)) as [[data | es] |] eqn:J.
  - cbn [when]. unfold bind, readdirSync. now rewrite Hjs0.
  - cbn [when]. unfold bind at 1. unfold readdirSync at 1. rewrite Hjs0.
    destruct (find isAppEntry (names es)) as [f |] eqn:F; [| reflexivity].
    assert (Ef : isAppEntry f = true) by (apply (find_some _ _ F)).
    unfold truthy. rewrite (isAppEntry_nonempty f Ef). cbn [negb when].
    unfold copyFileSync. rewrite Hjs.
    unfold join at 1. rewrite walk_app, J. cbn [walk].
    replace (removelast (join staticDir ["bundle.js"])) with (join staticDir [])
      by reflexivity.
    destruct (assoc f es) as [[data | sub] |] eqn:A.
    + unfold writeFileSync.
      replace (removelast (join staticDir ["bundle.js"])) with (join staticDir [])
        by reflexivity.
      rewrite !(walk_static _ st) by now left. cbn [walk].
      destruct (assoc "bundle.js" st) as [[old | sub] |] eqn:B; try reflexivity;
        now rewrite update_static.
    + rewrite !(walk_static _ st) by now left. cbn [walk].
      destruct (assoc "bundle.js" st) as [[old | sub'] |] eqn:B; try reflexivity.
      now rewrite unlink_static.
    + now destruct (assoc "bundle.js" st) as [[old | sub] |].
  - reflexivity.
Qed.

Lemma rewrite_spec st top :
  rewrite (install (skeleton st) (Dir top)) =
  match rewritten st with
  | Done st' => Ok tt (install (skeleton st') (Dir top))
  | Crashed st' => Throw (install (skeleton st') (Dir top))
  end.
Proof.
  unfold rewrite, rewritten, indexPath.
  unfold bind at 1. unfold existsSync at 1.
  rewrite (walk_static _ st) by now left. cbn [walk].
  destruct (assoc "index.html" st) as [[html | sub] |] eqn:A; cbn [when].
  - unfold bind, readFileSync, writeFileSync.
    replace (removelast (join staticDir ["index.html"])) with (join staticDir [])
      by reflexivity.
    rewrite (walk_static _ st) by now left. cbn [walk]. rewrite A.
    rewrite !(walk_static _ st) by now left. cbn [walk]. rewrite A.
    now rewrite update_static.
  - unfold bind, readFileSync.
    rewrite (walk_static _ st) by now left. cbn [walk]. now rewrite A.
  - reflexivity.
Qed.

Lemma emit_spec st top :
  emit (install (skeleton st) (Dir top)) = Ok tt (install (packaged st) (Dir top)).
Proof.
  unfold emit, writeFileSync, outputDir, join. cbn [app removelast].
  rewrite !walk_install_out, update_install. reflexivity.
Qed.

(** On a source tree without duplicate names the script does exactly what
    the plan says. *)
Lemma build_spec fuel cwd :
  wf_src cwd = true -> build fuel cwd = expected fuel cwd.
Proof.
  intros W. unfold build, expected.
  destruct (vercel_ok cwd) eqn:V.
  - destruct cwd as [d | top]; [discriminate |].
    unfold bind at 1. rewrite (reset_spec top V).
    unfold bind at 1. rewrite (mirror_spec fuel top W).
    destruct (src_height (Dir top) <? fuel); [| reflexivity].
    unfold plan. destruct (mirrored (Dir top)) as [s1 | s1]; [| reflexivity].
    cbn [andThen]. unfold bind at 1. rewrite promote_spec.
    destruct (promoted (Dir top) s1) as [s2 | s2]; [| reflexivity].
    cbn [andThen]. unfold bind at 1. rewrite rewrite_spec.
    destruct (rewritten s2) as [s3 | s3]; [| reflexivity].
    apply emit_spec.
  - unfold bind. now rewrite (reset_fails cwd V).
Qed.

End BuildFacts.

(** ** The matcher against the language *)

Module RegexFacts.
Import Js Regex.

Lemma append_assoc (a b c : string) : ((a ++ b) ++ c = a ++ (b ++ c))%string.
Proof. induction a as [| x a IH]; simpl; [reflexivity | now rewrite IH]. Qed.

Lemma length_append (a b : string) :
  String.length (a ++ b) = String.length a + String.length b.
Proof. induction a as [| x a IH]; simpl; [reflexivity | now rewrite IH]. Qed.

Lemma append_inv_length (a a' b b' : string) :
  (a ++ b = a' ++ b')%string -> String.length a = String.length a' ->
  a = a' /\ b = b'.
Proof.
  revert a'. induction a as [| x a IH]; intros [| x' a']; simpl; intros E L;
    try discriminate.
  - now split.
  - injection E as -> E. injection L as L.
    destruct (IH a' E L) as [-> ->]. now split.
Qed.

Lemma star_sound a k (P : string -> Prop) :
  (forall s rest, k s = Some rest -> exists m, s = (m ++ rest)%string /\ P m) ->
  forall s rest, star a k s = Some rest ->
    exists x m, s = ((x ++ m) ++ rest)%string /\
                all_chars (accepts a) x = true /\ P m.
Proof.
  intros Hk. induction s as [| c s IHs]; intros rest H.
  - simpl in H. destruct (Hk _ _ H) as (m & E & Hm).
    exists EmptyString, m. now repeat split.
  - assert (Hskip : k (String c s) = Some rest ->
              exists x m, String c s = ((x ++ m) ++ rest)%string /\
                          all_chars (accepts a) x = true /\ P m).
    { intros H'. destruct (Hk _ _ H') as (m & E & Hm).
      exists EmptyString, m. now repeat split. }
    simpl in H. destruct (accepts a c) eqn:A; [| now apply Hskip].
    destruct (star a k s) as [rest' |] eqn:S; [| now apply Hskip].
    injection H as ->.
    destruct (IHs _ eq_refl) as (x & m & E & Hx & Hm).
    exists (String c x), m. repeat split; [| | assumption].
    + simpl. now rewrite <- E.
    + simpl. now rewrite A.
Qed.

Lemma star_complete a k :
  forall s, star a k s = None ->
    forall x t, all_chars (accepts a) x = true -> s = (x ++ t)%string -> k t = None.
Proof.
  induction s as [| c s IHs]; intros H x t Hx E.
  - destruct x; [| discriminate]. simpl in E. subst t. exact H.
  - simpl in H.
    assert (Hk : k (String c s) = None).
    { destruct (accepts a c); [| assumption].
      destruct (star a k s); [discriminate | assumption]. }
    destruct x as [| c' x]; simpl in E.
    + now subst t.
    + injection E as <- E. simpl in Hx. apply andb_prop in Hx as [Hc Hx].
      rewrite Hc in H. destruct (star a k s) eqn:S; [discriminate |].
      now apply (IHs eq_refl x t).
Qed.

(** Soundness: what the matcher consumes is a word of the expression. *)
Lemma match_at_sound r :
  forall s rest, match_at r s = Some rest ->
    exists m, s = (m ++ rest)%string /\ matches r m.
Proof.
  induction r as [| [a | a] r IH]; intros s rest H.
  - simpl in H. injection H as ->. exists EmptyString. split; [reflexivity | constructor].
  - simpl in H. destruct s as [| c s]; [discriminate |].
    destruct (accepts a c) eqn:A; [| discriminate].
    destruct (IH _ _ H) as (m & -> & Hm).
    exists (String c m). split; [reflexivity | now constructor].
  - cbn [match_at] in H.
    destruct (star_sound a (match_at r) (matches r) IH _ _ H) as (x & m & E & Hx & Hm).
    exists (x ++ m)%string. split; [assumption | now constructor].
Qed.

(** Completeness: when the matcher fails at the start of [s], no prefix
    of [s] is a word of the expression. *)
Lemma match_at_complete r :
  forall s, match_at r s = None ->
    forall m rest, s = (m ++ rest)%string -> ~ matches r m.
Proof.
  induction r as [| [a | a] r IH]; intros s H m rest E Hm.
  - discriminate.
  - inversion Hm as [| a0 r0 c m0 Hc Hm0 |]; subst. simpl in H.
    rewrite Hc in H. now apply (IH _ H m0 rest).
  - inversion Hm as [| | a0 r0 x m0 Hx Hm0]; subst. cbn [match_at] in H.
    rewrite append_assoc in H.
    pose proof (star_complete a _ _ H x _ Hx eq_refl) as Hk.
    now apply (IH _ Hk m0 rest).
Qed.

(** The search returns the leftmost place where a word of the expression
    starts, or reports that there is none. *)
Lemma search_sound r :
  forall s pre rest, search r s = Some (pre, rest) ->
    exists m, s = (pre ++ m ++ rest)%string /\ matches r m /\
      forall pre' m' rest', s = (pre' ++ m' ++ rest')%string -> matches r m' ->
        String.length pre <= String.length pre'.
Proof.
  induction s as [| c s IHs]; intros pre rest H; simpl in H.
  - destruct (match_at r EmptyString) as [rest0 |] eqn:M; [| discriminate].
    injection H as <- <-. destruct (match_at_sound _ _ _ M) as (m & E & Hm).
    exists m. repeat split; [assumption | assumption | simpl; lia].
  - destruct (match_at r (String c s)) as [rest0 |] eqn:M.
    + injection H as <- <-. destruct (match_at_sound _ _ _ M) as (m & E & Hm).
      exists m. repeat split; [assumption | assumption | simpl; lia].
    + destruct (search r s) as [[pre0 rest0] |] eqn:S; [| discriminate].
      injection H as <- <-.
      destruct (IHs _ _ eq_refl) as (m & E & Hm & Hmin).
      exists m. repeat split; [simpl; now rewrite <- E | assumption |].
      intros pre' m' rest' E' Hm'. destruct pre' as [| c' pre'].
      * exfalso. now apply (match_at_complete _ _ M m' rest').
      * simpl in E'. injection E' as <- E'. simpl.
        apply le_n_S. now apply (Hmin pre' m' rest').
Qed.

Lemma search_complete r :
  forall s, search r s = None ->
    forall pre m rest, s = (pre ++ m ++ rest)%string -> ~ matches r m.
Proof.
  induction s as [| c s IHs]; intros H pre m rest E Hm; simpl in H.
  - destruct (match_at r EmptyString) eqn:M; [discriminate |].
    destruct pre; [| discriminate]. now apply (match_at_complete _ _ M m rest).
  - destruct (match_at r (String c s)) eqn:M; [discriminate |].
    destruct (search r s) as [[pre0 rest0] |] eqn:S; [discriminate |].
    destruct pre as [| c' pre].
    + now apply (match_at_complete _ _ M m rest).
    + simpl in E. injection E as <- E. now apply (IHs eq_refl pre m rest).
Qed.

End RegexFacts.

(** ** The rewrite of [index.html] against its specification *)

Module HtmlFacts.
Import Js Regex Packager HtmlSpec RegexFacts.

Lemma matches_chr c r m :
  matches (One (Chr c) :: r) m <-> exists m', m = String c m' /\ matches r m'.
Proof.
  split.
  - intros H. inversion H as [| a0 r0 c0 m0 Hc Hm0 |]; subst. simpl in Hc.
    apply Ascii.eqb_eq in Hc. subst. now exists m0.
  - intros (m' & -> & Hm). constructor; [simpl; apply Ascii.eqb_refl | assumption].
Qed.

Lemma matches_star_iff a r m :
  matches (Star a :: r) m <->
  exists x m', m = (x ++ m')%string /\ all_chars (accepts a) x = true /\ matches r m'.
Proof.
  split.
  - intros H. inversion H as [| | a0 r0 x m0 Hx Hm0]; subst. now exists x, m0.
  - intros (x & m' & -> & Hx & Hm). now constructor.
Qed.

Lemma all_chars_append f a b :
  all_chars f (a ++ b) = all_chars f a && all_chars f b.
Proof.
  induction a as [| c a IH]; simpl; [reflexivity |].
  now rewrite IH, andb_assoc.
Qed.

(** The words of the script's expression are the attributes the
    specification describes. *)
Lemma matches_appEntrySrc m : matches appEntrySrc m <-> is_app_src m.
Proof.
  unfold appEntrySrc, is_app_src, lit, quoted. cbn [list_ascii_of_string map app].
  split.
  - intros H.
    repeat (apply matches_chr in H; destruct H as (? & -> & H)).
    apply matches_star_iff in H. destruct H as (u & ? & -> & Hu & H).
    repeat (apply matches_chr in H; destruct H as (? & -> & H)).
    apply matches_star_iff in H. destruct H as (v & ? & -> & Hv & H).
    repeat (apply matches_chr in H; destruct H as (? & -> & H)).
    inversion H; subst.
    exists u, v. repeat split; [exact Hu | exact Hv |].
    simpl. repeat (rewrite append_assoc; simpl). reflexivity.
  - intros (x & y & Hx & Hy & ->). simpl.
    repeat (apply matches_chr; eexists; split; [reflexivity |]).
    repeat (rewrite append_assoc; simpl).
    apply matches_star_iff. exists x. eexists. split; [reflexivity |]. split; [exact Hx |].
    simpl.
    repeat (apply matches_chr; eexists; split; [reflexivity |]).
    apply matches_star_iff. exists y. eexists. split; [reflexivity |]. split; [exact Hy |].
    simpl.
    repeat (apply matches_chr; eexists; split; [reflexivity |]).
    constructor.
Qed.

Lemma quote_split_unique v v' a b :
  no_quote v = true -> no_quote v' = true ->
  (v ++ String dq a = v' ++ String dq b)%string -> v = v' /\ a = b.
Proof.
  unfold no_quote. revert v'.
  induction v as [| c v IH]; intros [| c' v']; simpl; intros Hv Hv' E.
  - injection E as ->. now split.
  - injection E as <- _. now rewrite Ascii.eqb_refl in Hv'.
  - injection E as -> _. now rewrite Ascii.eqb_refl in Hv.
  - injection E as <- E.
    apply andb_prop in Hv as [_ Hv]. apply andb_prop in Hv' as [_ Hv'].
    destruct (IH v' Hv Hv' E) as [-> ->]. now split.
Qed.

(** An attribute ends at the first quote after its opening one, so at a
    given place at most one occurrence starts. *)
Lemma is_app_src_unique m m' a b :
  is_app_src m -> is_app_src m' -> (m ++ a = m' ++ b)%string -> m = m' /\ a = b.
Proof.
  intros (x & y & Hx & Hy & ->) (x' & y' & Hx' & Hy' & ->) E.
  assert (Q : forall v t, (("src=" ++ quoted v) ++ t =
                           "src=" ++ String dq (v ++ String dq t))%string).
  { intros v t. unfold quoted. simpl. now rewrite append_assoc. }
  rewrite !Q in E. simpl in E. injection E as E.
  apply quote_split_unique in E.
  - destruct E as [E1 E2]. split; [| exact E2].
    unfold quoted. simpl. now rewrite E1.
  - unfold no_quote in *. rewrite all_chars_append, Hx. simpl.
    now rewrite all_chars_append, Hy.
  - unfold no_quote in *. rewrite all_chars_append, Hx'. simpl.
    now rewrite all_chars_append, Hy'.
Qed.

Lemma rewriteHtml_first html pre m post :
  first_occurrence html pre m post ->
  rewriteHtml html = (pre ++ bundleSrc ++ post)%string.
Proof.
  intros [[E Hm] Hmin]. unfold rewriteHtml, replace.
  destruct (search appEntrySrc html) as [[pre0 rest0] |] eqn:S.
  - destruct (search_sound _ _ _ _ S) as (m0 & E0 & Hm0 & Hmin0).
    apply matches_appEntrySrc in Hm0.
    assert (L : String.length pre0 = String.length pre).
    { apply Nat.le_antisymm.
      - apply (Hmin0 pre m post E). now apply matches_appEntrySrc.
      - apply (Hmin pre0 m0 rest0). now split. }
    rewrite E in E0. symmetry in E0.
    destruct (append_inv_length _ _ _ _ E0 L) as [-> E1].
    destruct (is_app_src_unique _ _ _ _ Hm0 Hm E1) as [_ ->]. reflexivity.
  - exfalso. apply (search_complete _ _ S pre m post E).
    now apply matches_appEntrySrc.
Qed.

Lemma rewriteHtml_none html : no_occurrence html -> rewriteHtml html = html.
Proof.
  intros Hno. unfold rewriteHtml, replace.
  destruct (search appEntrySrc html) as [[pre0 rest0] |] eqn:S; [| reflexivity].
  destruct (search_sound _ _ _ _ S) as (m0 & E0 & Hm0 & _).
  exfalso. apply (Hno pre0 m0 rest0). split; [assumption |].
  now apply matches_appEntrySrc.
Qed.

(** Every text either has a first occurrence or none at all. *)
Lemma first_occurrence_dec html :
  (exists pre m post, first_occurrence html pre m post) \/ no_occurrence html.
Proof.
  destruct (search appEntrySrc html) as [[pre0 rest0] |] eqn:S.
  - left. destruct (search_sound _ _ _ _ S) as (m0 & E0 & Hm0 & Hmin0).
    exists pre0, m0, rest0. split.
    + split; [assumption | now apply matches_appEntrySrc].
    + intros pre' m' post' [E' Hm']. apply (Hmin0 pre' m' post' E').
      now apply matches_appEntrySrc.
  - right. intros pre m post [E Hm].
    apply (search_complete _ _ S pre m post E). now apply matches_appEntrySrc.
Qed.

End HtmlFacts.

(** ** Reading well-formed UTF-8 *)

Module Utf8Facts.
Import Utf8.

Lemma text_well_formed_below n :
  forall s, String.length s < n -> well_formed s = true -> text s = s.
Proof.
  induction n as [| n IH]; intros s Hn W; [lia |].
  destruct s as [| b1 s1]; [reflexivity |].
  cbn [well_formed text] in *. cbn [String.length] in Hn.
  destruct (code b1 <=? 127).
  { rewrite IH; [reflexivity | lia | exact W]. }
  destruct (within 194 223 b1).
  { destruct s1 as [| b2 s2]; [discriminate W |].
    cbn [String.length] in Hn.
    apply andb_prop in W as [W1 W2]. rewrite W1.
    rewrite IH; [reflexivity | lia | exact W2]. }
  destruct (within 224 239 b1).
  { destruct s1 as [| b2 [| b3 s3]]; try discriminate W.
    cbn [String.length] in Hn.
    apply andb_prop in W as [W W3]. apply andb_prop in W as [W1 W2].
    rewrite W1, W2. rewrite IH; [reflexivity | lia | exact W3]. }
  destruct (within 240 244 b1); [| discriminate W].
  destruct s1 as [| b2 [| b3 [| b4 s4]]]; try discriminate W.
  cbn [String.length] in Hn.
  apply andb_prop in W as [W W4]. apply andb_prop in W as [W W3].
  apply andb_prop in W as [W1 W2].
  rewrite W1, W2, W3. rewrite IH; [reflexivity | lia | exact W4].
Qed.

(** Well-formed UTF-8 is read as it is. *)
Lemma text_well_formed s : well_formed s = true -> text s = s.
Proof. apply (text_well_formed_below (S (String.length s))). lia. Qed.

End Utf8Facts.

(** ** Consequences of the closed form *)

Module RunFacts.
Import Fs Node Js Packager Plan FsFacts CopyFacts BuildFacts Utf8Facts.

Lemma walk_set_entry x p k n es :
  walk (x :: p) (Dir (set_entry k n es)) =
  if String.eqb x k then walk p n else walk (x :: p) (Dir es).
Proof.
  cbn [walk]. eqb_cases x k.
  - now rewrite assoc_set_entry_same.
  - now rewrite assoc_set_entry_other.
Qed.

(** A plan that goes through, stage by stage. *)
Lemma plan_done cwd st :
  plan cwd = Done st ->
  exists d s2,
    (walk ["dist"] cwd = Some (Dir d) \/ (walk ["dist"] cwd = None /\ d = [])) /\
    ((selected cwd = None /\ s2 = d) \/
     (exists f data,
        selected cwd = Some f /\
        walk (join jsDir [f]) cwd = Some (File data) /\
        is_dir (assoc "bundle.js" d) = false /\
        s2 = set_entry "bundle.js" (File data) d)) /\
    ((assoc "index.html" d = None /\ st = s2) \/
     (exists h, assoc "index.html" d = Some (File h) /\
                st = set_entry "index.html" (File (rewriteHtml (Utf8.text h))) s2)).
Proof.
  unfold plan, mirrored. intros H.
  assert (M : exists d, (walk ["dist"] cwd = Some (Dir d) \/
                         (walk ["dist"] cwd = None /\ d = [])) /\
                        andThen (promoted cwd d) rewritten = Done st).
  { destruct (walk ["dist"] cwd) as [[data | d] |]; [discriminate | |].
    - exists d. split; [now left | exact H].
    - exists []. split; [now right | exact H]. }
  destruct M as (d & Hd & H1). clear H. exists d.
  assert (P : exists s2,
             ((selected cwd = None /\ s2 = d) \/
              (exists f data,
                 selected cwd = Some f /\
                 walk (join jsDir [f]) cwd = Some (File data) /\
                 is_dir (assoc "bundle.js" d) = false /\
                 s2 = set_entry "bundle.js" (File data) d)) /\
             assoc "index.html" s2 = assoc "index.html" d /\
             rewritten s2 = Done st).
  { unfold promoted, selected in *.
    destruct (walk jsDir cwd) as [[data | es] |] eqn:J.
    - discriminate.
    - destruct (find isAppEntry (names es)) as [f |].
      + destruct (assoc f es) as [[data | sub] |] eqn:A;
          [| destruct (assoc "bundle.js" d) as [[old | sub'] |]; discriminate
           | destruct (assoc "bundle.js" d) as [[old | sub'] |]; discriminate].
        assert (Hf : walk (join jsDir [f]) cwd = Some (File data)).
        { unfold join. rewrite walk_app, J. cbn [walk]. now rewrite A. }
        destruct (assoc "bundle.js" d) as [[old | sub] |] eqn:B; try discriminate;
          (eexists; split;
           [right; exists f, data; repeat split; try reflexivity; exact Hf
           | split; [now apply assoc_set_entry_other | exact H1]]).
      + exists d. split; [now left | split; [reflexivity | exact H1]].
    - exists d. split; [now left | split; [reflexivity | exact H1]]. }
  destruct P as (s2 & Hs2 & Hi & H2). exists s2.
  split; [exact Hd |]. split; [exact Hs2 |].
  unfold rewritten in H2. rewrite Hi in H2.
  destruct (assoc "index.html" d) as [[h | sub] |]; [| discriminate |].
  - right. exists h. split; [reflexivity | now injection H2].
  - left. split; [reflexivity | now injection H2].
Qed.

Lemma walk_dist_child cwd x :
  walk ["dist"; x] cwd =
  match walk ["dist"] cwd with
  | Some (Dir d) => assoc x d
  | _ => None
  end.
Proof.
  change ["dist"; x] with (["dist"] ++ [x]). rewrite walk_app.
  destruct (walk ["dist"] cwd) as [[data | d] |]; try reflexivity.
  cbn [walk]. now destruct (assoc x d).
Qed.

Lemma walk_js_child cwd f :
  walk (join jsDir [f]) cwd =
  match walk jsDir cwd with
  | Some (Dir es) => assoc f es
  | _ => None
  end.
Proof.
  unfold join. rewrite walk_app.
  destruct (walk jsDir cwd) as [[data | es] |]; try reflexivity.
  cbn [walk]. now destruct (assoc f es).
Qed.

Lemma ready_plan cwd : ready cwd = true -> exists st, plan cwd = Done st.
Proof.
  unfold ready. intros H.
  apply andb_prop in H as [H H5]. apply andb_prop in H as [H H4].
  apply andb_prop in H as [H H3]. apply andb_prop in H as [_ H2].
  rewrite walk_dist_child in H5.
  unfold plan, mirrored.
  destruct (walk ["dist"] cwd) as [[data | d] |] eqn:Ed; [discriminate H2 | |].
  - cbn [andThen]. unfold promoted. unfold selected in H4.
    assert (I : forall s2, assoc "index.html" s2 = assoc "index.html" d ->
                           exists st, rewritten s2 = Done st).
    { intros s2 E. unfold rewritten. rewrite E.
      destruct (assoc "index.html" d) as [[h | sub] |]; [eauto | discriminate | eauto]. }
    destruct (walk jsDir cwd) as [[data | es] |] eqn:J; [discriminate H3 | |].
    + destruct (find isAppEntry (names es)) as [f |].
      * apply andb_prop in H4 as [H4 H4'].
        rewrite walk_js_child, J in H4. rewrite walk_dist_child, Ed in H4'.
        destruct (assoc f es) as [[data | sub] |]; try discriminate H4.
        destruct (assoc "bundle.js" d) as [[old | sub] |]; try discriminate H4';
          cbn [andThen]; apply I; now apply assoc_set_entry_other.
      * cbn [andThen]. now apply I.
    + cbn [andThen]. now apply I.
  - assert (J : walk jsDir cwd = None).
    { unfold jsDir, join. rewrite walk_app, Ed. reflexivity. }
    unfold promoted. rewrite J. cbn. eauto.
Qed.

Lemma plan_ready cwd st :
  vercel_ok cwd = true -> plan cwd = Done st -> ready cwd = true.
Proof.
  intros V H. unfold ready. rewrite V.
  rewrite (walk_dist_child cwd "index.html").
  unfold plan, mirrored, promoted, rewritten, selected in *.
  destruct (walk ["dist"] cwd) as [[data | d] |] eqn:Ed; [discriminate H | |].
  - cbn [andThen] in H.
    destruct (walk jsDir cwd) as [[data | es] |] eqn:J; [discriminate H | |].
    + destruct (find isAppEntry (names es)) as [f |].
      * rewrite walk_js_child, J, walk_dist_child, Ed.
        destruct (assoc f es) as [[data | sub] |];
          [| destruct (assoc "bundle.js" d) as [[old | sub'] |]; discriminate H
           | destruct (assoc "bundle.js" d) as [[old | sub'] |]; discriminate H].
        destruct (assoc "bundle.js" d) as [[old | sub] |]; try discriminate H;
          cbn [andThen] in H;
          rewrite assoc_set_entry_other in H by discriminate;
          destruct (assoc "index.html" d) as [[h | sub] |]; try discriminate H;
          reflexivity.
      * cbn [andThen] in H.
        destruct (assoc "index.html" d) as [[h | sub] |]; try discriminate H;
          reflexivity.
    + cbn [andThen] in H.
      destruct (assoc "index.html" d) as [[h | sub] |]; try discriminate H;
        reflexivity.
  - assert (J : walk jsDir cwd = None).
    { unfold jsDir, join. rewrite walk_app, Ed. reflexivity. }
    rewrite J. reflexivity.
Qed.

Lemma ready_vercel_ok cwd : ready cwd = true -> vercel_ok cwd = true.
Proof.
  unfold ready. intros H. repeat (apply andb_prop in H as [H ?]). exact H.
Qed.

(** On a ready input the run completes, and leaves the planned tree. *)
Lemma build_ready fuel cwd :
  ready cwd = true -> wf_src cwd = true -> src_height cwd < fuel ->
  exists st, plan cwd = Done st /\
             build fuel cwd = Ok tt (install (packaged st) cwd).
Proof.
  intros R W F. destruct (ready_plan cwd R) as (st & Hp).
  exists st. split; [exact Hp |].
  rewrite (build_spec fuel cwd W). unfold expected.
  rewrite (ready_vercel_ok cwd R), Hp.
  apply Nat.ltb_lt in F. now rewrite F.
Qed.

(** [ready] is exact: with enough fuel the run completes on the ready
    inputs and on no others. *)
Lemma build_completes_iff fuel cwd :
  wf_src cwd = true -> src_height cwd < fuel ->
  (exists s', build fuel cwd = Ok tt s') <-> ready cwd = true.
Proof.
  intros W F. split.
  - intros (s' & H). rewrite (build_spec fuel cwd W) in H. unfold expected in H.
    destruct (vercel_ok cwd) eqn:V; [| discriminate H].
    destruct (src_height cwd <? fuel); [| discriminate H].
    destruct (plan cwd) as [st | st] eqn:Hp; [| discriminate H].
    now apply (plan_ready cwd st).
  - intros R. destruct (build_ready fuel cwd R W F) as (st & _ & Hb). eauto.
Qed.

Lemma wf_wf_src cwd : wf cwd = true -> wf_src cwd = true.
Proof.
  intros W. unfold wf_src.
  destruct (walk ["dist"] cwd) as [n |] eqn:D; [| reflexivity].
  eapply wf_walk; eauto.
Qed.

Lemma walk_dist_cons cwd x p :
  walk ("dist" :: x :: p) cwd =
  match walk ["dist"] cwd with
  | Some (Dir d) => walk (x :: p) (Dir d)
  | _ => None
  end.
Proof.
  change ("dist" :: x :: p) with (["dist"] ++ x :: p). rewrite walk_app.
  now destruct (walk ["dist"] cwd) as [[data | d] |].
Qed.

Lemma walk_dist_entries cwd d x p :
  walk ["dist"] cwd = Some (Dir d) \/ (walk ["dist"] cwd = None /\ d = []) ->
  walk ("dist" :: x :: p) cwd = walk (x :: p) (Dir d).
Proof.
  intros [Hd | [Hd ->]]; rewrite walk_dist_cons, Hd; reflexivity.
Qed.

Lemma static_other cwd st x p :
  plan cwd = Done st -> x <> "index.html" -> x <> "bundle.js" ->
  walk (x :: p) (Dir st) = walk ("dist" :: x :: p) cwd.
Proof.
  intros Hp Hi Hb. destruct (plan_done cwd st Hp) as (d & s2 & Hd & Hs2 & Hst).
  rewrite (walk_dist_entries cwd d x p Hd).
  apply String.eqb_neq in Hi, Hb.
  assert (E2 : walk (x :: p) (Dir s2) = walk (x :: p) (Dir d)).
  { destruct Hs2 as [[_ ->] | (f & data & _ & _ & _ & ->)]; [reflexivity |].
    now rewrite walk_set_entry, Hb. }
  destruct Hst as [[_ ->] | (h & _ & ->)]; [exact E2 |].
  now rewrite walk_set_entry, Hi.
Qed.

Lemma static_index_text cwd st h :
  plan cwd = Done st -> walk ["dist"; "index.html"] cwd = Some (File h) ->
  walk ["index.html"] (Dir st) = Some (File (rewriteHtml (Utf8.text h))).
Proof.
  intros Hp Hi. destruct (plan_done cwd st Hp) as (d & s2 & Hd & Hs2 & Hst).
  rewrite (walk_dist_entries cwd d _ _ Hd) in Hi. cbn [walk] in Hi.
  destruct Hst as [[Hn ->] | (h' & Hh & ->)].
  - now rewrite Hn in Hi.
  - rewrite Hh in Hi. injection Hi as ->. now rewrite walk_set_entry.
Qed.

(** The entry page after the run, when its bytes are well-formed UTF-8. *)
Lemma static_index cwd st h :
  plan cwd = Done st -> walk ["dist"; "index.html"] cwd = Some (File h) ->
  Utf8.well_formed h = true ->
  walk ["index.html"] (Dir st) = Some (File (rewriteHtml h)).
Proof.
  intros Hp Hi U. rewrite (static_index_text cwd st h Hp Hi).
  now rewrite (text_well_formed h U).
Qed.

Lemma static_index_sub cwd st y p data :
  plan cwd = Done st ->
  walk ("dist" :: "index.html" :: y :: p) cwd = Some (File data) -> False.
Proof.
  intros Hp Hi. destruct (plan_done cwd st Hp) as (d & s2 & Hd & Hs2 & Hst).
  rewrite (walk_dist_entries cwd d _ _ Hd) in Hi. cbn [walk] in Hi.
  destruct Hst as [[Hn _] | (h' & Hh & _)].
  - now rewrite Hn in Hi.
  - now rewrite Hh in Hi.
Qed.

Lemma static_bundle_none cwd st p :
  plan cwd = Done st -> selected cwd = None ->
  walk ("bundle.js" :: p) (Dir st) = walk ("dist" :: "bundle.js" :: p) cwd.
Proof.
  intros Hp Hsel. destruct (plan_done cwd st Hp) as (d & s2 & Hd & Hs2 & Hst).
  rewrite (walk_dist_entries cwd d _ _ Hd).
  destruct Hs2 as [[_ ->] | (f & data & Hf & _)]; [| congruence].
  destruct Hst as [[_ ->] | (h & _ & ->)]; [reflexivity |].
  now rewrite walk_set_entry.
Qed.

Lemma static_bundle_some cwd st f :
  plan cwd = Done st -> selected cwd = Some f ->
  exists data,
    walk (join jsDir [f]) cwd = Some (File data) /\
    walk ["bundle.js"] (Dir st) = Some (File data) /\
    is_dir (walk ["dist"; "bundle.js"] cwd) = false.
Proof.
  intros Hp Hsel. destruct (plan_done cwd st Hp) as (d & s2 & Hd & Hs2 & Hst).
  destruct Hs2 as [[Hn _] | (f' & data & Hf & Hw & Hb & ->)]; [congruence |].
  rewrite Hsel in Hf. injection Hf as <-.
  exists data. split; [exact Hw |]. split.
  - destruct Hst as [[_ ->] | (h & _ & ->)].
    + now rewrite walk_set_entry.
    + rewrite walk_set_entry. cbn [String.eqb Ascii.eqb Bool.eqb].
      now rewrite walk_set_entry.
  - rewrite (walk_dist_entries cwd d _ _ Hd). cbn [walk].
    now destruct (assoc "bundle.js" d) as [[old | sub] |].
Qed.

Lemma vercel_ok_dir cwd : vercel_ok cwd = true -> exists top, cwd = Dir top.
Proof. destruct cwd as [d | top]; [discriminate | now exists top]. Qed.

(** Installing an output tree leaves every path that does not start with
    [.vercel/output] as it was. *)
Lemma walk_install_outside o cwd x p :
  vercel_ok cwd = true ->
  (x <> ".vercel" \/ exists y q, p = y :: q /\ y <> "output") ->
  walk (x :: p) (install o cwd) = walk (x :: p) cwd.
Proof.
  intros V H. destruct (vercel_ok_dir cwd V) as (top & ->).
  eqb_cases x ".vercel".
  - destruct H as [H | (y & q & -> & Hy)]; [congruence |].
    unfold install, vercel_ok in *. cbn [walk]. rewrite assoc_set_entry_same.
    rewrite assoc_app_other by assumption.
    destruct (assoc ".vercel" top) as [[d | v] |]; [discriminate | |].
    + now rewrite assoc_del_entry_other.
    + reflexivity.
  - now apply walk_install_other.
Qed.

(** A run on a ready input, with the lookups the claims need. *)
Lemma run fuel cwd :
  ready cwd = true -> wf cwd = true -> src_height cwd < fuel ->
  exists st s',
    plan cwd = Done st /\
    build fuel cwd = Ok tt s' /\
    s' = install (packaged st) cwd /\
    walk outputDir s' = Some (packaged st) /\
    (forall P, walk (join staticDir P) s' = walk P (Dir st)).
Proof.
  intros R W F.
  destruct (build_ready fuel cwd R (wf_wf_src cwd W) F) as (st & Hp & Hb).
  exists st, (install (packaged st) cwd).
  destruct (vercel_ok_dir cwd (ready_vercel_ok cwd R)) as (top & ->).
  repeat split; try assumption.
  - unfold outputDir. now rewrite walk_install_out.
  - intros P. apply walk_static. now right.
Qed.

End RunFacts.

(** ** Trees listed in ascending order *)

Module ListingFacts.
Import Fs Node Js Packager Plan Listing FsFacts BuildFacts RunFacts Utf8Facts.

(** Decoding leaves the names of a listed directory as they are, so the
    script is handed the listing as it is stored. *)
Lemma listed_names_text es :
  listed (Dir es) = true -> map Utf8.text (names es) = names es.
Proof.
  cbn [listed]. intros L. apply andb_prop in L as [L _].
  apply andb_prop in L as [L _]. rewrite forallb_forall in L.
  unfold names. rewrite <- (map_id (map fst es)) at 2.
  apply map_ext_in. intros x Hin. specialize (L x Hin).
  unfold name_ok in L. repeat (apply andb_prop in L as [L _]).
  now apply text_well_formed.
Qed.

Lemma compare_same a b : String.compare a b = String_as_OT.compare a b.
Proof.
  revert b. induction a as [| c a IH]; intros [| d b]; simpl; reflexivity.
Qed.

Lemma ltb_trans a b c :
  String.ltb a b = true -> String.ltb b c = true -> String.ltb a c = true.
Proof.
  unfold String.ltb.
  rewrite (compare_same a b), (compare_same b c), (compare_same a c). intros H1 H2.
  destruct (String_as_OT.compare a b) eqn:A; try discriminate H1.
  destruct (String_as_OT.compare b c) eqn:B; try discriminate H2.
  pose proof (@RelationClasses.StrictOrder_Transitive _ _
                String_as_OT.lt_strorder a b c A B) as T.
  unfold String_as_OT.lt in T. now rewrite T.
Qed.

Lemma ltb_irrefl a : String.ltb a a = false.
Proof.
  unfold String.ltb. rewrite compare_same.
  destruct (String_as_OT.compare a a) eqn:A; try reflexivity.
  exfalso.
  exact (@RelationClasses.StrictOrder_Irreflexive _ _ String_as_OT.lt_strorder a A).
Qed.

Lemma ascending_tail x l : ascending (x :: l) = true -> ascending l = true.
Proof.
  destruct l as [| y l]; [reflexivity |].
  cbn [ascending]. intros H. now apply andb_prop in H as [_ H].
Qed.

Lemma ascending_head x l :
  ascending (x :: l) = true -> forall y, In y l -> String.ltb x y = true.
Proof.
  revert x. induction l as [| z l IH]; intros x H y Hin; [contradiction |].
  cbn [ascending] in H. apply andb_prop in H as [Hxz Hl].
  destruct Hin as [<- | Hin]; [exact Hxz |].
  apply (ltb_trans x z y Hxz). now apply IH.
Qed.

(** Names in ascending order are pairwise different. *)
Lemma ascending_nodupb l : ascending l = true -> nodupb l = true.
Proof.
  induction l as [| x l IH]; intros H; [reflexivity |].
  cbn [nodupb]. rewrite (IH (ascending_tail x l H)), andb_true_r.
  apply negb_true_iff. destruct (existsb (String.eqb x) l) eqn:E; [| reflexivity].
  apply existsb_exists in E. destruct E as (y & Hin & Exy).
  apply String.eqb_eq in Exy. subst y.
  pose proof (ascending_head x l H x Hin) as Lt.
  rewrite ltb_irrefl in Lt. discriminate Lt.
Qed.

Lemma height_in e es : In e es -> height (snd e) < height (Dir es).
Proof.
  induction es as [| e' es IH]; [contradiction |].
  cbn [height fold_right]. intros [-> | Hin].
  - lia.
  - specialize (IH Hin). cbn [height] in IH. lia.
Qed.

Lemma listed_wf_below k : forall n, height n < k -> listed n = true -> wf n = true.
Proof.
  induction k as [| k IH]; intros n Hk L; [lia |].
  destruct n as [data | es]; [reflexivity |].
  cbn [listed] in L. apply andb_prop in L as [L L3]. apply andb_prop in L as [_ L2].
  cbn [wf]. rewrite (ascending_nodupb _ L2). cbn [andb].
  apply forallb_forall. intros e Hin.
  rewrite forallb_forall in L3.
  apply IH; [| now apply L3].
  pose proof (height_in e es Hin). lia.
Qed.

(** A tree listed in ascending order lists no name twice. *)
Lemma listed_wf n : listed n = true -> wf n = true.
Proof. apply (listed_wf_below (S (height n))). lia. Qed.

Lemma listed_src_wf cwd : listed_src cwd = true -> wf_src cwd = true.
Proof.
  unfold listed_src, wf_src.
  destruct (walk ["dist"] cwd) as [n |]; [apply listed_wf | reflexivity].
Qed.

(** A run on a ready input whose [dist] is listed in ascending order. *)
Lemma run_listed fuel cwd :
  ready cwd = true -> listed_src cwd = true -> src_height cwd < fuel ->
  exists st s',
    plan cwd = Done st /\
    build fuel cwd = Ok tt s' /\
    s' = install (packaged st) cwd /\
    walk outputDir s' = Some (packaged st) /\
    (forall P, walk (join staticDir P) s' = walk P (Dir st)).
Proof.
  intros R L F.
  destruct (build_ready fuel cwd R (listed_src_wf cwd L) F) as (st & Hp & Hb).
  exists st, (install (packaged st) cwd).
  destruct (vercel_ok_dir cwd (ready_vercel_ok cwd R)) as (top & ->).
  repeat split; try assumption.
  - unfold outputDir. now rewrite walk_install_out.
  - intros P. apply walk_static. now right.
Qed.

End ListingFacts.

(** ** The selection of the bundle against its specification *)

Module BundleFacts.
Import Js Packager BundleSpec RegexFacts.

Lemma prefix_iff p s :
  String.prefix p s = true <-> exists t, s = (p ++ t)%string.
Proof.
  revert s. induction p as [| c p IH]; intros s.
  - split; [intros _; now exists s | intros _; now destruct s].
  - destruct s as [| c' s]; simpl.
    + split; [discriminate | intros (t & E); discriminate].
    + destruct (ascii_dec c c') as [-> | Hne].
      * rewrite IH. split; intros (t & E); exists t; [now rewrite E | now injection E].
      * split; [discriminate | intros (t & E); injection E as E _; congruence].
Qed.

Lemma substring_all s : substring 0 (String.length s) s = s.
Proof. induction s as [| c s IH]; simpl; [reflexivity | now rewrite IH]. Qed.

Lemma substring_split s :
  forall n, n <= String.length s ->
    s = (substring 0 n s ++ substring n (String.length s - n) s)%string.
Proof.
  induction s as [| c s IH]; intros [| n] L.
  - reflexivity.
  - simpl in L. lia.
  - simpl. now rewrite substring_all.
  - simpl in *. rewrite <- IH by lia. reflexivity.
Qed.

Lemma substring_tail u p :
  substring (String.length u) (String.length p) (u ++ p) = p.
Proof. induction u as [| c u IH]; simpl; [apply substring_all | exact IH]. Qed.

Lemma endsWith_iff s p : endsWith s p = true <-> exists u, s = (u ++ p)%string.
Proof.
  unfold endsWith. split.
  - intros H. apply andb_prop in H as [L E].
    apply Nat.leb_le in L. apply String.eqb_eq in E.
    exists (substring 0 (String.length s - String.length p) s).
    pose proof (substring_split s (String.length s - String.length p)) as SP.
    replace (String.length s - (String.length s - String.length p))
      with (String.length p) in SP by lia.
    rewrite E in SP. apply SP. lia.
  - intros (u & ->). rewrite length_append.
    replace (String.length u + String.length p - String.length p)
      with (String.length u) by lia.
    rewrite substring_tail, String.eqb_refl, andb_true_r.
    apply Nat.leb_le. lia.
Qed.

Lemma isAppEntry_iff f : isAppEntry f = true <-> app_entry_name f.
Proof.
  unfold isAppEntry, app_entry_name, startsWith.
  now rewrite andb_true_iff, prefix_iff, endsWith_iff.
Qed.

(** [find] returns the first name of the listing that the specification
    accepts. *)
Lemma find_first_app_entry l f :
  find isAppEntry l = Some f <-> first_app_entry l f.
Proof.
  unfold find, first_app_entry. split.
  - induction l as [| g l IH]; simpl; [discriminate |].
    destruct (isAppEntry g) eqn:G.
    + intros [= ->]. exists [], l.
      split; [reflexivity | split; [now apply isAppEntry_iff | intros ? []]].
    + intros H. destruct (IH H) as (before & after & -> & Hf & Hb).
      exists (g :: before), after.
      split; [reflexivity | split; [assumption |]].
      intros g' [<- | Hin]; [| now apply Hb].
      intros Hg. apply isAppEntry_iff in Hg. congruence.
  - intros (before & after & -> & Hf & Hb).
    induction before as [| g before IH]; simpl.
    + apply isAppEntry_iff in Hf. now rewrite Hf.
    + destruct (isAppEntry g) eqn:G.
      * exfalso. apply (Hb g); [now left | now apply isAppEntry_iff].
      * apply IH. intros g' Hin. apply Hb. now right.
Qed.

End BundleFacts.

(** ** The claims *)

Module Claims.
Import Fs Node Js Packager Plan HtmlSpec BundleSpec ManifestSpec Samples Stated.
Import Listing Sites StatedHtml.
Import FsFacts CopyFacts FrameFacts BuildFacts RunFacts HtmlFacts BundleFacts.
Import Utf8Facts ListingFacts.

(** C6. The reset step regenerates the output: whatever was at
    [.vercel/output] before (nothing, a file, a directory with nested
    files), after the step the output root is a directory that holds the
    two empty directories [static] and [config] and nothing else.  The
    step runs whenever [.vercel] itself is absent or a directory. *)
Theorem reset_regenerates_output cwd :
  vercel_ok cwd = true ->
  exists s1,
    reset cwd = Ok tt s1 /\
    walk outputDir s1 = Some (Dir [("static", Dir []); ("config", Dir [])]).
Proof.
  intros V. destruct (vercel_ok_dir cwd V) as (top & ->).
  exists (install (skeleton []) (Dir top)). split.
  - now apply reset_spec.
  - unfold outputDir. now rewrite walk_install_out.
Qed.

Lemma reset_regenerates_output_witness :
  vercel_ok project = true /\
  walk (join staticDir ["stale.js"]) project = Some (File "stale") /\
  exists s1,
    reset project = Ok tt s1 /\
    walk outputDir s1 = Some (Dir [("static", Dir []); ("config", Dir [])]).
Proof.
  split; [reflexivity | split; [reflexivity |]].
  apply (reset_regenerates_output project). reflexivity.
Defined.

(** C8. After a complete run the directory [.vercel/output/config] exists
    and is empty, and the manifest is the file
    [.vercel/output/config.json], directly under the output root. *)
Theorem config_directory_stays_empty fuel cwd :
  ready cwd = true -> wf cwd = true -> src_height cwd < fuel ->
  exists s',
    build fuel cwd = Ok tt s' /\
    walk (join outputDir ["config"]) s' = Some (Dir []) /\
    walk (join outputDir ["config.json"]) s' = Some (File (Json.stringify config 2)) /\
    walk (join outputDir ["config"; "config.json"]) s' = None.
Proof.
  intros R W F. destruct (run fuel cwd R W F) as (st & s' & Hp & Hb & Es & Ho & Hs).
  exists s'. split; [exact Hb |].
  unfold join. rewrite !walk_app, Ho. now repeat split.
Qed.

Lemma config_directory_stays_empty_witness :
  ready project = true /\ wf project = true /\ src_height project < 6 /\
  exists s',
    build 6 project = Ok tt s' /\
    walk (join outputDir ["config"]) s' = Some (Dir []) /\
    walk (join outputDir ["config.json"]) s' = Some (File (Json.stringify config 2)) /\
    walk (join outputDir ["config"; "config.json"]) s' = None.
Proof.
  assert (F : src_height project < 6) by (apply Nat.ltb_lt; reflexivity).
  split; [reflexivity | split; [reflexivity | split; [exact F |]]].
  apply (config_directory_stays_empty 6 project); [reflexivity | reflexivity | exact F].
Defined.

(** C4. The manifest is written to [.vercel/output/config.json], a
    sibling of [static]: its text is the document of section 6 laid out
    with two spaces per level, it parses back to that document (version 3
    and the four routes in order, with the cache-control value), and the
    write puts nothing into [static], where a [config.json] is found only
    as the copy of one in [dist]. *)
Theorem manifest_exact fuel cwd :
  ready cwd = true -> wf cwd = true -> src_height cwd < fuel ->
  exists s',
    build fuel cwd = Ok tt s' /\
    walk (join outputDir ["config.json"]) s' = Some (File manifest_text) /\
    Json.parse manifest_text = Some manifest /\
    walk (join staticDir ["config.json"]) s' = walk ["dist"; "config.json"] cwd.
Proof.
  intros R W F. destruct (run fuel cwd R W F) as (st & s' & Hp & Hb & Es & Ho & Hs).
  exists s'. split; [exact Hb |]. split; [| split].
  - unfold join. rewrite walk_app, Ho. reflexivity.
  - vm_compute. reflexivity.
  - rewrite Hs. apply (static_other cwd st _ _ Hp); discriminate.
Qed.

Lemma manifest_exact_witness :
  ready project = true /\ wf project = true /\ src_height project < 6 /\
  exists s',
    build 6 project = Ok tt s' /\
    walk (join outputDir ["config.json"]) s' = Some (File manifest_text) /\
    Json.parse manifest_text = Some manifest /\
    walk (join staticDir ["config.json"]) s' = walk ["dist"; "config.json"] project.
Proof.
  assert (F : src_height project < 6) by (apply Nat.ltb_lt; reflexivity).
  split; [reflexivity | split; [reflexivity | split; [exact F |]]].
  apply (manifest_exact 6 project); [reflexivity | reflexivity | exact F].
Defined.

Lemma occurs_eq t s :
  occurs t s =
  String.prefix t s ||
  match s with
  | String _ s' => occurs t s'
  | EmptyString => false
  end.
Proof. now destruct s. Qed.

Lemma contains_occurs s t : contains s t -> occurs t s = true.
Proof.
  intros (pre & post & ->). induction pre as [| c pre IH].
  - cbn [append]. rewrite occurs_eq.
    rewrite (proj2 (prefix_iff t (t ++ post)%string)); [reflexivity | now exists post].
  - cbn [append occurs]. rewrite IH. apply orb_true_r.
Qed.

(** C3, as first worded, fails in its example.  The page of [decoy] has
    the script tag of the example, but the first occurrence of the
    attribute is the [data-src] of the tag before it: that one is
    replaced, and the page comes out without [<script src="/bundle.js">]. *)
Lemma tag_rewritten_fails : ~ tag_rewritten 2 decoy.
Proof.
  intros H.
  destruct (run 2 decoy eq_refl eq_refl) as (st & s' & Hp & Hb & Es & Ho & Hs);
    [apply Nat.ltb_lt; reflexivity |].
  destruct (H s' (linkTag ++ scriptTag)%string Hb eq_refl) as (out & Hout & Hc).
  - exists linkTag, "". reflexivity.
  - unfold indexPath in Hout.
    rewrite Hs, (static_index decoy st _ Hp eq_refl eq_refl) in Hout.
    injection Hout as <-. apply contains_occurs in Hc.
    vm_compute in Hc. discriminate Hc.
Qed.

(** C3, amended.  When [index.html] is at the root of [static] (as the
    copy of the one in [dist]) and its bytes are well-formed UTF-8, the
    run leaves there the text in which the first occurrence of an
    attribute [src="...AppEntry...js"] is replaced by [src="/bundle.js"]
    and nothing else is changed; a text without an occurrence is left as
    it is.  A page in which the first occurrence is the attribute of
    [<script src="/_expo/static/js/web/AppEntry-abc123.js">] comes out
    with [<script src="/bundle.js">] in its place, the text on both sides
    being the same.  (The tree at [dist] is one that [fs.readdirSync]
    reports as it is stored.) *)
Theorem index_html_rewrite fuel cwd html :
  ready cwd = true -> listed_src cwd = true -> src_height cwd < fuel ->
  walk ["dist"; "index.html"] cwd = Some (File html) ->
  Utf8.well_formed html = true ->
  exists s',
    build fuel cwd = Ok tt s' /\
    walk indexPath s' = Some (File (rewriteHtml html)) /\
    (forall pre m post,
        first_occurrence html pre m post ->
        walk indexPath s' = Some (File (pre ++ bundleSrc ++ post)%string)) /\
    (no_occurrence html -> walk indexPath s' = Some (File html)) /\
    ((exists pre m post, first_occurrence html pre m post) \/ no_occurrence html) /\
    (forall pre post,
        html = (pre ++ scriptTag ++ post)%string ->
        (forall pre' m' post',
            occurs_at html pre' m' post' ->
            String.length (pre ++ "<script ") <= String.length pre') ->
        walk indexPath s' = Some (File (pre ++ bundleTag ++ post)%string)).
Proof.
  intros R L F Hi U.
  destruct (run_listed fuel cwd R L F) as (st & s' & Hp & Hb & Es & Ho & Hs).
  assert (I : walk indexPath s' = Some (File (rewriteHtml html))).
  { unfold indexPath. rewrite Hs. now apply (static_index cwd st html Hp). }
  exists s'. split; [exact Hb |]. split; [exact I |]. rewrite I.
  split; [| split; [| split]].
  - intros pre m post Hf. now rewrite (rewriteHtml_first html pre m post Hf).
  - intros Hn. now rewrite (rewriteHtml_none html Hn).
  - apply first_occurrence_dec.
  - intros pre post E Hmin.
    rewrite (rewriteHtml_first html (pre ++ "<script ")
               ("src=" ++ quoted "/_expo/static/js/web/AppEntry-abc123.js")
               (">" ++ post)).
    + unfold bundleTag, bundleSrc. now rewrite !RegexFacts.append_assoc.
    + split; [split |].
      * rewrite E. unfold scriptTag. now rewrite !RegexFacts.append_assoc.
      * exists "/_expo/static/js/web/", "-abc123". now repeat split.
      * exact Hmin.
Qed.

Lemma index_html_rewrite_witness :
  ready site = true /\ listed_src site = true /\ src_height site < 6 /\
  walk ["dist"; "index.html"] site = Some (File scriptTag) /\
  Utf8.well_formed scriptTag = true /\
  exists s',
    build 6 site = Ok tt s' /\
    walk indexPath s' = Some (File bundleTag).
Proof.
  assert (F : src_height site < 6) by (apply Nat.ltb_lt; reflexivity).
  split; [reflexivity | split; [reflexivity | split; [exact F |]]].
  split; [reflexivity | split; [reflexivity |]].
  destruct (index_html_rewrite 6 site scriptTag eq_refl eq_refl F eq_refl eq_refl)
    as (s' & Hb & Hi & _).
  exists s'. split; [exact Hb | exact Hi].
Defined.

Lemma selected_first_app_entry cwd es f :
  walk jsDir cwd = Some (Dir es) ->
  (selected cwd = Some f <-> first_app_entry (names es) f).
Proof.
  intros J. unfold selected. rewrite J. apply find_first_app_entry.
Qed.

(** C2. When the nested directory exists, the entry the script selects is
    the first of the listing whose name starts with [AppEntry] and ends
    with [.js]; that entry is a regular file and [bundle.js] at the root
    of [static] has its bytes.  In particular, when the directory holds
    the one file [AppEntry-<hash>.js], [bundle.js] has the bytes of that
    file.  The names under [dist] are well-formed UTF-8 and listed in
    ascending order, so that the listing the script gets is the listing
    of the directory. *)
Theorem bundle_promotion fuel cwd es :
  ready cwd = true -> listed_src cwd = true -> src_height cwd < fuel ->
  walk jsDir cwd = Some (Dir es) ->
  exists s',
    build fuel cwd = Ok tt s' /\
    (forall f, selected cwd = Some f <-> first_app_entry (names es) f) /\
    (forall f,
        first_app_entry (names es) f ->
        exists data,
          walk (join jsDir [f]) cwd = Some (File data) /\
          walk (join staticDir ["bundle.js"]) s' = Some (File data)) /\
    (forall hash data,
        es = [(("AppEntry-" ++ hash ++ ".js")%string, File data)] ->
        walk (join staticDir ["bundle.js"]) s' = Some (File data)).
Proof.
  intros R L F J.
  destruct (run_listed fuel cwd R L F) as (st & s' & Hp & Hb & Es & Ho & Hs).
  exists s'. split; [exact Hb |].
  assert (G : forall f, first_app_entry (names es) f ->
              exists data,
                walk (join jsDir [f]) cwd = Some (File data) /\
                walk (join staticDir ["bundle.js"]) s' = Some (File data)).
  { intros f Hf. apply (selected_first_app_entry cwd es f J) in Hf.
    destruct (static_bundle_some cwd st f Hp Hf) as (data & Hw & Hbun & _).
    exists data. split; [exact Hw | now rewrite Hs]. }
  split; [intros f; now apply selected_first_app_entry |].
  split; [exact G |].
  intros hash data ->.
  destruct (G ("AppEntry-" ++ hash ++ ".js")%string) as (data' & Hw & Hbun).
  - exists [], []. split; [reflexivity |]. split; [| intros ? []].
    split; [now exists ("-" ++ hash ++ ".js")%string |].
    exists ("AppEntry-" ++ hash)%string.
    now rewrite !RegexFacts.append_assoc.
  - rewrite walk_js_child, J in Hw. cbn [assoc] in Hw.
    rewrite String.eqb_refl in Hw. injection Hw as ->. exact Hbun.
Qed.

Lemma bundle_promotion_witness :
  ready site = true /\ listed_src site = true /\ src_height site < 6 /\
  walk jsDir site =
    Some (Dir [("AppEntry-abc123.js", File "console.log(1)"); ("notes.txt", File "n")]) /\
  exists s',
    build 6 site = Ok tt s' /\
    walk (join staticDir ["bundle.js"]) s' = Some (File "console.log(1)").
Proof.
  assert (F : src_height site < 6) by (apply Nat.ltb_lt; reflexivity).
  split; [reflexivity | split; [reflexivity | split; [exact F |]]].
  split; [reflexivity |].
  destruct (bundle_promotion 6 site _ eq_refl eq_refl F eq_refl)
    as (s' & Hb & Hsel & Hfirst & _).
  exists s'. split; [exact Hb |].
  destruct (Hfirst "AppEntry-abc123.js" (proj1 (Hsel _) eq_refl)) as (data & Hw & Hbun).
  injection Hw as <-. exact Hbun.
Defined.

Lemma build_split fuel cwd :
  build fuel cwd = ((reset ;; mirror fuel) ;; (promote ;; rewrite ;; emit)) cwd.
Proof. unfold build, bind. now destruct (reset cwd). Qed.

(** C10. When [dist] has a root-level file [bundle.js] of its own and a
    bundle is found at the nested path, the mirror step first copies the
    file of [dist] to [static/bundle.js], the promotion step then
    overwrites it, and the run ends with the bytes of the promoted
    bundle there.  The names under [dist] are well-formed UTF-8 and
    listed in ascending order. *)
Theorem promotion_overwrites_mirrored_bundle fuel cwd es f old data :
  ready cwd = true -> listed_src cwd = true -> src_height cwd < fuel ->
  walk ["dist"; "bundle.js"] cwd = Some (File old) ->
  walk jsDir cwd = Some (Dir es) ->
  first_app_entry (names es) f ->
  walk (join jsDir [f]) cwd = Some (File data) ->
  exists s1 s',
    (reset ;; mirror fuel) cwd = Ok tt s1 /\
    walk (join staticDir ["bundle.js"]) s1 = Some (File old) /\
    (promote ;; rewrite ;; emit) s1 = Ok tt s' /\
    build fuel cwd = Ok tt s' /\
    walk (join staticDir ["bundle.js"]) s' = Some (File data).
Proof.
  intros R L F Hold J Hf Hdata.
  destruct (run_listed fuel cwd R L F) as (st & s' & Hp & Hb & Es & Ho & Hs).
  destruct (vercel_ok_dir cwd (ready_vercel_ok cwd R)) as (top & ->).
  rewrite walk_dist_child in Hold.
  destruct (walk ["dist"] (Dir top)) as [[x | d] |] eqn:D; try discriminate.
  assert (H1 : (reset ;; mirror fuel) (Dir top) = Ok tt (install (skeleton d) (Dir top))).
  { unfold bind. rewrite (reset_spec top (ready_vercel_ok _ R)).
    rewrite (mirror_spec fuel top (listed_src_wf _ L)).
    unfold src_height, mirrored. rewrite D.
    unfold src_height in F. rewrite D in F. apply Nat.ltb_lt in F. now rewrite F. }
  exists (install (skeleton d) (Dir top)), s'.
  split; [exact H1 |]. split; [| split; [| split; [exact Hb |]]].
  - rewrite (walk_static _ d) by now left. cbn [walk]. now rewrite Hold.
  - rewrite build_split in Hb. unfold bind at 1 in Hb. now rewrite H1 in Hb.
  - apply (selected_first_app_entry _ es f J) in Hf.
    destruct (static_bundle_some _ st f Hp Hf) as (data' & Hw & Hbun & _).
    rewrite Hs, Hbun. congruence.
Qed.

Lemma promotion_overwrites_mirrored_bundle_witness :
  ready site = true /\ listed_src site = true /\ src_height site < 6 /\
  walk ["dist"; "bundle.js"] site = Some (File "old") /\
  exists s1 s',
    (reset ;; mirror 6) site = Ok tt s1 /\
    walk (join staticDir ["bundle.js"]) s1 = Some (File "old") /\
    (promote ;; rewrite ;; emit) s1 = Ok tt s' /\
    build 6 site = Ok tt s' /\
    walk (join staticDir ["bundle.js"]) s' = Some (File "console.log(1)").
Proof.
  assert (F : src_height site < 6) by (apply Nat.ltb_lt; reflexivity).
  split; [reflexivity | split; [reflexivity | split; [exact F |]]].
  split; [reflexivity |].
  apply (promotion_overwrites_mirrored_bundle 6 site
           [("AppEntry-abc123.js", File "console.log(1)"); ("notes.txt", File "n")]
           "AppEntry-abc123.js" "old" "console.log(1)");
    try reflexivity; [exact F |].
  apply find_first_app_entry. reflexivity.
Defined.

Lemma walk_through_dir p y q n m :
  walk (p ++ y :: q) n = Some m -> is_dir (walk p n) = true.
Proof.
  rewrite walk_app. destruct (walk p n) as [[data | es] |]; [| reflexivity |]; discriminate.
Qed.

(** C1, as first worded, fails on the sample project: the entry page of
    [dist] and the one under [static] differ after the run. *)
Lemma mirrored_after_run_fails : ~ mirrored_after_run 6 project.
Proof.
  intros H.
  destruct (run 6 project eq_refl eq_refl) as (st & s' & Hp & Hb & Es & Ho & Hs);
    [apply Nat.ltb_lt; reflexivity |].
  specialize (H s' ["index.html"] scriptTag Hb eq_refl).
  rewrite Hs, (static_index project st scriptTag Hp eq_refl eq_refl) in H.
  discriminate H.
Qed.

(** C1, amended.  After a complete run every file of [dist] has a file at
    the same path under [static], the names under [dist] being
    well-formed UTF-8 and listed in ascending order (as
    [fs.readdirSync] reports them).  Its bytes are those of the source,
    except at the two root-level paths that later steps write:
    [index.html], when its bytes are well-formed UTF-8, holds the text
    after the rewrite of the [src] attribute, and [bundle.js] holds the
    promoted bundle when one is selected (the bytes of the source
    otherwise). *)
Theorem mirror_completeness fuel cwd :
  ready cwd = true -> listed_src cwd = true -> src_height cwd < fuel ->
  exists s',
    build fuel cwd = Ok tt s' /\
    forall P data,
      walk ("dist" :: P) cwd = Some (File data) ->
      is_file (walk (join staticDir P) s') = true /\
      (P <> ["index.html"] -> P <> ["bundle.js"] ->
       walk (join staticDir P) s' = Some (File data)) /\
      (P = ["index.html"] -> Utf8.well_formed data = true ->
       walk (join staticDir P) s' = Some (File (rewriteHtml data))) /\
      (P = ["bundle.js"] ->
       match selected cwd with
       | Some f => walk (join staticDir P) s' = walk (join jsDir [f]) cwd
       | None => walk (join staticDir P) s' = Some (File data)
       end).
Proof.
  intros R L F.
  destruct (run_listed fuel cwd R L F) as (st & s' & Hp & Hb & Es & Ho & Hs).
  exists s'. split; [exact Hb |]. intros P data HP.
  assert (A1 : P <> ["index.html"] -> P <> ["bundle.js"] ->
               walk (join staticDir P) s' = Some (File data)).
  { intros Hi Hbu. rewrite Hs. destruct P as [| x p].
    + exfalso. unfold ready in R.
      apply andb_prop in R as [R _]. apply andb_prop in R as [R _].
      apply andb_prop in R as [R _]. apply andb_prop in R as [_ R].
      rewrite HP in R. discriminate R.
    + eqb_cases x "index.html".
      { destruct p as [| y q]; [congruence |].
        exfalso. eapply static_index_sub; eauto. }
      eqb_cases x "bundle.js".
      { destruct p as [| y q]; [congruence |].
        destruct (selected cwd) as [f |] eqn:Sel.
        - exfalso. destruct (static_bundle_some cwd st f Hp Sel) as (d' & _ & _ & Hnd).
          change ("dist" :: "bundle.js" :: y :: q)
            with (["dist"; "bundle.js"] ++ y :: q) in HP.
          apply walk_through_dir in HP. congruence.
        - now rewrite (static_bundle_none cwd st _ Hp Sel). }
      now rewrite (static_other cwd st x p Hp). }
  assert (A2 : P = ["index.html"] ->
               walk (join staticDir P) s' =
               Some (File (rewriteHtml (Utf8.text data)))).
  { intros ->. rewrite Hs. now apply (static_index_text cwd st data Hp). }
  assert (A3 : P = ["bundle.js"] ->
               match selected cwd with
               | Some f => walk (join staticDir P) s' = walk (join jsDir [f]) cwd
               | None => walk (join staticDir P) s' = Some (File data)
               end).
  { intros ->. rewrite Hs. destruct (selected cwd) as [f |] eqn:Sel.
    + destruct (static_bundle_some cwd st f Hp Sel) as (d' & Hw & Hbun & _).
      now rewrite Hw, Hbun.
    + now rewrite (static_bundle_none cwd st _ Hp Sel). }
  split; [| split; [exact A1 | split; [| exact A3]]];
    [| intros E U; rewrite (A2 E); now rewrite (text_well_formed data U)].
  destruct (list_eq_dec string_dec P ["index.html"]) as [E | N1];
    [now rewrite (A2 E) |].
  destruct (list_eq_dec string_dec P ["bundle.js"]) as [E | N2];
    [| now rewrite (A1 N1 N2)].
  specialize (A3 E). destruct (selected cwd) as [f |] eqn:Sel.
  - destruct (static_bundle_some cwd st f Hp Sel) as (d' & Hw & _).
    now rewrite A3, Hw.
  - now rewrite A3.
Qed.

Lemma mirror_completeness_witness :
  ready site = true /\ listed_src site = true /\ src_height site < 6 /\
  Utf8.well_formed scriptTag = true /\
  exists s',
    build 6 site = Ok tt s' /\
    walk (join staticDir ["assets"; "logo.svg"]) s' = Some (File "<svg/>") /\
    walk (join staticDir ["index.html"]) s' = Some (File bundleTag) /\
    walk (join staticDir ["bundle.js"]) s' = Some (File "console.log(1)").
Proof.
  assert (F : src_height site < 6) by (apply Nat.ltb_lt; reflexivity).
  split; [reflexivity | split; [reflexivity | split; [exact F |]]].
  split; [reflexivity |].
  destruct (mirror_completeness 6 site eq_refl eq_refl F) as (s' & Hb & H).
  exists s'. split; [exact Hb |]. split; [| split].
  - destruct (H ["assets"; "logo.svg"] "<svg/>" eq_refl) as (_ & H1 & _).
    apply H1; discriminate.
  - destruct (H ["index.html"] scriptTag eq_refl) as (_ & _ & H2 & _).
    now apply H2.
  - destruct (H ["bundle.js"] "old" eq_refl) as (_ & _ & _ & H3).
    now apply H3.
Defined.

Lemma nothing_to_promote_selected cwd :
  nothing_to_promote cwd -> selected cwd = None.
Proof.
  unfold selected. intros [J | (es & J & Hno)]; rewrite J; [reflexivity |].
  destruct (find isAppEntry (names es)) as [f |] eqn:Fi; [| reflexivity].
  exfalso. apply find_first_app_entry in Fi.
  destruct Fi as (before & after & E & Hf & _).
  apply (Hno f); [| exact Hf]. rewrite E. apply in_or_app. right. now left.
Qed.

(** C5, as first worded, fails on the sample without a nested directory:
    the run completes, and [static] holds the [bundle.js] of [dist]. *)
Lemma no_bundle_after_skip_fails : ~ no_bundle_after_skip 2 plain.
Proof.
  intros H. destruct H as (s' & Hb & Hn); [now left |].
  destruct (run 2 plain eq_refl eq_refl) as (st & s2 & Hp & Hb2 & Es & Ho & Hs);
    [apply Nat.ltb_lt; reflexivity |].
  rewrite Hb2 in Hb. injection Hb as <-.
  rewrite Hs in Hn.
  rewrite (static_bundle_none plain st [] Hp eq_refl) in Hn.
  discriminate Hn.
Qed.

(** C5, amended.  Absence is skipped, not raised: without [dist] the
    mirror step changes nothing and [static] stays empty; without the
    nested directory, or without a qualifying name in it, nothing is
    promoted; the run still completes and writes the manifest.  The root
    of [static] then has a [bundle.js] exactly when [dist] has one, the
    copy of it.  (The run is on a ready input: none of its calls falls on
    a regular file where it needs a directory, or the reverse.) *)
Theorem absence_is_skipped fuel cwd :
  ready cwd = true -> wf cwd = true -> src_height cwd < fuel ->
  nothing_to_promote cwd ->
  exists s',
    build fuel cwd = Ok tt s' /\
    walk (join staticDir ["bundle.js"]) s' = walk ["dist"; "bundle.js"] cwd /\
    walk (join outputDir ["config.json"]) s' = Some (File manifest_text) /\
    (walk ["dist"] cwd = None -> walk staticDir s' = Some (Dir [])) /\
    (forall s, walk ["dist"] s = None -> mirror fuel s = Ok tt s) /\
    (forall s, walk jsDir s = None -> promote s = Ok tt s).
Proof.
  intros R W F N. destruct (run fuel cwd R W F) as (st & s' & Hp & Hb & Es & Ho & Hs).
  pose proof (nothing_to_promote_selected cwd N) as Sel.
  exists s'. split; [exact Hb |]. split; [| split; [| split; [| split]]].
  - rewrite Hs. apply (static_bundle_none cwd st [] Hp Sel).
  - unfold join. rewrite walk_app, Ho. reflexivity.
  - intros D. rewrite <- (app_nil_r staticDir). fold (join staticDir []).
    rewrite Hs. cbn [walk].
    destruct (plan_done cwd st Hp) as (d & s2 & Hd & Hs2 & Hst).
    destruct Hd as [Hd | [_ ->]]; [congruence |].
    destruct Hs2 as [[_ ->] | (f & data & Hf & _)]; [| congruence].
    destruct Hst as [[_ ->] | (h & Hh & _)]; [reflexivity | discriminate Hh].
  - intros s D. unfold mirror. destruct fuel as [| f]; [lia |].
    cbn [copyRecursive]. unfold bind, existsSync. now rewrite D.
  - intros s J. unfold promote, bind, existsSync. now rewrite J.
Qed.

Lemma absence_is_skipped_witness :
  ready empty = true /\ wf empty = true /\ src_height empty < 1 /\
  nothing_to_promote empty /\
  exists s',
    build 1 empty = Ok tt s' /\
    walk (join staticDir ["bundle.js"]) s' = None /\
    walk staticDir s' = Some (Dir []).
Proof.
  assert (F : src_height empty < 1) by (apply Nat.ltb_lt; reflexivity).
  assert (N : nothing_to_promote empty) by (left; reflexivity).
  split; [reflexivity | split; [reflexivity | split; [exact F | split; [exact N |]]]].
  destruct (absence_is_skipped 1 empty eq_refl eq_refl F N)
    as (s' & Hb & Hbun & _ & Hst & _).
  exists s'. split; [exact Hb |]. split; [exact Hbun | now apply Hst].
Defined.

Lemma install_dist o cwd p :
  vercel_ok cwd = true -> walk ("dist" :: p) (install o cwd) = walk ("dist" :: p) cwd.
Proof. intros V. apply walk_install_outside; [exact V | left; discriminate]. Qed.

Lemma vercel_ok_install o cwd :
  vercel_ok cwd = true -> vercel_ok (install o cwd) = true.
Proof.
  intros V. destruct (vercel_ok_dir cwd V) as (top & ->).
  unfold install, vercel_ok. now rewrite assoc_set_entry_same.
Qed.

Lemma selected_install o cwd :
  vercel_ok cwd = true -> selected (install o cwd) = selected cwd.
Proof.
  intros V. unfold selected, jsDir, join. cbn [app]. now rewrite install_dist.
Qed.

Lemma plan_install o cwd :
  vercel_ok cwd = true -> plan (install o cwd) = plan cwd.
Proof.
  intros V. unfold plan, mirrored, promoted, jsDir, join. cbn [app].
  now rewrite !install_dist.
Qed.

Lemma ready_install o cwd : ready cwd = true -> ready (install o cwd) = true.
Proof.
  intros R. pose proof (ready_vercel_ok cwd R) as V.
  rewrite <- R. unfold ready.
  rewrite (selected_install o cwd V), (vercel_ok_install o cwd V), V.
  unfold jsDir, join. cbn [app]. rewrite !(install_dist o cwd _ V).
  destruct (selected cwd) as [f |]; [| reflexivity].
  now rewrite (install_dist o cwd _ V).
Qed.

(** C7. Two runs in a row over the same [dist]: the second run completes
    as the first did and leaves the very same tree under
    [.vercel/output]; indeed it leaves the whole working directory as
    the first run left it. *)
Theorem second_run_changes_nothing fuel cwd :
  ready cwd = true -> wf cwd = true -> src_height cwd < fuel ->
  exists s1 s2,
    build fuel cwd = Ok tt s1 /\
    build fuel s1 = Ok tt s2 /\
    walk outputDir s2 = walk outputDir s1 /\
    s2 = s1.
Proof.
  intros R W F. destruct (run fuel cwd R W F) as (st & s1 & Hp & Hb & Es & Ho & Hs).
  pose proof (ready_vercel_ok cwd R) as V.
  assert (H2 : build fuel s1 = Ok tt s1).
  { destruct (build_ready fuel s1) as (st2 & Hp2 & Hb2).
    - rewrite Es. now apply ready_install.
    - rewrite Es. unfold wf_src. rewrite (install_dist _ cwd [] V).
      now apply wf_wf_src.
    - rewrite Es. unfold src_height. now rewrite (install_dist _ cwd [] V).
    - rewrite Es in Hp2. rewrite (plan_install _ cwd V), Hp in Hp2.
      injection Hp2 as <-. rewrite Hb2, Es.
      destruct (vercel_ok_dir cwd V) as (top & ->).
      now rewrite install_install. }
  exists s1, s1. now repeat split.
Qed.

Lemma second_run_changes_nothing_witness :
  ready project = true /\ wf project = true /\ src_height project < 6 /\
  exists s1 s2,
    build 6 project = Ok tt s1 /\
    build 6 s1 = Ok tt s2 /\
    walk outputDir s2 = walk outputDir s1 /\
    s2 = s1.
Proof.
  assert (F : src_height project < 6) by (apply Nat.ltb_lt; reflexivity).
  split; [reflexivity | split; [reflexivity | split; [exact F |]]].
  apply (second_run_changes_nothing 6 project); [reflexivity | reflexivity | exact F].
Defined.

(** C9. A run never modifies [dist]: on every working directory, whether
    the run completes or a call raises, the tree at [dist] is afterwards
    what it was, as is every other path that does not lie under
    [.vercel/output], where all the writes go.  (The model reports
    exhausted fuel only when the fuel does not exceed the depth of a
    well-formed [dist].) *)
Theorem source_is_never_modified fuel cwd :
  match build fuel cwd with
  | Ok _ s' | Throw s' =>
      walk ["dist"] s' = walk ["dist"] cwd /\ same_outside cwd s'
  | OutOfFuel => wf cwd = true -> fuel <= src_height cwd
  end.
Proof.
  pose proof (keeps_build fuel cwd) as K.
  destruct (build fuel cwd) as [[] s' | s' |] eqn:B.
  - split; [apply K; left; discriminate | exact K].
  - split; [apply K; left; discriminate | exact K].
  - intros W. rewrite (build_spec fuel cwd (wf_wf_src cwd W)) in B.
    unfold expected in B.
    destruct (vercel_ok cwd); [| discriminate B].
    destruct (Nat.ltb_spec (src_height cwd) fuel) as [L | L]; [| exact L].
    destruct (plan cwd); discriminate B.
Qed.

Lemma source_is_never_modified_witness :
  exists s',
    build 6 project = Ok tt s' /\
    walk ["dist"] s' = walk ["dist"] project.
Proof.
  pose proof (source_is_never_modified 6 project) as H.
  destruct (build 6 project) as [[] s' | s' |] eqn:B.
  - exists s'. split; [reflexivity | exact (proj1 H)].
  - exfalso. vm_compute in B. discriminate B.
  - exfalso. vm_compute in B. discriminate B.
Defined.

End Claims.

(** ** More about the script: how it fails, what it leaves, what it copies *)

Module Extras.
Import Fs Node Js Packager Plan HtmlSpec BundleSpec ManifestSpec Samples MoreSamples.
Import Listing Sites.
Import FsFacts CopyFacts FrameFacts BuildFacts RunFacts RegexFacts HtmlFacts BundleFacts.
Import ListingFacts.

Lemma not_ready_crashes cwd :
  vercel_ok cwd = true -> ready cwd = false -> exists st, plan cwd = Crashed st.
Proof.
  intros V R. destruct (plan cwd) as [st | st] eqn:Hp; [| now exists st].
  rewrite (plan_ready cwd st V Hp) in R. discriminate R.
Qed.

Lemma plan_same_dist c1 c2 :
  walk ["dist"] c1 = walk ["dist"] c2 -> plan c1 = plan c2.
Proof.
  intros E. unfold plan, mirrored, promoted, jsDir, join.
  now rewrite !walk_app, E.
Qed.

Lemma walk_packaged_out st cwd p :
  vercel_ok cwd = true ->
  walk (join outputDir p) (install (packaged st) cwd) = walk p (packaged st).
Proof.
  intros V. destruct (vercel_ok_dir cwd V) as (top & ->).
  unfold outputDir, join. cbn [app]. apply walk_install_out.
Qed.

Lemma walk_skeleton_out st cwd p :
  vercel_ok cwd = true ->
  walk (join outputDir p) (install (skeleton st) cwd) = walk p (skeleton st).
Proof.
  intros V. destruct (vercel_ok_dir cwd V) as (top & ->).
  unfold outputDir, join. cbn [app]. apply walk_install_out.
Qed.

(** X1. With the tree at [dist] listed in ascending order under names
    that are well-formed UTF-8, and enough fuel, the script runs to its
    last line exactly on the ready working directories: [.vercel], [dist]
    and the nested directory are not regular files, the selected entry is
    a regular file that is not copied onto a directory, and [index.html]
    is not a directory.  On every other working directory a call raises. *)
Theorem completes_exactly_when_ready fuel cwd :
  listed_src cwd = true -> src_height cwd < fuel ->
  ((exists s', build fuel cwd = Ok tt s') <-> ready cwd = true) /\
  (ready cwd = false -> exists s', build fuel cwd = Throw s').
Proof.
  intros L F. pose proof (listed_src_wf cwd L) as Ws. split.
  - now apply build_completes_iff.
  - intros R. rewrite (build_spec fuel cwd Ws). unfold expected.
    destruct (vercel_ok cwd) eqn:V; [| now exists cwd].
    apply Nat.ltb_lt in F. rewrite F.
    destruct (not_ready_crashes cwd V R) as (st & ->). eauto.
Qed.

Lemma completes_exactly_when_ready_witness :
  listed_src nested = true /\ src_height nested < 6 /\ ready nested = false /\
  exists s', build 6 nested = Throw s'.
Proof.
  assert (F : src_height nested < 6) by (apply Nat.ltb_lt; reflexivity).
  split; [reflexivity | split; [exact F | split; [reflexivity |]]].
  apply (completes_exactly_when_ready 6 nested eq_refl F). reflexivity.
Defined.

(** X2. A run that raises after the reset has already deleted the
    previous output and never writes the manifest: what is left under
    [.vercel/output] is [static] (as far as it was filled) and the empty
    [config], with no [config.json], and [dist] as it was. *)
Theorem failed_run_leaves_no_manifest fuel cwd :
  vercel_ok cwd = true -> wf cwd = true -> src_height cwd < fuel ->
  ready cwd = false ->
  exists s' st,
    build fuel cwd = Throw s' /\
    walk outputDir s' = Some (Dir [("static", Dir st); ("config", Dir [])]) /\
    walk (join outputDir ["config.json"]) s' = None /\
    walk ["dist"] s' = walk ["dist"] cwd.
Proof.
  intros V W F R. destruct (not_ready_crashes cwd V R) as (st & Hp).
  exists (install (skeleton st) cwd), st.
  rewrite (build_spec fuel cwd (wf_wf_src cwd W)). unfold expected.
  apply Nat.ltb_lt in F. rewrite V, F, Hp.
  split; [reflexivity |]. split; [| split].
  - rewrite <- (app_nil_r outputDir). fold (join outputDir []).
    now rewrite walk_skeleton_out.
  - now rewrite walk_skeleton_out.
  - apply walk_install_outside; [exact V | left; discriminate].
Qed.

Lemma failed_run_leaves_no_manifest_witness :
  vercel_ok broken = true /\ wf broken = true /\ src_height broken < 2 /\
  ready broken = false /\
  walk (join outputDir ["config.json"]) broken = Some (File "{}") /\
  exists s' st,
    build 2 broken = Throw s' /\
    walk outputDir s' = Some (Dir [("static", Dir st); ("config", Dir [])]) /\
    walk (join outputDir ["config.json"]) s' = None /\
    walk ["dist"] s' = walk ["dist"] broken.
Proof.
  assert (F : src_height broken < 2) by (apply Nat.ltb_lt; reflexivity).
  split; [reflexivity | split; [reflexivity | split; [exact F |]]].
  split; [reflexivity | split; [reflexivity |]].
  apply (failed_run_leaves_no_manifest 2 broken); try reflexivity. exact F.
Defined.

(** X3. When [.vercel] is a regular file the script raises at its first
    [mkdirSync] and the working directory is left exactly as it was:
    nothing is removed, created or copied. *)
Theorem vercel_file_blocks_the_run fuel cwd data :
  walk [".vercel"] cwd = Some (File data) ->
  build fuel cwd = Throw cwd.
Proof.
  intros H. assert (V : vercel_ok cwd = false).
  { destruct cwd as [d | top]; [reflexivity |]. unfold vercel_ok.
    cbn [walk] in H. destruct (assoc ".vercel" top) as [[d | v] |];
      [reflexivity | discriminate H | discriminate H]. }
  unfold build, bind. now rewrite (reset_fails cwd V).
Qed.

Lemma vercel_file_blocks_the_run_witness :
  walk [".vercel"] blocked = Some (File "link") /\
  build 3 blocked = Throw blocked.
Proof.
  split; [reflexivity |].
  apply (vercel_file_blocks_the_run 3 blocked "link"). reflexivity.
Defined.

(** X4. When [dist] is a regular file the copy step tries to copy it
    onto the directory [static] and raises: the previous output is gone,
    [static] and [config] are empty, and [dist] is untouched. *)
Theorem dist_file_raises fuel cwd data :
  vercel_ok cwd = true -> walk ["dist"] cwd = Some (File data) -> 0 < fuel ->
  exists s',
    build fuel cwd = Throw s' /\
    walk outputDir s' = Some (Dir [("static", Dir []); ("config", Dir [])]) /\
    walk ["dist"] s' = Some (File data).
Proof.
  intros V D F. exists (install (skeleton []) cwd).
  assert (Ws : wf_src cwd = true) by (unfold wf_src; now rewrite D).
  rewrite (build_spec fuel cwd Ws). unfold expected, src_height, plan, mirrored.
  rewrite V, D. cbn [height andThen]. apply Nat.ltb_lt in F. rewrite F.
  split; [reflexivity |]. split.
  - rewrite <- (app_nil_r outputDir). fold (join outputDir []).
    now rewrite walk_skeleton_out.
  - rewrite <- D. apply walk_install_outside; [exact V | left; discriminate].
Qed.

Lemma dist_file_raises_witness :
  vercel_ok flat = true /\ walk ["dist"] flat = Some (File "not a directory") /\
  0 < 1 /\
  exists s',
    build 1 flat = Throw s' /\
    walk outputDir s' = Some (Dir [("static", Dir []); ("config", Dir [])]) /\
    walk ["dist"] s' = Some (File "not a directory").
Proof.
  split; [reflexivity | split; [reflexivity | split; [exact (le_n 1) |]]].
  apply (dist_file_raises 1 flat "not a directory");
    [reflexivity | reflexivity | exact (le_n 1)].
Defined.

(** X5. The selection looks at names only.  When the first qualifying
    name of the nested directory is itself a directory, [copyFileSync]
    raises, whether or not a qualifying regular file is listed after it,
    and no manifest is written.  The failed copy removes the file it was
    to write: [static] is then the copy of [dist] without a [bundle.js]
    at its root, unless [bundle.js] is a directory in [dist], which is
    kept.  (The names under [dist] are well-formed UTF-8 and listed in
    ascending order.) *)
Theorem directory_selected_as_bundle_raises fuel cwd es f :
  vercel_ok cwd = true -> listed_src cwd = true -> src_height cwd < fuel ->
  walk jsDir cwd = Some (Dir es) ->
  first_app_entry (names es) f ->
  is_dir (walk (join jsDir [f]) cwd) = true ->
  exists s',
    build fuel cwd = Throw s' /\
    (forall x p,
        x <> "bundle.js" ->
        walk (join staticDir (x :: p)) s' = walk ("dist" :: x :: p) cwd) /\
    (is_dir (walk ["dist"; "bundle.js"] cwd) = false ->
     walk (join staticDir ["bundle.js"]) s' = None) /\
    (is_dir (walk ["dist"; "bundle.js"] cwd) = true ->
     forall p,
       walk (join staticDir ("bundle.js" :: p)) s' =
       walk ("dist" :: "bundle.js" :: p) cwd) /\
    walk (join outputDir ["config.json"]) s' = None.
Proof.
  intros V L F J Hf Hd.
  assert (D : exists d, walk ["dist"] cwd = Some (Dir d)).
  { unfold jsDir, join in J. rewrite walk_app in J.
    destruct (walk ["dist"] cwd) as [[x | d] |]; try discriminate J. now exists d. }
  destruct D as (d & D).
  set (st := match assoc "bundle.js" d with
             | Some (File _) => del_entry "bundle.js" d
             | _ => d
             end).
  assert (Hp : plan cwd = Crashed st).
  { unfold plan, mirrored, promoted. rewrite D, J. cbn [andThen].
    apply find_first_app_entry in Hf. rewrite Hf.
    rewrite walk_js_child, J in Hd. subst st.
    destruct (assoc f es) as [[x | sub] |]; try discriminate Hd.
    now destruct (assoc "bundle.js" d) as [[old | sub'] |]. }
  exists (install (skeleton st) cwd).
  rewrite (build_spec fuel cwd (listed_src_wf cwd L)). unfold expected.
  apply Nat.ltb_lt in F. rewrite V, F, Hp.
  rewrite (walk_dist_child cwd "bundle.js"), D.
  destruct (vercel_ok_dir cwd V) as (top & ->).
  split; [reflexivity |]. split; [| split; [| split]].
  - intros x p Hx. rewrite (walk_static _ st) by now left.
    rewrite walk_dist_cons, D. subst st. cbn [walk].
    destruct (assoc "bundle.js" d) as [[old | sub] |]; try reflexivity.
    now rewrite assoc_del_entry_other.
  - intros Hn. rewrite (walk_static _ st) by now left. subst st. cbn [walk].
    destruct (assoc "bundle.js" d) as [[old | sub] |] eqn:B.
    + now rewrite assoc_del_entry_same.
    + discriminate Hn.
    + now rewrite B.
  - intros Hy p. rewrite (walk_static _ st) by now left.
    rewrite walk_dist_cons, D. subst st.
    now destruct (assoc "bundle.js" d) as [[old | sub] |].
  - now rewrite walk_skeleton_out.
Qed.

Lemma directory_selected_as_bundle_raises_witness :
  vercel_ok nested = true /\ listed_src nested = true /\ src_height nested < 6 /\
  walk (join jsDir ["AppEntry-maps.js"]) nested = Some (File "console.log(1)") /\
  walk ["dist"; "bundle.js"] nested = Some (File "old") /\
  exists s',
    build 6 nested = Throw s' /\
    walk (join staticDir ["_expo"; "static"; "js"; "web"; "AppEntry-maps.js"]) s'
      = Some (File "console.log(1)") /\
    walk (join staticDir ["bundle.js"]) s' = None /\
    walk (join outputDir ["config.json"]) s' = None.
Proof.
  assert (F : src_height nested < 6) by (apply Nat.ltb_lt; reflexivity).
  split; [reflexivity | split; [reflexivity | split; [exact F |]]].
  split; [reflexivity | split; [reflexivity |]].
  destruct (directory_selected_as_bundle_raises 6 nested
              [("AppEntry-abc.js", Dir []); ("AppEntry-maps.js", File "console.log(1)")]
              "AppEntry-abc.js" eq_refl eq_refl F eq_refl)
    as (s' & Hb & Hx & Hn & _ & Hc).
  - apply find_first_app_entry. reflexivity.
  - reflexivity.
  - exists s'. split; [exact Hb |]. split; [| split; [| exact Hc]].
    + rewrite Hx; [reflexivity | discriminate].
    + now apply Hn.
Defined.

(** X6. Apart from [index.html] and [bundle.js] at its root, [static]
    holds after a complete run exactly what [dist] holds: any other path
    leads under [static] to the same file or the same directory tree as
    under [dist], empty directories included, and to nothing where
    [dist] has nothing.  (The names under [dist] are well-formed UTF-8
    and listed in ascending order.) *)
Theorem static_holds_what_dist_holds fuel cwd :
  ready cwd = true -> listed_src cwd = true -> src_height cwd < fuel ->
  exists s',
    build fuel cwd = Ok tt s' /\
    forall x p,
      x <> "index.html" -> x <> "bundle.js" ->
      walk (join staticDir (x :: p)) s' = walk ("dist" :: x :: p) cwd.
Proof.
  intros R L F.
  destruct (run_listed fuel cwd R L F) as (st & s' & Hp & Hb & Es & Ho & Hs).
  exists s'. split; [exact Hb |]. intros x p Hi Hbu.
  rewrite Hs. now apply static_other.
Qed.

Lemma static_holds_what_dist_holds_witness :
  ready site = true /\ listed_src site = true /\ src_height site < 6 /\
  exists s',
    build 6 site = Ok tt s' /\
    walk (join staticDir ["assets"]) s' = Some (Dir [("logo.svg", File "<svg/>")]) /\
    walk (join staticDir ["stale.js"]) s' = None.
Proof.
  assert (F : src_height site < 6) by (apply Nat.ltb_lt; reflexivity).
  split; [reflexivity | split; [reflexivity | split; [exact F |]]].
  destruct (static_holds_what_dist_holds 6 site eq_refl eq_refl F) as (s' & Hb & H).
  exists s'. split; [exact Hb |]. split.
  - rewrite (H "assets" []); [reflexivity | discriminate | discriminate].
  - rewrite (H "stale.js" []); [reflexivity | discriminate | discriminate].
Defined.

(** X7. After a complete run the output root lists [static], [config]
    and [config.json] and nothing else, whatever an earlier run or
    anyone else had left under [.vercel/output]. *)
Theorem output_root_has_three_entries fuel cwd :
  ready cwd = true -> wf cwd = true -> src_height cwd < fuel ->
  exists s',
    build fuel cwd = Ok tt s' /\
    forall x,
      walk (join outputDir [x]) s' <> None <->
      x = "static" \/ x = "config" \/ x = "config.json".
Proof.
  intros R W F. destruct (run fuel cwd R W F) as (st & s' & Hp & Hb & Es & Ho & Hs).
  exists s'. split; [exact Hb |]. intros x.
  unfold join. rewrite walk_app, Ho. unfold packaged. cbn [walk assoc].
  eqb_cases x "static"; [split; [now left | discriminate] |].
  eqb_cases x "config"; [split; [now (right; left) | discriminate] |].
  eqb_cases x "config.json"; [split; [now (right; right) | discriminate] |].
  split; [congruence | intros [? | [? | ?]]; congruence].
Qed.

Lemma output_root_has_three_entries_witness :
  ready project = true /\ wf project = true /\ src_height project < 6 /\
  walk (join outputDir ["old.json"]) project = Some (File "{}") /\
  exists s',
    build 6 project = Ok tt s' /\
    walk (join outputDir ["old.json"]) s' = None.
Proof.
  assert (F : src_height project < 6) by (apply Nat.ltb_lt; reflexivity).
  split; [reflexivity | split; [reflexivity | split; [exact F |]]].
  split; [reflexivity |].
  destruct (output_root_has_three_entries 6 project eq_refl eq_refl F) as (s' & Hb & H).
  exists s'. split; [exact Hb |].
  destruct (walk (join outputDir ["old.json"]) s') as [n |] eqn:E; [| reflexivity].
  exfalso. assert (N : Some n <> None) by discriminate.
  rewrite <- E in N. apply (H "old.json") in N.
  destruct N as [N | [N | N]]; discriminate N.
Defined.

(** X8. The output is a function of [dist] alone: two working
    directories with the same tree at [dist] get the same tree under
    [.vercel/output], whatever else they hold and whatever was under
    [.vercel] before (as long as [.vercel] is not a regular file). *)
Theorem output_depends_on_dist_only fuel c1 c2 :
  ready c1 = true -> wf c1 = true -> src_height c1 < fuel ->
  vercel_ok c2 = true ->
  walk ["dist"] c2 = walk ["dist"] c1 ->
  exists s1 s2,
    build fuel c1 = Ok tt s1 /\
    build fuel c2 = Ok tt s2 /\
    walk outputDir s2 = walk outputDir s1.
Proof.
  intros R W F V2 E. destruct (run fuel c1 R W F) as (st & s1 & Hp & Hb & Es & Ho & Hs).
  exists s1, (install (packaged st) c2). split; [exact Hb |].
  assert (Ws : wf_src c2 = true).
  { unfold wf_src. rewrite E. now apply wf_wf_src. }
  rewrite (build_spec fuel c2 Ws). unfold expected, src_height.
  rewrite V2, E, (plan_same_dist c2 c1 E), Hp.
  unfold src_height in F. apply Nat.ltb_lt in F. rewrite F.
  split; [reflexivity |].
  rewrite Ho, <- (app_nil_r outputDir). fold (join outputDir []).
  now rewrite walk_packaged_out.
Qed.

Lemma output_depends_on_dist_only_witness :
  ready project = true /\ wf project = true /\ src_height project < 6 /\
  vercel_ok fresh = true /\ walk ["dist"] fresh = walk ["dist"] project /\
  walk [".vercel"] fresh = None /\
  exists s1 s2,
    build 6 project = Ok tt s1 /\
    build 6 fresh = Ok tt s2 /\
    walk outputDir s2 = walk outputDir s1.
Proof.
  assert (F : src_height project < 6) by (apply Nat.ltb_lt; reflexivity).
  split; [reflexivity | split; [reflexivity | split; [exact F |]]].
  split; [reflexivity | split; [reflexivity | split; [reflexivity |]]].
  apply (output_depends_on_dist_only 6 project fresh); try reflexivity. exact F.
Defined.

(** X9. The rewrite does not depend on the promotion.  When nothing is
    promoted and [dist] has no [bundle.js] of its own, [index.html] (its
    bytes being well-formed UTF-8) is rewritten all the same: an entry
    page that named the bundle ends up referring to [/bundle.js], and
    [static] has no such file.  (The names under [dist] are well-formed
    UTF-8 and listed in ascending order.) *)
Theorem rewrite_without_promotion fuel cwd html :
  ready cwd = true -> listed_src cwd = true -> src_height cwd < fuel ->
  Stated.nothing_to_promote cwd ->
  walk ["dist"; "bundle.js"] cwd = None ->
  walk ["dist"; "index.html"] cwd = Some (File html) ->
  Utf8.well_formed html = true ->
  exists s',
    build fuel cwd = Ok tt s' /\
    walk indexPath s' = Some (File (rewriteHtml html)) /\
    walk (join staticDir ["bundle.js"]) s' = None /\
    (forall pre m post,
        first_occurrence html pre m post ->
        walk indexPath s' = Some (File (pre ++ bundleSrc ++ post)%string)).
Proof.
  intros R L F N Hbu Hi U.
  destruct (run_listed fuel cwd R L F) as (st & s' & Hp & Hb & Es & Ho & Hs).
  pose proof (Claims.nothing_to_promote_selected cwd N) as Sel.
  assert (I : walk indexPath s' = Some (File (rewriteHtml html))).
  { unfold indexPath. rewrite Hs. now apply (static_index cwd st html Hp). }
  exists s'. split; [exact Hb |]. split; [exact I |]. split.
  - rewrite Hs, (static_bundle_none cwd st [] Hp Sel). exact Hbu.
  - intros pre m post Ho1. now rewrite I, (rewriteHtml_first html pre m post Ho1).
Qed.

Lemma rewrite_without_promotion_witness :
  ready unbundled = true /\ listed_src unbundled = true /\ src_height unbundled < 2 /\
  Stated.nothing_to_promote unbundled /\
  walk ["dist"; "bundle.js"] unbundled = None /\
  walk ["dist"; "index.html"] unbundled = Some (File scriptTag) /\
  Utf8.well_formed scriptTag = true /\
  exists s',
    build 2 unbundled = Ok tt s' /\
    walk indexPath s' = Some (File bundleTag) /\
    walk (join staticDir ["bundle.js"]) s' = None.
Proof.
  assert (F : src_height unbundled < 2) by (apply Nat.ltb_lt; reflexivity).
  assert (N : Stated.nothing_to_promote unbundled) by (left; reflexivity).
  split; [reflexivity | split; [reflexivity | split; [exact F |]]].
  split; [exact N | split; [reflexivity | split; [reflexivity | split; [reflexivity |]]]].
  destruct (rewrite_without_promotion 2 unbundled scriptTag eq_refl eq_refl F N
              eq_refl eq_refl eq_refl) as (s' & Hb & Hi & Hn & _).
  exists s'. split; [exact Hb | split; [exact Hi | exact Hn]].
Defined.

(** X10. [copyRecursive] on its own: copying a tree, listed in ascending
    order under names that are well-formed UTF-8, to a place that does
    not exist yet, in a directory that does, returns (for any fuel above
    the depth of the tree) with the same tree at the destination, empty
    directories and bytes included; the source still holds it, and no
    path that is apart from the destination has changed.  Source and
    destination may lie anywhere, as long as neither is inside the
    other. *)
Theorem copyRecursive_copies_the_tree fuel n src dest s pes :
  apart src dest = true ->
  listed n = true ->
  walk src s = Some n ->
  walk (removelast dest) s = Some (Dir pes) ->
  walk dest s = None ->
  height n < fuel ->
  exists s',
    copyRecursive fuel src dest s = Ok tt s' /\
    walk dest s' = Some n /\
    walk src s' = Some n /\
    forall q, apart q dest = true -> walk q s' = walk q s.
Proof.
  intros A L Hsrc Hpar Hd F. exists (update dest n s).
  rewrite (copyRecursive_tree fuel n src dest s pes A (listed_wf n L) Hsrc Hpar
             (or_introl Hd)).
  apply Nat.ltb_lt in F. rewrite F.
  destruct (apart_nonempty src dest A) as [_ Hne].
  split; [reflexivity |]. split; [| split].
  - now apply (walk_update_new dest n s pes).
  - now rewrite walk_update_apart.
  - intros q Hq. now apply walk_update_apart.
Qed.

Lemma copyRecursive_copies_the_tree_witness :
  apart ["work"; "in"] ["work"; "out"] = true /\
  listed (Dir [("a.txt", File "a");
               ("sub", Dir [("b.txt", File "b"); ("empty", Dir [])])]) = true /\
  walk ["work"; "out"] shelf = None /\
  exists s',
    copyRecursive 3 ["work"; "in"] ["work"; "out"] shelf = Ok tt s' /\
    walk ["work"; "out"] s' = walk ["work"; "in"] shelf /\
    walk ["work"; "out"; "sub"; "empty"] s' = Some (Dir []) /\
    walk ["work"; "keep.txt"] s' = Some (File "k").
Proof.
  split; [reflexivity | split; [reflexivity | split; [reflexivity |]]].
  destruct (copyRecursive_copies_the_tree 3
              (Dir [("a.txt", File "a");
                    ("sub", Dir [("b.txt", File "b"); ("empty", Dir [])])])
              ["work"; "in"] ["work"; "out"] shelf
              [("in", Dir [("a.txt", File "a");
                           ("sub", Dir [("b.txt", File "b"); ("empty", Dir [])])]);
               ("keep.txt", File "k")]
              eq_refl eq_refl eq_refl eq_refl eq_refl)
    as (s' & Hc & Hd & Hs & Hq).
  - apply Nat.ltb_lt. reflexivity.
  - exists s'. split; [exact Hc |]. split; [exact Hd |]. split.
    + change ["work"; "out"; "sub"; "empty"] with (["work"; "out"] ++ ["sub"; "empty"]).
      rewrite walk_app, Hd. reflexivity.
    + now rewrite (Hq ["work"; "keep.txt"] eq_refl).
Defined.

(** X11. The names the filter of line 28 accepts are those of the form
    [AppEntry<anything>.js], prefix and extension not overlapping: such
    a name has at least eleven characters, so [AppEntry.js] is the
    shortest, and the truthiness test of line 29 never turns a found
    name down. *)
Theorem isAppEntry_shape f :
  (isAppEntry f = true <-> exists mid, f = ("AppEntry" ++ mid ++ ".js")%string) /\
  (isAppEntry f = true -> 11 <= String.length f /\ truthy (Some f) = true).
Proof.
  assert (S : isAppEntry f = true ->
              exists mid, f = ("AppEntry" ++ mid ++ ".js")%string).
  { intros H. apply isAppEntry_iff in H. destruct H as [(t & Et) (u & Eu)].
    rewrite Et in Eu.
    do 8 (destruct u as [| ? u]; [discriminate Eu |];
          simpl in Eu; injection Eu as <- Eu).
    exists u. now rewrite Et, Eu. }
  split; [split; [exact S |] |].
  - intros (mid & ->). apply isAppEntry_iff. split.
    + now exists (mid ++ ".js")%string.
    + exists ("AppEntry" ++ mid)%string. now rewrite append_assoc.
  - intros H. destruct (S H) as (mid & ->). split.
    + rewrite !length_append. simpl. lia.
    + reflexivity.
Qed.

Lemma isAppEntry_shape_witness :
  isAppEntry "AppEntry.js" = true /\ isAppEntry "AppEntry.j" = false /\
  11 <= String.length "AppEntry-abc123.js".
Proof.
  split; [reflexivity | split; [reflexivity |]].
  apply (proj2 (isAppEntry_shape "AppEntry-abc123.js")). reflexivity.
Defined.

Lemma is_app_src_length m : is_app_src m -> 17 <= String.length m.
Proof.
  intros (x & y & _ & _ & ->). unfold quoted.
  rewrite !length_append. simpl. rewrite !length_append. simpl.
  rewrite !length_append. simpl. lia.
Qed.

(** X12. The rewrite leaves [index.html] as it is exactly when the text
    has no occurrence of the attribute: a page with an occurrence always
    comes out changed, since the replacement is shorter than any
    attribute the pattern matches. *)
Theorem rewriteHtml_unchanged_iff html :
  rewriteHtml html = html <-> no_occurrence html.
Proof.
  split; [| apply rewriteHtml_none].
  intros E. destruct (first_occurrence_dec html) as [(pre & m & post & Hf) | Hn];
    [| exact Hn].
  exfalso. rewrite (rewriteHtml_first html pre m post Hf) in E.
  destruct Hf as [[Eh Hm] _]. rewrite Eh in E.
  apply (f_equal String.length) in E. rewrite !length_append in E.
  apply is_app_src_length in Hm. simpl in E. lia.
Qed.

Lemma rewriteHtml_unchanged_iff_witness :
  rewriteHtml "<p>src=AppEntry.js</p>" = "<p>src=AppEntry.js</p>" /\
  no_occurrence "<p>src=AppEntry.js</p>".
Proof.
  split; [reflexivity |].
  apply (proj1 (rewriteHtml_unchanged_iff "<p>src=AppEntry.js</p>")). reflexivity.
Defined.

(** X13. Promotion copies, it does not move: after a complete run the
    selected file is found twice under [static], at its nested path and
    as [bundle.js] at the root, with the same bytes as in [dist].  (The
    names under [dist] are well-formed UTF-8 and listed in ascending
    order.) *)
Theorem promoted_bundle_is_a_second_copy fuel cwd es f :
  ready cwd = true -> listed_src cwd = true -> src_height cwd < fuel ->
  walk jsDir cwd = Some (Dir es) ->
  first_app_entry (names es) f ->
  exists s' data,
    build fuel cwd = Ok tt s' /\
    walk (join jsDir [f]) cwd = Some (File data) /\
    walk (join staticDir ["_expo"; "static"; "js"; "web"; f]) s' = Some (File data) /\
    walk (join staticDir ["bundle.js"]) s' = Some (File data).
Proof.
  intros R L F J Hf.
  destruct (run_listed fuel cwd R L F) as (st & s' & Hp & Hb & Es & Ho & Hs).
  apply (Claims.selected_first_app_entry cwd es f J) in Hf.
  destruct (static_bundle_some cwd st f Hp Hf) as (data & Hw & Hbun & _).
  exists s', data. split; [exact Hb |]. split; [exact Hw |]. split.
  - rewrite Hs, (static_other cwd st "_expo" _ Hp) by discriminate. exact Hw.
  - now rewrite Hs.
Qed.

Lemma promoted_bundle_is_a_second_copy_witness :
  ready site = true /\ listed_src site = true /\ src_height site < 6 /\
  exists s' data,
    build 6 site = Ok tt s' /\
    walk (join jsDir ["AppEntry-abc123.js"]) site = Some (File data) /\
    walk (join staticDir ["_expo"; "static"; "js"; "web"; "AppEntry-abc123.js"]) s'
      = Some (File data) /\
    walk (join staticDir ["bundle.js"]) s' = Some (File data).
Proof.
  assert (F : src_height site < 6) by (apply Nat.ltb_lt; reflexivity).
  split; [reflexivity | split; [reflexivity | split; [exact F |]]].
  apply (promoted_bundle_is_a_second_copy 6 site
           [("AppEntry-abc123.js", File "console.log(1)"); ("notes.txt", File "n")]
           "AppEntry-abc123.js"); try reflexivity; [exact F |].
  apply find_first_app_entry. reflexivity.
Defined.

(** X14. Right after the copy step, before anything is promoted or
    rewritten, [static] is the very tree of [dist].  (The names under
    [dist] are well-formed UTF-8 and listed in ascending order.) *)
Theorem static_after_the_copy_step fuel cwd d :
  vercel_ok cwd = true -> listed_src cwd = true -> src_height cwd < fuel ->
  walk ["dist"] cwd = Some (Dir d) ->
  exists s1,
    (reset ;; mirror fuel) cwd = Ok tt s1 /\
    walk staticDir s1 = Some (Dir d) /\
    walk ["dist"] s1 = Some (Dir d).
Proof.
  intros V L F D. destruct (vercel_ok_dir cwd V) as (top & ->).
  exists (install (skeleton d) (Dir top)). split; [| split].
  - unfold bind. rewrite (reset_spec top V).
    rewrite (mirror_spec fuel top (listed_src_wf _ L)).
    unfold src_height, mirrored in *. rewrite D in *.
    apply Nat.ltb_lt in F. now rewrite F.
  - rewrite <- (app_nil_r staticDir). fold (join staticDir []).
    rewrite (walk_static _ d) by now left. reflexivity.
  - rewrite <- D. apply walk_install_other. discriminate.
Qed.

Lemma static_after_the_copy_step_witness :
  vercel_ok site = true /\ listed_src site = true /\ src_height site < 6 /\
  walk (join staticDir ["stale.js"]) site = Some (File "stale") /\
  exists s1,
    (reset ;; mirror 6) site = Ok tt s1 /\
    walk staticDir s1 = walk ["dist"] site.
Proof.
  assert (F : src_height site < 6) by (apply Nat.ltb_lt; reflexivity).
  split; [reflexivity | split; [reflexivity | split; [exact F |]]].
  split; [reflexivity |].
  destruct (static_after_the_copy_step 6 site _ eq_refl eq_refl F eq_refl)
    as (s1 & H1 & H2 & _).
  exists s1. split; [exact H1 | exact H2].
Defined.

Lemma apart_app_r p q t : apart p q = true -> apart p (q ++ t) = true.
Proof. intros H. rewrite <- (app_nil_r p). now apply apart_app. Qed.

Lemma apart_common c p q : apart (c ++ p) (c ++ q) = apart p q.
Proof.
  induction c as [| x c IH]; simpl; [reflexivity |].
  now rewrite String.eqb_refl.
Qed.

Lemma walk_mkdirp_apart q :
  forall p s s', mkdirp q s = Some s' -> apart p q = true -> walk p s' = walk p s.
Proof.
  induction q as [| y q IH]; intros [| x p] s s' H A; simpl in A;
    try discriminate A.
  destruct s as [d | es]; [discriminate H |]. cbn [mkdirp] in H.
  cbv zeta in H.
  destruct (mkdirp q _) as [sub' |] eqn:M; [| discriminate H].
  injection H as <-. cbn [walk]. eqb_cases x y.
  - rewrite assoc_set_entry_same. rewrite (IH p _ _ M A).
    destruct (assoc y es) as [m |]; [reflexivity |].
    destruct p as [| z p]; [destruct q; discriminate A | reflexivity].
  - now rewrite assoc_set_entry_other.
Qed.

Lemma writes_under_ret A dest (a : A) : writes_under dest (ret a).
Proof. now intros s q _. Qed.

Lemma writes_under_bind A B dest (m : M A) (k : A -> M B) :
  writes_under dest m -> (forall a, writes_under dest (k a)) ->
  writes_under dest (bind m k).
Proof.
  intros Hm Hk s. unfold bind. specialize (Hm s).
  destruct (m s) as [a s1 | s1 |]; [| exact Hm | exact I].
  specialize (Hk a s1).
  destruct (k a s1) as [b s2 | s2 |]; [| | exact I];
    intros q Hq; now rewrite (Hk q Hq), (Hm q Hq).
Qed.

Lemma writes_under_deeper A dest t (m : M A) :
  writes_under (dest ++ t) m -> writes_under dest m.
Proof.
  intros H s. specialize (H s).
  destruct (m s) as [a s1 | s1 |]; [| | exact I];
    intros q Hq; apply H; now apply apart_app_r.
Qed.

Lemma writes_under_forEach A dest (l : list A) (f : A -> M unit) :
  (forall x, writes_under dest (f x)) -> writes_under dest (forEach l f).
Proof.
  intros H. induction l as [| x l IH]; simpl; [apply writes_under_ret |].
  apply writes_under_bind; [apply H | intros _; exact IH].
Qed.

Lemma writes_under_read A dest (m : M A) :
  (forall s, m s = Throw s \/ exists a, m s = Ok a s) -> writes_under dest m.
Proof.
  intros H s. destruct (H s) as [-> | (a & ->)]; now intros q _.
Qed.

Lemma reads_existsSync p s : existsSync p s = Throw s \/ exists a, existsSync p s = Ok a s.
Proof. right. unfold existsSync. eauto. Qed.

Lemma reads_statSync p s : statSync p s = Throw s \/ exists a, statSync p s = Ok a s.
Proof. unfold statSync. destruct (walk p s) as [[d | es] |]; eauto. Qed.

Lemma reads_readdirSync p s :
  readdirSync p s = Throw s \/ exists a, readdirSync p s = Ok a s.
Proof. unfold readdirSync. destruct (walk p s) as [[d | es] |]; eauto. Qed.

Lemma reads_readFileSync p s :
  readFileSync p s = Throw s \/ exists a, readFileSync p s = Ok a s.
Proof. unfold readFileSync. destruct (walk p s) as [[d | es] |]; eauto. Qed.

Lemma writes_under_mkdirSync dest : writes_under dest (mkdirSync dest).
Proof.
  intros s. unfold mkdirSync. destruct (mkdirp dest s) as [s' |] eqn:M.
  - intros q Hq. now apply (walk_mkdirp_apart dest q s s').
  - now intros q _.
Qed.

Lemma writes_under_copyFileSync src dest : writes_under dest (copyFileSync src dest).
Proof.
  intros s. unfold copyFileSync.
  destruct (walk src s) as [[data | ses] |]; [| | now intros q _].
  - unfold writeFileSync.
    destruct (walk (removelast dest) s) as [[d | es] |]; try now intros q _.
    destruct (walk dest s) as [[d | es'] |]; try (now intros q _);
      intros q Hq; now apply walk_update_apart.
  - destruct (walk (removelast dest) s) as [[d | es] |]; try now intros q _.
    destruct (walk dest s) as [[d | es'] |]; try (now intros q _).
    intros q Hq. now apply walk_unlink_apart.
Qed.

Lemma writes_under_copyRecursive fuel :
  forall src dest, writes_under dest (copyRecursive fuel src dest).
Proof.
  induction fuel as [| f IH]; intros src dest; [now intros s |].
  cbn [copyRecursive].
  apply writes_under_bind; [apply writes_under_read, reads_existsSync | intros present].
  destruct (negb present); [apply writes_under_ret |].
  apply writes_under_bind; [apply writes_under_read, reads_statSync | intros stats].
  destruct (isDirectory stats); [| apply writes_under_copyFileSync].
  apply writes_under_bind; [apply writes_under_read, reads_existsSync | intros there].
  apply writes_under_bind.
  { destruct (negb there); [apply writes_under_mkdirSync | apply writes_under_ret]. }
  intros _.
  apply writes_under_bind; [apply writes_under_read, reads_readdirSync | intros items].
  apply writes_under_forEach. intros item.
  apply (writes_under_deeper _ dest [item]). apply IH.
Qed.

(** X15. [copyRecursive] writes at its destination only.  For any source,
    destination, file system and outcome (return or raise), every path
    that is apart from the destination, which means neither under it nor
    on the way to it, leads afterwards to what it led to before. *)
Theorem copyRecursive_writes_only_under_dest fuel src dest s :
  match copyRecursive fuel src dest s with
  | Ok _ s' | Throw s' =>
      forall q, apart q dest = true -> walk q s' = walk q s
  | OutOfFuel => True
  end.
Proof. apply writes_under_copyRecursive. Qed.

Lemma copyRecursive_writes_only_under_dest_witness :
  exists s',
    copyRecursive 3 ["in"] ["out"] crowded = Ok tt s' /\
    walk ["in"] s' = walk ["in"] crowded.
Proof.
  pose proof (copyRecursive_writes_only_under_dest 3 ["in"] ["out"] crowded) as H.
  destruct (copyRecursive 3 ["in"] ["out"] crowded) as [[] s' | s' |] eqn:C.
  - exists s'. split; [reflexivity | exact (H ["in"] eq_refl)].
  - exfalso. vm_compute in C. discriminate C.
  - exfalso. vm_compute in C. discriminate C.
Defined.

(** X16. [copyRecursive] merges into a directory that exists and deletes
    nothing there: an entry of the destination whose name the source
    directory does not list is, with everything under it, what it was,
    whether the copy returns or raises on the way. *)
Theorem copyRecursive_keeps_other_entries fuel src dest s es ds k :
  walk src s = Some (Dir es) ->
  walk dest s = Some (Dir ds) ->
  ~ In k (names es) ->
  match copyRecursive fuel src dest s with
  | Ok _ s' | Throw s' =>
      forall p, walk (dest ++ k :: p) s' = walk (dest ++ k :: p) s
  | OutOfFuel => True
  end.
Proof.
  intros Hsrc Hd Hk. destruct fuel as [| f]; [exact I |].
  cbn [copyRecursive]. unfold bind at 1. unfold existsSync at 1. rewrite Hsrc.
  cbn [negb]. unfold bind at 1. unfold statSync at 1. rewrite Hsrc.
  cbn [isDirectory]. unfold bind at 1. unfold existsSync at 1. rewrite Hd.
  cbn [negb when]. unfold bind at 1. unfold ret at 1.
  unfold bind at 1. unfold readdirSync at 1. rewrite Hsrc.
  assert (L : forall items, (forall i, In i items -> i <> k) ->
              forall s0,
                match forEach items (fun item =>
                        copyRecursive f (join src [item]) (join dest [item])) s0 with
                | Ok _ s' | Throw s' =>
                    forall p, walk (dest ++ k :: p) s' = walk (dest ++ k :: p) s0
                | OutOfFuel => True
                end).
  { induction items as [| i items IHi]; intros Hi s0; [now intros p |].
    cbn [forEach]. unfold bind.
    assert (Ai : forall p, apart (dest ++ k :: p) (join dest [i]) = true).
    { intros p. unfold join. rewrite apart_common. simpl.
      assert (Ne : i <> k) by (apply Hi; now left).
      apply not_eq_sym in Ne. apply String.eqb_neq in Ne. now rewrite Ne. }
    pose proof (writes_under_copyRecursive f (join src [i]) (join dest [i]) s0) as H1.
    destruct (copyRecursive f (join src [i]) (join dest [i]) s0) as [[] s1 | s1 |];
      [| intros p; now apply H1 | exact I].
    assert (Hi' : forall j, In j items -> j <> k) by (intros j Hj; apply Hi; now right).
    specialize (IHi Hi' s1).
    destruct (forEach items _ s1) as [[] s2 | s2 |]; [| | exact I];
      intros p; rewrite (IHi p); now apply H1. }
  apply L. intros i Hin ->. contradiction.
Qed.

Lemma copyRecursive_keeps_other_entries_witness :
  walk ["out"; "mine.txt"] crowded = Some (File "m") /\
  exists s',
    copyRecursive 3 ["in"] ["out"] crowded = Ok tt s' /\
    walk ["out"; "mine.txt"] s' = Some (File "m") /\
    walk ["out"; "sub"; "c.txt"] s' = Some (File "c") /\
    walk ["out"; "a.txt"] s' = Some (File "new").
Proof.
  split; [reflexivity |].
  assert (N : ~ In "mine.txt" (names [("a.txt", File "new");
                                      ("sub", Dir [("b.txt", File "b")])])).
  { intros [E | [E | []]]; discriminate E. }
  pose proof (copyRecursive_keeps_other_entries 3 ["in"] ["out"] crowded
                [("a.txt", File "new"); ("sub", Dir [("b.txt", File "b")])]
                [("a.txt", File "old"); ("mine.txt", File "m");
                 ("sub", Dir [("c.txt", File "c")])]
                "mine.txt" eq_refl eq_refl N) as H.
  destruct (copyRecursive 3 ["in"] ["out"] crowded) as [[] s' | s' |] eqn:C.
  - exists s'. split; [reflexivity |]. split.
    + exact (H []).
    + vm_compute in C. injection C as <-. split; reflexivity.
  - exfalso. vm_compute in C. discriminate C.
  - exfalso. vm_compute in C. discriminate C.
Defined.

Lemma moodStats_from acc log :
  let stats :=
    fold_left
      (fun stats entry =>
         let stats := {| App.total := S (App.total stats);
                         App.positive := App.positive stats |} in
         if String.eqb (App.MoodEntry.mood entry) "Excellent"
            || String.eqb (App.MoodEntry.mood entry) "Good"
         then {| App.total := App.total stats; App.positive := S (App.positive stats) |}
         else stats)
      log acc in
  App.total stats = App.total acc + List.length log /\
  App.positive stats = App.positive acc + List.length (filter App.isPositive log).
Proof.
  revert acc. induction log as [| e log IH]; intros acc; cbn [fold_left filter].
  - simpl. lia.
  - cbv zeta in *. unfold App.isPositive at 1.
    destruct (String.eqb (App.MoodEntry.mood e) "Excellent"
              || String.eqb (App.MoodEntry.mood e) "Good");
      match goal with
      | |- context [fold_left ?f log ?a] => destruct (IH a) as [Ht Hp]
      end; rewrite Ht, Hp; simpl; lia.
Qed.

(** X17. The statistics of the tracker count what they say: [total] is
    the number of entries of the log, [positive] the number of those
    whose mood is [Excellent] or [Good]; so [positive] never exceeds
    [total], and both are zero on the empty log. *)
Theorem moodStats_counts log :
  App.total (App.moodStats log) = List.length log /\
  App.positive (App.moodStats log) = List.length (filter App.isPositive log) /\
  App.positive (App.moodStats log) <= App.total (App.moodStats log).
Proof.
  destruct (moodStats_from {| App.total := 0; App.positive := 0 |} log) as [Ht Hp].
  assert (Ht' : App.total (App.moodStats log) = List.length log) by exact Ht.
  assert (Hp' : App.positive (App.moodStats log) =
                List.length (filter App.isPositive log)) by exact Hp.
  rewrite Ht', Hp'.
  split; [reflexivity | split; [reflexivity | apply filter_length_le]].
Qed.

Lemma moodStats_counts_witness :
  App.moodStats (App.moodLog (App.initial "Nov 02, 9:00 am")) =
    {| App.total := 1; App.positive := 1 |} /\
  App.positive (App.moodStats (App.moodLog (App.initial "Nov 02, 9:00 am"))) <=
  App.total (App.moodStats (App.moodLog (App.initial "Nov 02, 9:00 am"))).
Proof.
  split; [reflexivity |].
  apply (moodStats_counts (App.moodLog (App.initial "Nov 02, 9:00 am"))).
Defined.

Lemma find_label_in l o :
  Js.find (fun option => String.eqb (App.MoodOption.label option) l) App.moodOptions
    = Some o ->
  In o App.moodOptions /\ App.MoodOption.label o = l.
Proof.
  intros H. apply find_some in H. destruct H as [Hin E].
  apply String.eqb_eq in E. now split.
Qed.

Lemma find_label_none l :
  Js.find (fun option => String.eqb (App.MoodOption.label option) l) App.moodOptions
    = None ->
  ~ In l App.labels.
Proof.
  intros H Hin. unfold App.labels in Hin. apply in_map_iff in Hin.
  destruct Hin as (o & E & Hin).
  pose proof (find_none _ _ H o Hin) as N. cbv beta in N.
  rewrite E, String.eqb_refl in N. discriminate N.
Qed.

(** X18. [logMood] and the statistics.  When the selection is one of the
    five labels, the log gets one entry in front, with the selected
    mood, the emoji and colour the table gives for it, the typed note,
    the given time and date; selection and note are reset; [total] goes
    up by one, and [positive] goes up by one exactly for [Excellent] and
    [Good].  In every other case the state asked for is the state as it
    was, the typed note included, and the only alert raised is the one
    for an empty selection. *)
Theorem logMood_and_stats now today st :
  (In (App.selectedMood st) App.labels ->
   exists entry,
     fst (App.logMood now today st) =
       {| App.selectedMood := ""; App.note := "";
          App.moodLog := entry :: App.moodLog st |} /\
     App.MoodEntry.mood entry = App.selectedMood st /\
     App.MoodEntry.note entry = App.note st /\
     App.MoodEntry.date entry = today /\
     App.MoodEntry.id entry = App.toString now /\
     App.fromTable entry /\
     App.total (App.moodStats (entry :: App.moodLog st)) =
       S (App.total (App.moodStats (App.moodLog st))) /\
     App.positive (App.moodStats (entry :: App.moodLog st)) =
       App.positive (App.moodStats (App.moodLog st)) +
       (if String.eqb (App.selectedMood st) "Excellent"
           || String.eqb (App.selectedMood st) "Good" then 1 else 0)) /\
  (~ In (App.selectedMood st) App.labels ->
   fst (App.logMood now today st) = st /\
   (snd (App.logMood now today st) = [] <-> App.selectedMood st <> "")).
Proof.
  unfold App.logMood. split.
  - intros Hin.
    destruct (String.eqb_spec (App.selectedMood st) "") as [E | E].
    { exfalso. rewrite E in Hin. simpl in Hin.
      repeat (destruct Hin as [Hin | Hin]; [discriminate Hin |]). exact Hin. }
    destruct (Js.find _ App.moodOptions) as [o |] eqn:Fo.
    + destruct (find_label_in _ o Fo) as [Ho El].
      eexists. split; [reflexivity |].
      cbn [App.MoodEntry.mood App.MoodEntry.note App.MoodEntry.date
           App.MoodEntry.id].
      repeat (split; [reflexivity |]).
      split; [exists o; repeat split; [exact Ho | now rewrite El] |].
      match goal with
      | |- context [App.moodStats (?e :: _)] => set (entry := e)
      end.
      destruct (moodStats_counts (entry :: App.moodLog st)) as (T1 & P1 & _).
      destruct (moodStats_counts (App.moodLog st)) as (T0 & P0 & _).
      rewrite T1, P1, T0, P0. cbn [List.length filter].
      split; [reflexivity |].
      unfold App.isPositive at 1. subst entry. cbn [App.MoodEntry.mood].
      destruct (String.eqb (App.selectedMood st) "Excellent"
                || String.eqb (App.selectedMood st) "Good"); simpl; lia.
    + exfalso. now apply (find_label_none _ Fo).
  - intros Hn.
    destruct (String.eqb_spec (App.selectedMood st) "") as [E | E].
    + split; [reflexivity |]. split; [discriminate | congruence].
    + destruct (Js.find _ App.moodOptions) as [o |] eqn:Fo.
      * exfalso. apply Hn. destruct (find_label_in _ o Fo) as [Ho El].
        rewrite <- El. unfold App.labels. now apply in_map.
      * split; [reflexivity |]. now split.
Qed.

Lemma logMood_and_stats_witness :
  exists entry,
    fst (App.logMood 1700000000000 "Nov 02, 9:05 am"
           (App.setNote "slow day" (App.setSelectedMood "Meh"
              (App.initial "Nov 02, 9:00 am")))) =
      {| App.selectedMood := ""; App.note := "";
         App.moodLog := entry :: App.moodLog (App.initial "Nov 02, 9:00 am") |} /\
    App.MoodEntry.note entry = "slow day" /\
    App.MoodEntry.id entry = "1700000000000" /\
    App.total (App.moodStats
                 (entry :: App.moodLog (App.initial "Nov 02, 9:00 am"))) = 2 /\
    App.positive (App.moodStats
                    (entry :: App.moodLog (App.initial "Nov 02, 9:00 am"))) = 1.
Proof.
  destruct (proj1 (logMood_and_stats 1700000000000 "Nov 02, 9:05 am"
                     (App.setNote "slow day" (App.setSelectedMood "Meh"
                        (App.initial "Nov 02, 9:00 am")))))
    as (entry & E & _ & Hn & _ & Hid & _ & Ht & Hp).
  - right. left. reflexivity.
  - exists entry. split; [exact E |]. split; [exact Hn |]. split; [exact Hid |].
    split; [exact Ht | exact Hp].
Defined.

(** X19. In every state the handlers can lead to from the initial one,
    each entry of the log carries the emoji and the colour that the
    table of options gives for its mood. *)
Theorem log_entries_come_from_the_table today0 st :
  App.reachable today0 st -> Forall App.fromTable (App.moodLog st).
Proof.
  induction 1 as [| st l _ IH | st t _ IH | st now today _ IH | st b f _ IH Hb Hf].
  - constructor; [| constructor].
    eexists. split; [do 4 right; left; reflexivity |]. now repeat split.
  - exact IH.
  - exact IH.
  - unfold App.logMood.
    destruct (String.eqb (App.selectedMood st) ""); [exact IH |].
    destruct (Js.find _ App.moodOptions) as [o |] eqn:Fo; [| exact IH].
    destruct (find_label_in _ o Fo) as [Ho El].
    constructor; [| exact IH].
    exists o. repeat split; [exact Ho | now rewrite El].
  - destruct Hb as [<- | [<- | []]]; [discriminate Hf |].
    injection Hf as <-. constructor.
Qed.

Lemma log_entries_come_from_the_table_witness :
  App.reachable "Nov 02, 9:00 am"
    (fst (App.logMood 1700000000000 "Nov 02, 9:05 am"
            (App.setNote "fine" (App.setSelectedMood "Good"
               (App.initial "Nov 02, 9:00 am"))))) /\
  Forall App.fromTable
    (App.moodLog
       (fst (App.logMood 1700000000000 "Nov 02, 9:05 am"
               (App.setNote "fine" (App.setSelectedMood "Good"
                  (App.initial "Nov 02, 9:00 am")))))).
Proof.
  assert (R : App.reachable "Nov 02, 9:00 am"
                (fst (App.logMood 1700000000000 "Nov 02, 9:05 am"
                        (App.setNote "fine" (App.setSelectedMood "Good"
                           (App.initial "Nov 02, 9:00 am")))))).
  { apply App.reach_log, App.reach_note, App.reach_select, App.reach_initial. }
  split; [exact R |].
  apply (log_entries_come_from_the_table "Nov 02, 9:00 am" _ R).
Defined.

End Extras.
